(** * sap.ui.table.TableUtils: a shallow embedding

    The table, its columns, rows and the part of the DOM that TableUtils
    reads are modelled as records; the utility functions of TableUtils.js
    are state transformers over a [World] that holds the table, the log of
    fired notifications and the registry of sap.ui.core.ResizeHandler. *)

From Stdlib Require Import ZArith Lia String Ascii List Bool.
From stdpp Require Import base gmap sets list strings.

#[local] Set Warnings "-clear-no-such-hyp".

Local Open Scope Z_scope.

(** ** JavaScript helpers *)

(** The result of [parseInt(s, 10)]. *)
Inductive JsInt : Type :=
| NaN
| Int (z : Z).

Definition digit_of (c : ascii) : option Z :=
  let n := Z.of_N (N_of_ascii c) in
  if (48 <=? n) && (n <=? 57) then Some (n - 48) else None.

Definition is_js_space (c : ascii) : bool :=
  let n := Z.of_N (N_of_ascii c) in
  (n =? 32) || ((9 <=? n) && (n <=? 13)).

Fixpoint skip_spaces (s : string) : string :=
  match s with
  | String c s' => if is_js_space c then skip_spaces s' else s
  | EmptyString => s
  end.

Fixpoint parse_digits (s : string) (acc : JsInt) : JsInt :=
  match s with
  | String c s' =>
      match digit_of c with
      | Some d =>
          parse_digits s' (Int (10 * (match acc with Int a => a | NaN => 0 end) + d))
      | None => acc
      end
  | EmptyString => acc
  end.

Definition negate (n : JsInt) : JsInt :=
  match n with
  | Int z => Int (- z)
  | NaN => NaN
  end.

(** [parseInt(s, 10)] on a string: leading white space, an optional sign,
    the longest prefix of decimal digits; [NaN] when there is none. *)
Definition parseInt_string (s : string) : JsInt :=
  match skip_spaces s with
  | String "-"%char s' => negate (parse_digits s' NaN)
  | String "+"%char s' => parse_digits s' NaN
  | s' => parse_digits s' NaN
  end.

(** [parseInt(v, 10)] where [v] may be [undefined]. *)
Definition parseInt (v : option string) : JsInt :=
  match v with
  | Some s => parseInt_string s
  | None => NaN
  end.

(** [s.split("-")]. *)
Fixpoint split_dash (s : string) : list string :=
  match s with
  | EmptyString => [EmptyString]
  | String c s' =>
      if Ascii.eqb c "-"%char then EmptyString :: split_dash s'
      else match split_dash s' with
           | h :: t => String c h :: t
           | [] => [String c EmptyString]
           end
  end.

(** [s.slice(n)] for a non-negative [n]. *)
Fixpoint slice_from (n : nat) (s : string) : string :=
  match n, s with
  | S n', String _ s' => slice_from n' s'
  | _, _ => s
  end.

(** [a[i]] on an array: [undefined] for [NaN], a negative or a too large
    index. *)
Definition js_index {A : Type} (a : list A) (i : JsInt) : option A :=
  match i with
  | Int z => if z <? 0 then None else a !! Z.to_nat z
  | NaN => None
  end.

(** [i < 0] and [i >= n] on a possibly-[NaN] number: both are false for
    [NaN]. *)
Definition js_ltb0 (i : JsInt) : bool :=
  match i with
  | Int z => z <? 0
  | NaN => false
  end.

Definition js_geb (i : JsInt) (n : Z) : bool :=
  match i with
  | Int z => n <=? z
  | NaN => false
  end.

(** [Math.round(d / n)] for integers [d] and [n > 0]: the nearest integer,
    ties towards plus infinity.  For [n = 0] JavaScript yields an infinity
    or NaN; resizeColumn computes that value only in its last iteration and
    never reads it, the model returns 0 there. *)
Definition Math_round_div (d n : Z) : Z := (2 * d + n) / (2 * n).

(** ** The DOM as TableUtils sees it *)

Record DomNode : Type := {
  node_tag : string;
  node_id : string;
  node_classes : list string;
  node_rowindex : option string;    (* attribute data-sap-ui-rowindex *)
  node_colindex : option string;    (* attribute data-sap-ui-colindex *)
  node_colspan : option string      (* attribute colspan *)
}.

(** An element with its ancestors inside the table's root element, the
    nearest first. *)
Record DomElem : Type := {
  el_node : DomNode;
  el_ancestors : list DomNode
}.

#[global] Instance DomNode_eq_dec : EqDecision DomNode.
Proof. solve_decision. Defined.

#[global] Instance DomElem_eq_dec : EqDecision DomElem.
Proof. solve_decision. Defined.

Definition hasClass (cls : string) (n : DomNode) : bool :=
  bool_decide (cls ∈ node_classes n).

(** The chain an upward search walks: the element, then its ancestors. *)
Definition chain (e : DomElem) : list DomNode := el_node e :: el_ancestors e.

Fixpoint closest_in (p : DomNode -> bool) (l : list DomNode) : option DomElem :=
  match l with
  | [] => None
  | n :: rest =>
      if p n then Some {| el_node := n; el_ancestors := rest |}
      else closest_in p rest
  end.

(** [$e.closest(selector, tableRoot)]. *)
Definition closest (p : DomNode -> bool) (e : DomElem) : option DomElem :=
  closest_in p (chain e).

(** [$e.parent()]. *)
Definition parent (e : DomElem) : option DomElem :=
  match el_ancestors e with
  | [] => None
  | n :: rest => Some {| el_node := n; el_ancestors := rest |}
  end.

(** ** Table, columns, rows *)

Inductive SelectionMode : Type :=
| MultiToggle
| Multi
| Single
| SelectionMode_None.

Inductive SelectionBehavior : Type :=
| Row_
| RowSelector
| RowOnly.

#[global] Instance SelectionMode_eq_dec : EqDecision SelectionMode.
Proof. solve_decision. Defined.

#[global] Instance SelectionBehavior_eq_dec : EqDecision SelectionBehavior.
Proof. solve_decision. Defined.

Inductive CELLTYPES : Type :=
| DATACELL
| COLUMNHEADER
| ROWHEADER
| COLUMNROWHEADER.

#[global] Instance CELLTYPES_eq_dec : EqDecision CELLTYPES.
Proof. solve_decision. Defined.

(** The width property of a column: the empty string, "auto", a
    percentage, or a length in pixels as [setWidth(n + "px")] writes it. *)
Inductive CssWidth : Type :=
| W_empty
| W_auto
| W_percent (p : Z)
| W_px (n : Z).

#[global] Instance CssWidth_eq_dec : EqDecision CssWidth.
Proof. solve_decision. Defined.

(** The two-button overlay that applyColumnHeaderCellMenu puts into a
    column header cell. *)
Record CellMenu : Type := {
  cm_dropDown : bool;     (* has a .sapUiTableColDropDown button *)
  cm_resizer : bool       (* has a .sapUiTableColResizer button *)
}.

Record Column : Type := {
  col_id : string;
  col_visible : bool;
  col_resizable : bool;
  col_width : CssWidth;
  col_minWidth : option Z;         (* the private field _minWidth *)
  col_offsetWidth : option Z;      (* getDomRef().offsetWidth; None: not rendered *)
  col_thOffsetWidth : option Z;    (* th[data-sap-ui-colid] in the table element *)
  col_menuOpen : bool;             (* the column menu is open *)
  col_menuHasItems : bool;
  col_filterableByMenu : bool;
  col_cellHidden : bool;           (* .sapUiTableColCell is hidden *)
  col_cellMenu : option CellMenu   (* .sapUiTableColCellMenu in the header cell *)
}.

Record Cell : Type := {
  cell_colid : string;
  cell_dom : option DomElem
}.

Record Row : Type := {
  row_index : Z;                   (* getIndex(): the absolute row index *)
  row_cells : list Cell
}.

(** The singleton data cell context menu [_oCellContextMenu]. *)
Record CellContextMenu : Type := {
  ccm_open : bool;                 (* bOpen *)
  ccm_opener : option DomElem;     (* oOpenerRef *)
  ccm_filter : option (nat * Z);   (* column and row index bound to the filter
                                      item; None: the menu has no item *)
  ccm_hover : bool
}.

(** What the table exposes and TableUtils never writes. *)
Record TableConfig : Type := {
  cfg_selectionMode : SelectionMode;
  cfg_selectionBehavior : SelectionBehavior;
  cfg_groupMode : bool;            (* TableGrouping.isGroupMode *)
  cfg_hasBinding : bool;           (* getBinding("rows") != null *)
  cfg_hasBindingInfo : bool;       (* getBindingInfo("rows") != null *)
  cfg_rowCount : Z;                (* _getRowCount() *)
  cfg_selectableRowCount : Z;      (* _getSelectableRowCount() *)
  cfg_visibleRowCount : Z;
  cfg_fixedRowCount : Z;
  cfg_fixedBottomRowCount : Z;
  cfg_fixedColumnCount : Z;
  cfg_rendered : bool;             (* getDomRef() != null *)
  cfg_enableCellFilter : bool;
  cfg_rows : list Row;
  cfg_sanitize : Z -> Z;           (* _getSanitizedFirstVisibleRow, of the cursor *)
  cfg_domRef : string -> option bool
    (* getDomRef(sIdSuffix): None when there is no such element, otherwise
       whether the element has a parentNode *)
}.

Definition Handle : Type := positive.

Record Table : Type := {
  tb_cfg : TableConfig;
  tb_columns : list Column;
  tb_selected : gset Z;                               (* selected row indices *)
  tb_iSourceRowIndex : option Z;                      (* _iSourceRowIndex *)
  tb_firstVisibleRow : Z;
  tb_mResizeHandlerIds : option (gmap string (option Handle));
  tb_cellContextMenu : option CellContextMenu
}.

(** ** The world: table, notifications, resize handler registry *)

Inductive Notification : Type :=
| ColumnResize (column : nat) (width : Z)
| ColumnSelect (column : option nat)
| CellContextmenu (rowIndex : Z) (columnIndex : JsInt) (columnId : string)
    (cellControl : option Cell) (rowBindingContext : bool) (cellDomRef : DomNode).

Record World : Type := {
  w_table : Table;
  w_fired : list Notification;     (* notifications fired so far, oldest first *)
  w_live : gmap Handle string;     (* the live handles of ResizeHandler, each with
                                      the suffix of the region it listens to *)
  w_next : Handle;                 (* the next handle ResizeHandler gives out *)
  w_log : list string              (* jQuery.sap.log.error *)
}.

(** What does not belong to one table: the device, the minimum column
    width of TableColumnUtils.getMinColumnWidth() (TableColumnUtils.js is
    not part of the sources, its value is a parameter) and the
    application's handler of the cancelable notifications, which answers
    whether the default action is executed. *)
Record Env : Type := {
  env_desktop : bool;
  env_minColumnWidth : Z;
  env_handler : Table -> Notification -> bool
}.

Inductive Exn : Type :=
| TypeError.

Inductive Outcome (A : Type) : Type :=
| Ok (a : A) (w : World)
| Throw (e : Exn) (w : World).

Arguments Ok {A} a w.
Arguments Throw {A} e w.

Definition M (A : Type) : Type := World -> Outcome A.

Definition ret {A : Type} (a : A) : M A := fun w => Ok a w.

Definition bind {A B : Type} (m : M A) (k : A -> M B) : M B :=
  fun w =>
    match m w with
    | Ok a w' => k a w'
    | Throw e w' => Throw e w'
    end.

Definition throw {A : Type} (e : Exn) : M A := fun w => Throw e w.

Notation "x <- m ;; k" := (bind m (fun x => k))
  (at level 100, m at next level, right associativity).
Notation "m ;;; k" := (bind m (fun _ => k))
  (at level 100, right associativity).

Definition getTable : M Table := fun w => Ok (w_table w) w.

Definition with_table (t : Table) (w : World) : World :=
  {| w_table := t; w_fired := w_fired w; w_live := w_live w;
     w_next := w_next w; w_log := w_log w |}.

Definition modifyTable (f : Table -> Table) : M unit :=
  fun w => Ok tt (with_table (f (w_table w)) w).

(** [undefined.method()]: reading a property of undefined throws. *)
Definition deref {A : Type} (o : option A) : M A :=
  match o with
  | Some a => ret a
  | None => throw TypeError
  end.

(** Firing a cancelable notification: it is logged, and the handler's
    answer is the event's "execute default" result. *)
Definition fire (E : Env) (n : Notification) : M bool :=
  fun w =>
    Ok (env_handler E (w_table w) n)
       {| w_table := w_table w; w_fired := w_fired w ++ [n];
          w_live := w_live w; w_next := w_next w; w_log := w_log w |}.

Definition log_error (msg : string) : M unit :=
  fun w =>
    Ok tt {| w_table := w_table w; w_fired := w_fired w; w_live := w_live w;
             w_next := w_next w; w_log := w_log w ++ [msg] |}.

(** The table argument of a utility function: [null] or the table of the
    world. *)
Inductive TableRef : Type :=
| null
| oTable.

(** *** Field updates of the table *)

Definition set_columns (cs : list Column) (t : Table) : Table :=
  {| tb_cfg := tb_cfg t; tb_columns := cs; tb_selected := tb_selected t;
     tb_iSourceRowIndex := tb_iSourceRowIndex t;
     tb_firstVisibleRow := tb_firstVisibleRow t;
     tb_mResizeHandlerIds := tb_mResizeHandlerIds t;
     tb_cellContextMenu := tb_cellContextMenu t |}.

Definition set_selected (s : gset Z) (t : Table) : Table :=
  {| tb_cfg := tb_cfg t; tb_columns := tb_columns t; tb_selected := s;
     tb_iSourceRowIndex := tb_iSourceRowIndex t;
     tb_firstVisibleRow := tb_firstVisibleRow t;
     tb_mResizeHandlerIds := tb_mResizeHandlerIds t;
     tb_cellContextMenu := tb_cellContextMenu t |}.

Definition set_iSourceRowIndex (i : option Z) (t : Table) : Table :=
  {| tb_cfg := tb_cfg t; tb_columns := tb_columns t; tb_selected := tb_selected t;
     tb_iSourceRowIndex := i;
     tb_firstVisibleRow := tb_firstVisibleRow t;
     tb_mResizeHandlerIds := tb_mResizeHandlerIds t;
     tb_cellContextMenu := tb_cellContextMenu t |}.

Definition set_mResizeHandlerIds (m : option (gmap string (option Handle)))
    (t : Table) : Table :=
  {| tb_cfg := tb_cfg t; tb_columns := tb_columns t; tb_selected := tb_selected t;
     tb_iSourceRowIndex := tb_iSourceRowIndex t;
     tb_firstVisibleRow := tb_firstVisibleRow t;
     tb_mResizeHandlerIds := m;
     tb_cellContextMenu := tb_cellContextMenu t |}.

Definition set_cellContextMenu (m : option CellContextMenu) (t : Table) : Table :=
  {| tb_cfg := tb_cfg t; tb_columns := tb_columns t; tb_selected := tb_selected t;
     tb_iSourceRowIndex := tb_iSourceRowIndex t;
     tb_firstVisibleRow := tb_firstVisibleRow t;
     tb_mResizeHandlerIds := tb_mResizeHandlerIds t;
     tb_cellContextMenu := m |}.

(** *** Accessors of the table that live in Table.js *)

Definition getSelectionMode (t : Table) : SelectionMode := cfg_selectionMode (tb_cfg t).
Definition getSelectionBehavior (t : Table) : SelectionBehavior :=
  cfg_selectionBehavior (tb_cfg t).
Definition _getRowCount (t : Table) : Z := cfg_rowCount (tb_cfg t).
Definition getVisibleRowCount (t : Table) : Z := cfg_visibleRowCount (tb_cfg t).
Definition getFixedRowCount (t : Table) : Z := cfg_fixedRowCount (tb_cfg t).
Definition getFixedBottomRowCount (t : Table) : Z := cfg_fixedBottomRowCount (tb_cfg t).
Definition getFixedColumnCount (t : Table) : Z := cfg_fixedColumnCount (tb_cfg t).
Definition getRows (t : Table) : list Row := cfg_rows (tb_cfg t).
Definition getColumns (t : Table) : list Column := tb_columns t.

(** Modelled from the spec: Table.js is not part of the sources.  The spec
    names the table's "current selected-row index set" with the mutators
    "add/remove selection interval"; the interval [from..to] is added to,
    or removed from, that set. *)
Definition interval (iFrom iTo : Z) : gset Z :=
  list_to_set (seqZ iFrom (iTo - iFrom + 1)).

Definition isIndexSelected (t : Table) (i : Z) : bool := bool_decide (i ∈ tb_selected t).

Definition addSelectionInterval (iFrom iTo : Z) (t : Table) : Table :=
  set_selected (tb_selected t ∪ interval iFrom iTo) t.

Definition removeSelectionInterval (iFrom iTo : Z) (t : Table) : Table :=
  set_selected (tb_selected t ∖ interval iFrom iTo) t.

(** [getSelectedIndices().length]. *)
Definition selectedCount (t : Table) : Z := Z.of_nat (size (tb_selected t)).

(** Modelled from the spec: the table's "first visible row" cursor with
    its mutator "set first-visible-row" (Table.js). *)
Definition setFirstVisibleRow (i : Z) (t : Table) : Table :=
  {| tb_cfg := tb_cfg t; tb_columns := tb_columns t; tb_selected := tb_selected t;
     tb_iSourceRowIndex := tb_iSourceRowIndex t;
     tb_firstVisibleRow := i;
     tb_mResizeHandlerIds := tb_mResizeHandlerIds t;
     tb_cellContextMenu := tb_cellContextMenu t |}.

(** [_getSanitizedFirstVisibleRow()] is the table's own reading of its
    cursor; its body is in Table.js, so the table carries it as a function
    of the stored cursor. *)
Definition _getSanitizedFirstVisibleRow (t : Table) : Z :=
  cfg_sanitize (tb_cfg t) (tb_firstVisibleRow t).

(** ** Selection *)

Definition hasRowHeader (t : Table) : bool :=
  (negb (bool_decide (getSelectionMode t = SelectionMode_None))
   && negb (bool_decide (getSelectionBehavior t = RowOnly)))
  || cfg_groupMode (tb_cfg t).

Definition isRowSelectionAllowed (t : Table) : bool :=
  negb (bool_decide (getSelectionMode t = SelectionMode_None))
  && (bool_decide (getSelectionBehavior t = Row_)
      || bool_decide (getSelectionBehavior t = RowOnly)).

Definition isRowSelectorSelectionAllowed (t : Table) : bool :=
  negb (bool_decide (getSelectionMode t = SelectionMode_None)) && hasRowHeader t.

Definition areAllRowsSelected (r : TableRef) : M bool :=
  match r with
  | null => ret false
  | oTable =>
      t <- getTable ;;
      let iSelectableRowCount := cfg_selectableRowCount (tb_cfg t) in
      ret ((0 <? iSelectableRowCount) && (iSelectableRowCount =? selectedCount t))
  end.

Definition getCellInfo (oCellRef : option DomElem) : option CELLTYPES :=
  match oCellRef with
  | None => None
  | Some e =>
      if hasClass "sapUiTableTd" (el_node e) then Some DATACELL
      else if hasClass "sapUiTableCol" (el_node e) then Some COLUMNHEADER
      else if hasClass "sapUiTableRowHdr" (el_node e) then Some ROWHEADER
      else if hasClass "sapUiTableColRowHdr" (el_node e) then Some COLUMNROWHEADER
      else None
  end.

Definition isInGroupingRow (oCellRef : option DomElem) : bool :=
  match oCellRef, getCellInfo oCellRef with
  | Some e, Some DATACELL =>
      match parent e with
      | Some p => hasClass "sapUiTableGroupHeader" (el_node p)
      | None => false
      end
  | Some e, Some ROWHEADER => hasClass "sapUiTableGroupHeader" (el_node e)
  | _, _ => false
  end.

(** The row indicator of toggleRowSelection: [null], a number, or a jQuery
    object or DOM element, of which [jQuery(oRowIndicator)[0]] is read
    ([None]: the jQuery object is empty). *)
Inductive RowIndicator : Type :=
| Indicator_null
| Indicator_number (i : Z)
| Indicator_element (e : option DomElem).

(** The inner function setSelectionState of toggleRowSelection. *)
Definition setSelectionState (bSelect : option bool) (iAbsoluteRowIndex : Z) : M bool :=
  modifyTable (set_iSourceRowIndex (Some iAbsoluteRowIndex)) ;;;
  t <- getTable ;;
  if isIndexSelected t iAbsoluteRowIndex then
    match bSelect with
    | Some true => ret false
    | _ =>
        modifyTable (removeSelectionInterval iAbsoluteRowIndex iAbsoluteRowIndex) ;;;
        modifyTable (set_iSourceRowIndex None) ;;;
        ret true
    end
  else
    match bSelect with
    | Some false => ret false
    | _ =>
        modifyTable (addSelectionInterval iAbsoluteRowIndex iAbsoluteRowIndex) ;;;
        modifyTable (set_iSourceRowIndex None) ;;;
        ret true
    end.

Definition is_tr (n : DomNode) : bool := bool_decide (node_tag n = "tr").

Definition toggleRowSelection (r : TableRef) (oRowIndicator : RowIndicator)
    (bSelect : option bool) : M bool :=
  match r with
  | null => ret false
  | oTable =>
      t <- getTable ;;
      if negb (cfg_hasBinding (tb_cfg t))
         || bool_decide (getSelectionMode t = SelectionMode_None)
      then ret false
      else
        match oRowIndicator with
        | Indicator_null => ret false
        | Indicator_number i =>
            if (i <? 0) || (_getRowCount t <=? i) then ret false
            else setSelectionState bSelect i
        | Indicator_element cell =>
            match getCellInfo cell with
            | Some ty =>
                if negb (isInGroupingRow cell)
                   && ((bool_decide (ty = DATACELL) && isRowSelectionAllowed t)
                       || (bool_decide (ty = ROWHEADER) && isRowSelectorSelectionAllowed t))
                then
                  let sRowIndex :=
                    if bool_decide (ty = DATACELL) then
                      e ← cell; tr ← closest is_tr e; node_rowindex (el_node tr)
                    else
                      e ← cell; node_rowindex (el_node e) in
                  oRow <- deref (js_index (getRows t) (parseInt sRowIndex)) ;;
                  setSelectionState bSelect (row_index oRow)
                else ret false
            | None => ret false
            end
        end
  end.

(** ** Scrolling *)

Definition getTotalRowCount (t : Table) (bIncludeEmptyRows : bool) : Z :=
  if bIncludeEmptyRows then Z.max (_getRowCount t) (getVisibleRowCount t)
  else _getRowCount t.

Definition getNonEmptyVisibleRowCount (t : Table) : Z :=
  Z.min (getVisibleRowCount t) (_getRowCount t).

Definition scroll (r : TableRef) (bDown bPage : bool) : M bool :=
  match r with
  | null => throw TypeError
  | oTable =>
      t <- getTable ;;
      let iRowCount := _getRowCount t in
      let iVisibleRowCount := getVisibleRowCount t in
      let iScrollableRowCount :=
        iVisibleRowCount - getFixedRowCount t - getFixedBottomRowCount t in
      let iFirstVisibleScrollableRow := _getSanitizedFirstVisibleRow t in
      let iSize := if bPage then iScrollableRowCount else 1 in
      if bDown then
        if iFirstVisibleScrollableRow + iVisibleRowCount <? iRowCount then
          modifyTable
            (setFirstVisibleRow
               (Z.min (iFirstVisibleScrollableRow + iSize) (iRowCount - iVisibleRowCount))) ;;;
          ret true
        else ret false
      else
        if 0 <? iFirstVisibleScrollableRow then
          modifyTable (setFirstVisibleRow (Z.max (iFirstVisibleScrollableRow - iSize) 0)) ;;;
          ret true
        else ret false
  end.

Definition scrollMax (r : TableRef) (bDown : bool) : M bool :=
  match r with
  | null => throw TypeError
  | oTable =>
      t <- getTable ;;
      let iFirstVisibleScrollableRow := _getSanitizedFirstVisibleRow t in
      if bDown then
        let iFirstVisibleRow := _getRowCount t - getNonEmptyVisibleRowCount t in
        if iFirstVisibleScrollableRow <? iFirstVisibleRow then
          modifyTable (setFirstVisibleRow iFirstVisibleRow) ;;;
          ret true
        else ret false
      else
        if 0 <? iFirstVisibleScrollableRow then
          modifyTable (setFirstVisibleRow 0) ;;;
          ret true
        else ret false
  end.

(** ** Resize handler registration *)

(** Modelled from the spec: sap.ui.core.ResizeHandler is not part of the
    sources.  The spec speaks of "a registered resize-listener handle" and
    of "resize-observation registration/deregistration": [register] hands
    out a handle that was never given before and keeps it live for the
    region it was registered for, [deregister] ends it. *)
Definition ResizeHandler_register (sIdSuffix : string) : M Handle :=
  fun w =>
    Ok (w_next w)
       {| w_table := w_table w; w_fired := w_fired w;
          w_live := <[ w_next w := sIdSuffix ]> (w_live w);
          w_next := Pos.succ (w_next w); w_log := w_log w |}.

Definition ResizeHandler_deregister (h : Handle) : M unit :=
  fun w =>
    Ok tt
       {| w_table := w_table w; w_fired := w_fired w;
          w_live := delete h (w_live w);
          w_next := w_next w; w_log := w_log w |}.

(** The argument vIdSuffix of deregisterResizeHandler. *)
Inductive IdSuffixArg : Type :=
| Suffix_string (s : string)
| Suffix_undefined
| Suffix_array (l : list string)
| Suffix_other.

(** The map [_mResizeHandlerIds] with [key] set to [v]; [None] is
    [undefined]. *)
Definition storeHandlerId (key : string) (v : option Handle) (t : Table) : Table :=
  match tb_mResizeHandlerIds t with
  | Some m => set_mResizeHandlerIds (Some (<[ key := v ]> m)) t
  | None => t
  end.

(** [oTable._mResizeHandlerIds[key]], [None] when undefined. *)
Definition handlerIdOf (t : Table) (key : string) : option Handle :=
  m ← tb_mResizeHandlerIds t; v ← m !! key; v.

(** The loop over aIdSuffix in deregisterResizeHandler. *)
Fixpoint deregisterEach (aIdSuffix : list string) : M unit :=
  match aIdSuffix with
  | [] => ret tt
  | sIdSuffix :: rest =>
      t <- getTable ;;
      match handlerIdOf t sIdSuffix with
      | Some h =>
          ResizeHandler_deregister h ;;;
          modifyTable (storeHandlerId sIdSuffix None)
      | None => ret tt
      end ;;;
      deregisterEach rest
  end.

Definition deregisterResizeHandler (vIdSuffix : IdSuffixArg) : M unit :=
  t <- getTable ;;
  match tb_mResizeHandlerIds t with
  | None => ret tt
  | Some m =>
      let aIdSuffix :=
        match vIdSuffix with
        | Suffix_string s => Some [s]
        | Suffix_undefined => Some (map_to_list m).*1
        | Suffix_array l => Some l
        | Suffix_other => None
        end in
      l <- deref aIdSuffix ;;
      deregisterEach l
  end.

(** [sIdSuffix] is [None] when the argument is not a string;
    [fnHandlerIsFunction] is [typeof fnHandler === "function"]. *)
Definition registerResizeHandler (sIdSuffix : option string)
    (fnHandlerIsFunction : bool) (bRegisterParent : bool) : M (option Handle) :=
  t <- getTable ;;
  match sIdSuffix with
  | None => log_error "sIdSuffix must be a string" ;;; ret None
  | Some key =>
      let oDomRef := cfg_domRef (tb_cfg t) key in
      if negb fnHandlerIsFunction then
        log_error "fnHandler must be a function" ;;; ret None
      else
        deregisterResizeHandler (Suffix_string key) ;;;
        t1 <- getTable ;;
        match tb_mResizeHandlerIds t1 with
        | None => modifyTable (set_mResizeHandlerIds (Some ∅))
        | Some _ => ret tt
        end ;;;
        let oDomRef' :=
          match oDomRef with
          | Some hasParent => if bRegisterParent then hasParent else true
          | None => false
          end in
        (if oDomRef' then
           h <- ResizeHandler_register key ;;
           modifyTable (storeHandlerId key (Some h))
         else ret tt) ;;;
        t2 <- getTable ;;
        ret (handlerIdOf t2 key)
  end.

(** ** Column widths and resizing *)

Definition isFixedColumn (t : Table) (iColIdx : Z) : bool :=
  iColIdx <? getFixedColumnCount t.

Definition isVariableWidth (sWidth : CssWidth) : bool :=
  match sWidth with
  | W_empty | W_auto | W_percent _ => true
  | W_px _ => false
  end.

(** Modelled from the spec: Table._CSSSizeToPixel is not part of the
    sources; it "converts the CSS length to pixels via the table's
    unit-conversion service".  Only pixel lengths reach it here. *)
Definition _CSSSizeToPixel (sWidth : CssWidth) : Z :=
  match sWidth with
  | W_px n => n
  | _ => 0
  end.

(** [None] is the result [null]. *)
Definition getColumnWidth (t : option Table) (iColumnIndex : option Z) : option Z :=
  match t, iColumnIndex with
  | Some t, Some i =>
      if i <? 0 then None
      else
        match getColumns t !! Z.to_nat i with
        | None => None
        | Some oColumn =>
            match col_width oColumn with
            | W_px _ => Some (_CSSSizeToPixel (col_width oColumn))
            | _ =>
                if col_visible oColumn then
                  match col_offsetWidth oColumn with
                  | Some w => Some w
                  | None => Some 0
                  end
                else Some 0
            end
        end
  | _, _ => None
  end.

(** A number that may be [null] used in arithmetic: [null] counts as 0. *)
Definition num (v : option Z) : Z := default 0 v.

(** The columns with their index in the columns aggregation
    ([Column.getIndex()]). *)
Definition indexed (cs : list Column) : list (nat * Column) :=
  imap (fun i c => (i, c)) cs.

(** The first loop of resizeColumn: the visible columns from iColumnIndex
    on, until iColumnSpan of them are collected. *)
Fixpoint collectVisible (cs : list (nat * Column)) (pushed iColumnSpan : Z) : list nat :=
  match cs with
  | [] => []
  | (i, c) :: rest =>
      if col_visible c then
        if pushed + 1 =? iColumnSpan then [i]
        else i :: collectVisible rest (pushed + 1) iColumnSpan
      else collectVisible rest pushed iColumnSpan
  end.

Definition isResizable (t : Table) (i : nat) : bool :=
  match getColumns t !! i with
  | Some c => col_resizable c
  | None => false
  end.

Definition widthOf (t : Table) (i : nat) : Z :=
  num (getColumnWidth (Some t) (Some (Z.of_nat i))).

Definition spanWidth (t : Table) (aVisibleColumns : list nat) : Z :=
  foldl (fun acc i => acc + widthOf t i) 0 aVisibleColumns.

Definition setColumn (i : nat) (f : Column -> Column) (t : Table) : Table :=
  set_columns (alter f i (tb_columns t)) t.

Definition with_width (w : CssWidth) (c : Column) : Column :=
  {| col_id := col_id c; col_visible := col_visible c; col_resizable := col_resizable c;
     col_width := w; col_minWidth := col_minWidth c;
     col_offsetWidth := col_offsetWidth c; col_thOffsetWidth := col_thOffsetWidth c;
     col_menuOpen := col_menuOpen c; col_menuHasItems := col_menuHasItems c;
     col_filterableByMenu := col_filterableByMenu c;
     col_cellHidden := col_cellHidden c; col_cellMenu := col_cellMenu c |}.

Definition with_minWidth (m : option Z) (c : Column) : Column :=
  {| col_id := col_id c; col_visible := col_visible c; col_resizable := col_resizable c;
     col_width := col_width c; col_minWidth := m;
     col_offsetWidth := col_offsetWidth c; col_thOffsetWidth := col_thOffsetWidth c;
     col_menuOpen := col_menuOpen c; col_menuHasItems := col_menuHasItems c;
     col_filterableByMenu := col_filterableByMenu c;
     col_cellHidden := col_cellHidden c; col_cellMenu := col_cellMenu c |}.

Definition with_menuOpen (b : bool) (c : Column) : Column :=
  {| col_id := col_id c; col_visible := col_visible c; col_resizable := col_resizable c;
     col_width := col_width c; col_minWidth := col_minWidth c;
     col_offsetWidth := col_offsetWidth c; col_thOffsetWidth := col_thOffsetWidth c;
     col_menuOpen := b; col_menuHasItems := col_menuHasItems c;
     col_filterableByMenu := col_filterableByMenu c;
     col_cellHidden := col_cellHidden c; col_cellMenu := col_cellMenu c |}.

Definition with_cellMenu (hidden : bool) (m : option CellMenu) (c : Column) : Column :=
  {| col_id := col_id c; col_visible := col_visible c; col_resizable := col_resizable c;
     col_width := col_width c; col_minWidth := col_minWidth c;
     col_offsetWidth := col_offsetWidth c; col_thOffsetWidth := col_thOffsetWidth c;
     col_menuOpen := col_menuOpen c; col_menuHasItems := col_menuHasItems c;
     col_filterableByMenu := col_filterableByMenu c;
     col_cellHidden := hidden; col_cellMenu := m |}.

(** "Fix Auto Columns": every visible column of variable width outside
    aResizableColumns whose th element is found gets its rendered width,
    at least the minimum column width, as [_minWidth]. *)
Definition pinMinWidth (E : Env) (bTableElement : bool) (aResizableColumns : list nat)
    (i : nat) (col : Column) : Column :=
  if col_visible col && bTableElement
     && negb (bool_decide (i ∈ aResizableColumns))
     && isVariableWidth (col_width col)
  then
    match col_thOffsetWidth col with
    | Some offsetWidth =>
        with_minWidth (Some (Z.max offsetWidth (env_minColumnWidth E))) col
    | None => col
    end
  else col.

Definition fixAutoColumns (E : Env) (aResizableColumns : list nat) (t : Table) : Table :=
  set_columns
    (imap (pinMinWidth E (cfg_rendered (tb_cfg t)) aResizableColumns) (tb_columns t)) t.

(** The last loop of resizeColumn, over the resizable columns that are
    left; [length rest] is iRemainingColumnCount. *)
Fixpoint resizeColumns (E : Env) (bFireEvent : bool) (aResizableColumns : list nat)
    (iPixelDelta iSharedPixelDelta : Z) (bResizeWasPerformed : bool) : M bool :=
  match aResizableColumns with
  | [] => ret bResizeWasPerformed
  | oResizableColumn :: rest =>
      t <- getTable ;;
      let iColumnWidth := widthOf t oResizableColumn in
      let iColMinWidth := env_minColumnWidth E in
      let iNewWidth :=
        if iColumnWidth + iSharedPixelDelta <? iColMinWidth then iColMinWidth
        else iColumnWidth + iSharedPixelDelta in
      let iWidthChange := iNewWidth - iColumnWidth in
      let redistribute := Z.abs iWidthChange <? Z.abs iSharedPixelDelta in
      let iPixelDelta' :=
        if redistribute then iPixelDelta - iWidthChange else iPixelDelta in
      let iSharedPixelDelta' :=
        if redistribute then Math_round_div iPixelDelta' (Z.of_nat (length rest))
        else iSharedPixelDelta in
      bPerformed <-
        (if iWidthChange =? 0 then ret bResizeWasPerformed
         else
           bExecuteDefault <-
             (if bFireEvent then fire E (ColumnResize oResizableColumn iNewWidth)
              else ret true) ;;
           if bExecuteDefault then
             modifyTable (setColumn oResizableColumn (with_width (W_px iNewWidth))) ;;;
             ret true
           else ret bResizeWasPerformed) ;;
      resizeColumns E bFireEvent rest iPixelDelta' iSharedPixelDelta' bPerformed
  end.

(** [None] for an argument is [null] or [undefined]. *)
Definition resizeColumn (E : Env) (r : TableRef) (iColumnIndex iWidth : option Z)
    (bFireEvent : option bool) (iColumnSpan : option Z) : M bool :=
  match r, iColumnIndex, iWidth with
  | oTable, Some iColumnIndex, Some iWidth =>
      if (iColumnIndex <? 0) || (iWidth <=? 0) then ret false
      else
        let iColumnSpan :=
          match iColumnSpan with
          | Some s => if s <=? 0 then 1 else s
          | None => 1
          end in
        let bFireEvent := default true bFireEvent in
        t <- getTable ;;
        let aColumns := getColumns t in
        match aColumns !! Z.to_nat iColumnIndex with
        | None => ret false
        | Some oColumn =>
            if negb (col_visible oColumn) then ret false
            else
              let aVisibleColumns :=
                collectVisible (drop (Z.to_nat iColumnIndex) (indexed aColumns))
                  0 iColumnSpan in
              let aResizableColumns := filter (fun i => isResizable t i) aVisibleColumns in
              if bool_decide (aResizableColumns = []) then ret false
              else
                let iSpanWidth := spanWidth t aVisibleColumns in
                let iPixelDelta := iWidth - iSpanWidth in
                let iSharedPixelDelta :=
                  Math_round_div iPixelDelta (Z.of_nat (length aResizableColumns)) in
                (if negb (isFixedColumn t iColumnIndex) then
                   modifyTable (fixAutoColumns E aResizableColumns)
                 else ret tt) ;;;
                resizeColumns E bFireEvent aResizableColumns iPixelDelta
                  iSharedPixelDelta false
        end
  | _, _, _ => ret false
  end.

(** ** Context menus *)

Definition getColumnHeaderCellInfo (oCell : option DomElem) : option (JsInt * JsInt) :=
  match oCell with
  | None => None
  | Some e =>
      match getCellInfo oCell with
      | Some COLUMNHEADER =>
          Some (parseInt (node_colindex (el_node e)),
                match node_colspan (el_node e) with
                | Some (String c s) => parseInt_string (String c s)
                | _ => Int 1
                end)
      | _ => None
      end
  end.

Definition getParentDataCell (r : TableRef) (oElement : option DomElem) : option DomElem :=
  match r, oElement with
  | oTable, Some e => p ← parent e; closest (hasClass "sapUiTableTd") p
  | _, _ => None
  end.

Definition getCell (r : TableRef) (oElement : option DomElem) : option DomElem :=
  match r, oElement with
  | oTable, Some e =>
      match closest (hasClass "sapUiTableTd") e with
      | Some c => Some c
      | None =>
          match closest (hasClass "sapUiTableCol") e with
          | Some c => Some c
          | None =>
              match closest (hasClass "sapUiTableRowHdr") e with
              | Some c => Some c
              | None => closest (hasClass "sapUiTableColRowHdr") e
              end
          end
      end
  | _, _ => None
  end.

(** The guards shared by the column functions: [None] stands for "return",
    otherwise the column [oColumns[iColumnIndex]], which is [undefined]
    for a [NaN] index. *)
Definition columnAt (t : Table) (iColumnIndex : option JsInt) : option (option (nat * Column)) :=
  match iColumnIndex with
  | None => None
  | Some i =>
      if js_ltb0 i then None
      else if js_geb i (Z.of_nat (length (getColumns t))) then None
      else Some (match i with
                 | Int z => c ← getColumns t !! Z.to_nat z; Some (Z.to_nat z, c)
                 | NaN => None
                 end)
  end.

(** Modelled from the spec: Column.js and sap.ui.unified.Menu are not part
    of the sources; a column's menu is open or closed, [close] is an
    "idempotent close; no-op if not open". *)
Definition closeColumnContextMenu (r : TableRef) (iColumnIndex : option JsInt) : M unit :=
  match r with
  | null => ret tt
  | oTable =>
      t <- getTable ;;
      match columnAt t iColumnIndex with
      | None => ret tt
      | Some oColumn =>
          ic <- deref oColumn ;;
          modifyTable (setColumn ic.1 (with_menuOpen false))
      end
  end.

Fixpoint closeOtherColumnMenus (indices : list nat) (iOpen : nat) : M unit :=
  match indices with
  | [] => ret tt
  | i :: rest =>
      (if bool_decide (i = iOpen) then ret tt
       else closeColumnContextMenu oTable (Some (Int (Z.of_nat i)))) ;;;
      closeOtherColumnMenus rest iOpen
  end.

Definition openColumnContextMenu (r : TableRef) (iColumnIndex : option JsInt)
    (bHoverFirstMenuItem : option bool) : M unit :=
  match r with
  | null => ret tt
  | oTable =>
      t <- getTable ;;
      match columnAt t iColumnIndex with
      | None => ret tt
      | Some oColumn =>
          ic <- deref oColumn ;;
          if negb (col_visible ic.2) then ret tt
          else
            closeOtherColumnMenus (seq 0 (length (getColumns t))) ic.1 ;;;
            modifyTable (setColumn ic.1 (with_menuOpen true))
      end
  end.

Definition closeDataCellContextMenu (r : TableRef) : M unit :=
  match r with
  | null => ret tt
  | oTable =>
      t <- getTable ;;
      match tb_cellContextMenu t with
      | Some oMenu =>
          if ccm_open oMenu then
            modifyTable
              (set_cellContextMenu
                 (Some {| ccm_open := false; ccm_opener := ccm_opener oMenu;
                          ccm_filter := ccm_filter oMenu; ccm_hover := ccm_hover oMenu |}))
          else ret tt
      | None => ret tt
      end
  end.

Definition openDataCellContextMenu (r : TableRef) (iColumnIndex iRowIndex : option JsInt)
    (bHoverFirstMenuItem : option bool) : M unit :=
  match r, iRowIndex with
  | oTable, Some iRow =>
      t <- getTable ;;
      if js_ltb0 iRow || js_geb iRow (getNonEmptyVisibleRowCount t) then ret tt
      else
        let bHover := default false bHoverFirstMenuItem in
        match columnAt t iColumnIndex with
        | None => ret tt
        | Some oColumn =>
            ic <- deref oColumn ;;
            if negb (col_visible ic.2) then ret tt
            else if cfg_enableCellFilter (tb_cfg t) && col_filterableByMenu ic.2 then
              let oRow := js_index (getRows t) iRow in
              (* the menu is created, or its filter item is bound anew *)
              match tb_cellContextMenu t with
              | None =>
                  modifyTable
                    (set_cellContextMenu
                       (Some {| ccm_open := false; ccm_opener := None;
                                ccm_filter := None; ccm_hover := false |}))
              | Some m => deref (ccm_filter m) ;;; ret tt
              end ;;;
              row <- deref oRow ;;
              t1 <- getTable ;;
              m <- deref (tb_cellContextMenu t1) ;;
              let oMenu :=
                {| ccm_open := ccm_open m; ccm_opener := ccm_opener m;
                   ccm_filter := Some (ic.1, row_index row); ccm_hover := ccm_hover m |} in
              modifyTable (set_cellContextMenu (Some oMenu)) ;;;
              oCell <- deref (row_cells row !! ic.1) ;;
              let cell := getParentDataCell oTable (cell_dom oCell) in
              match cell with
              | Some eCell =>
                  if negb (isInGroupingRow cell) then
                    (if ccm_open oMenu && negb (bool_decide (ccm_opener oMenu = Some eCell))
                     then closeDataCellContextMenu oTable else ret tt) ;;;
                    modifyTable
                      (set_cellContextMenu
                         (Some {| ccm_open := true; ccm_opener := Some eCell;
                                  ccm_filter := Some (ic.1, row_index row);
                                  ccm_hover := bHover |}))
                  else ret tt
              | None => ret tt
              end
            else ret tt
        end
  | _, _ => ret tt
  end.

(** The header cell of a column is rendered when the column has a DOM
    reference. *)
Definition isRendered (c : Column) : bool :=
  match col_offsetWidth c with
  | Some _ => true
  | None => false
  end.

Definition applyColumnHeaderCellMenu (r : TableRef) (iColumnIndex : option JsInt) : M unit :=
  match r with
  | null => ret tt
  | oTable =>
      t <- getTable ;;
      match columnAt t iColumnIndex with
      | None => ret tt
      | Some oColumn =>
          ic <- deref oColumn ;;
          let c := ic.2 in
          if col_visible c && (col_resizable c || col_menuHasItems c) then
            match col_cellMenu c with
            | Some _ => ret tt
            | None =>
                if isRendered c then
                  modifyTable
                    (setColumn ic.1
                       (with_cellMenu true
                          (Some {| cm_dropDown := col_menuHasItems c;
                                   cm_resizer := col_resizable c |})))
                else ret tt
            end
          else ret tt
      end
  end.

Definition removeColumnHeaderCellMenu (r : TableRef) (iColumnIndex : option JsInt) : M unit :=
  match r with
  | null => ret tt
  | oTable =>
      t <- getTable ;;
      match columnAt t iColumnIndex with
      | None => ret tt
      | Some oColumn =>
          ic <- deref oColumn ;;
          match col_cellMenu ic.2 with
          | Some _ => modifyTable (setColumn ic.1 (with_cellMenu false None))
          | None => ret tt
          end
      end
  end.

(** [_getVisibleColumns()[i]], as an index into the columns aggregation. *)
Definition visibleColumnAt (t : Table) (i : JsInt) : option nat :=
  js_index (filter (fun k => bool_decide (col_visible <$> getColumns t !! k = Some true))
              (seq 0 (length (getColumns t)))) i.

(** [$TableCell.find(".sapUiTableColDropDown").length > 0]: the header
    cell with column index i is the DOM reference of column i, whose
    overlay holds the drop-down button. *)
Definition cellHasMenuButton (t : Table) (i : JsInt) : bool :=
  match js_index (getColumns t) i with
  | Some c =>
      match col_cellMenu c with
      | Some m => cm_dropDown m
      | None => false
      end
  | None => false
  end.

Definition openContextMenu (E : Env) (r : TableRef) (oElement : option DomElem)
    (bHoverFirstMenuItem : option bool) (bFireEvent : option bool) : M unit :=
  match r, oElement with
  | oTable, Some _ =>
      let bFireEvent := default true bFireEvent in
      match getCell oTable oElement with
      | None => ret tt
      | Some eTableCell =>
          match getCellInfo (Some eTableCell) with
          | Some COLUMNHEADER =>
              info <- deref (getColumnHeaderCellInfo (Some eTableCell)) ;;
              let iColumnIndex := info.1 in
              t <- getTable ;;
              let bCellHasMenuButton := cellHasMenuButton t iColumnIndex in
              if env_desktop E || bCellHasMenuButton then
                removeColumnHeaderCellMenu oTable (Some iColumnIndex) ;;;
                t1 <- getTable ;;
                bExecuteDefault <-
                  (if bFireEvent then fire E (ColumnSelect (visibleColumnAt t1 iColumnIndex))
                   else ret true) ;;
                if bExecuteDefault then
                  openColumnContextMenu oTable (Some iColumnIndex) bHoverFirstMenuItem
                else ret tt
              else applyColumnHeaderCellMenu oTable (Some iColumnIndex)
          | Some DATACELL =>
              let aCellIdAreas := split_dash (node_id (el_node eTableCell)) in
              sRow <- deref (aCellIdAreas !! 2%nat) ;;
              let iRowIndex := parseInt_string (slice_from 3 sRow) in
              sCol <- deref (aCellIdAreas !! 3%nat) ;;
              let iColumnIndex := parseInt_string (slice_from 3 sCol) in
              t <- getTable ;;
              bExecuteDefault <-
                (if bFireEvent then
                   let oColumn := js_index (getColumns t) iColumnIndex in
                   oRow <- deref (js_index (getRows t) iRowIndex) ;;
                   let oCell := js_index (row_cells oRow) iColumnIndex in
                   column <- deref oColumn ;;
                   fire E (CellContextmenu (row_index oRow) iColumnIndex (col_id column)
                             oCell (cfg_hasBindingInfo (tb_cfg t)) (el_node eTableCell))
                 else ret true) ;;
              if bExecuteDefault then
                openDataCellContextMenu oTable (Some iColumnIndex) (Some iRowIndex)
                  bHoverFirstMenuItem
              else ret tt
          | _ => ret tt
          end
      end
  | _, _ => ret tt
  end.

(** ** Outcomes and traces *)

(** The world a call leaves behind, whether it returned or threw. *)
Definition final {A : Type} (o : Outcome A) : World :=
  match o with
  | Ok _ w => w
  | Throw _ w => w
  end.

Definition with_domRef (f : string -> option bool) (t : Table) : Table :=
  let c := tb_cfg t in
  {| tb_cfg :=
       {| cfg_selectionMode := cfg_selectionMode c;
          cfg_selectionBehavior := cfg_selectionBehavior c;
          cfg_groupMode := cfg_groupMode c; cfg_hasBinding := cfg_hasBinding c;
          cfg_hasBindingInfo := cfg_hasBindingInfo c; cfg_rowCount := cfg_rowCount c;
          cfg_selectableRowCount := cfg_selectableRowCount c;
          cfg_visibleRowCount := cfg_visibleRowCount c;
          cfg_fixedRowCount := cfg_fixedRowCount c;
          cfg_fixedBottomRowCount := cfg_fixedBottomRowCount c;
          cfg_fixedColumnCount := cfg_fixedColumnCount c;
          cfg_rendered := cfg_rendered c; cfg_enableCellFilter := cfg_enableCellFilter c;
          cfg_rows := cfg_rows c; cfg_sanitize := cfg_sanitize c; cfg_domRef := f |};
     tb_columns := tb_columns t; tb_selected := tb_selected t;
     tb_iSourceRowIndex := tb_iSourceRowIndex t;
     tb_firstVisibleRow := tb_firstVisibleRow t;
     tb_mResizeHandlerIds := tb_mResizeHandlerIds t;
     tb_cellContextMenu := tb_cellContextMenu t |}.

(** A call on the registration map, or a rendering that changes which
    regions of the table exist in the DOM. *)
Inductive RegistryOp : Type :=
| Op_register (sIdSuffix : option string) (fnHandlerIsFunction bRegisterParent : bool)
| Op_deregister (vIdSuffix : IdSuffixArg)
| Op_render (domRef : string -> option bool).

Definition run_op (op : RegistryOp) (w : World) : World :=
  match op with
  | Op_register s f p => final (registerResizeHandler s f p w)
  | Op_deregister v => final (deregisterResizeHandler v w)
  | Op_render f => with_table (with_domRef f (w_table w)) w
  end.

Definition run_ops (ops : list RegistryOp) (w : World) : World :=
  foldl (fun w op => run_op op w) w ops.

(** The registration map and the registry agree: a handle is live for a
    region exactly when the map stores it under that region's suffix, and
    no live handle will be handed out again. *)
Definition registry_consistent (w : World) : Prop :=
  (forall (h : Handle) (key : string),
      w_live w !! h = Some key <-> handlerIdOf (w_table w) key = Some h)
  /\ (forall h : Handle, is_Some (w_live w !! h) -> (h < w_next w)%positive).

(** ** What a caller can observe of the table *)

Definition widths (t : Table) : list CssWidth := col_width <$> tb_columns t.

Definition column_menus (t : Table) : list bool := col_menuOpen <$> tb_columns t.

Definition overlays (t : Table) : list (bool * option CellMenu) :=
  (fun c => (col_cellHidden c, col_cellMenu c)) <$> tb_columns t.

Definition minWidths (t : Table) : list (option Z) := col_minWidth <$> tb_columns t.

(** Widths, selection and the open or closed state of the column menus and
    of the data cell menu. *)
Definition same_core (w w' : World) : Prop :=
  widths (w_table w') = widths (w_table w)
  /\ tb_selected (w_table w') = tb_selected (w_table w)
  /\ column_menus (w_table w') = column_menus (w_table w)
  /\ tb_cellContextMenu (w_table w') = tb_cellContextMenu (w_table w).

(** Between two column lists: the same columns, and every width either
    kept or replaced by a pixel width of at least the minimum. *)
Definition widths_kept_or_above (iMin : Z) (cs cs' : list Column) : Prop :=
  length cs' = length cs
  /\ forall (k : nat) (c c' : Column),
       cs !! k = Some c -> cs' !! k = Some c' ->
       col_width c' = col_width c
       \/ exists n, col_width c' = W_px n /\ iMin <= n.

(** ** Example tables *)

Definition column (sWidth : CssWidth) : Column :=
  {| col_id := "col"; col_visible := true; col_resizable := true; col_width := sWidth;
     col_minWidth := None; col_offsetWidth := Some 100; col_thOffsetWidth := Some 100;
     col_menuOpen := false; col_menuHasItems := true; col_filterableByMenu := false;
     col_cellHidden := false; col_cellMenu := None |}.

Definition config (mode : SelectionMode) (iRowCount iVisibleRowCount iFixed iFixedBottom : Z)
    : TableConfig :=
  {| cfg_selectionMode := mode; cfg_selectionBehavior := RowSelector;
     cfg_groupMode := false; cfg_hasBinding := true; cfg_hasBindingInfo := true;
     cfg_rowCount := iRowCount; cfg_selectableRowCount := iRowCount;
     cfg_visibleRowCount := iVisibleRowCount;
     cfg_fixedRowCount := iFixed; cfg_fixedBottomRowCount := iFixedBottom;
     cfg_fixedColumnCount := 0;
     cfg_rendered := true; cfg_enableCellFilter := false; cfg_rows := [];
     cfg_sanitize := fun i => i; cfg_domRef := fun _ => Some true |}.

Definition table (c : TableConfig) (cs : list Column) (sel : gset Z) (iFirst : Z) : Table :=
  {| tb_cfg := c; tb_columns := cs; tb_selected := sel; tb_iSourceRowIndex := None;
     tb_firstVisibleRow := iFirst; tb_mResizeHandlerIds := None;
     tb_cellContextMenu := None |}.

Definition world (t : Table) : World :=
  {| w_table := t; w_fired := []; w_live := ∅; w_next := 1%positive; w_log := [] |}.

Definition env (bDesktop : bool) (bExecuteDefault : bool) : Env :=
  {| env_desktop := bDesktop; env_minColumnWidth := 48;
     env_handler := fun _ _ => bExecuteDefault |}.

(** Ten rows, two visible, of which two are fixed at the top and one at
    the bottom; the cursor is at the top. *)
Definition world_fixed_rows : World :=
  world (table (config MultiToggle 10 2 2 1) [] ∅ 0).

(** Ten rows, five visible, the cursor at row 7. *)
Definition world_cursor_7 : World :=
  world (table (config MultiToggle 10 5 0 0) [] ∅ 7).

(** Ten rows, five visible, the stored cursor at row 7, and a table that
    reads its cursor clamped to [0, max(rowCount - visibleRowCount, 0)]. *)
Definition world_cursor_7_clamped : World :=
  world
    {| tb_cfg :=
         {| cfg_selectionMode := MultiToggle; cfg_selectionBehavior := RowSelector;
            cfg_groupMode := false; cfg_hasBinding := true; cfg_hasBindingInfo := true;
            cfg_rowCount := 10; cfg_selectableRowCount := 10; cfg_visibleRowCount := 5;
            cfg_fixedRowCount := 0; cfg_fixedBottomRowCount := 0;
            cfg_fixedColumnCount := 0; cfg_rendered := true;
            cfg_enableCellFilter := false; cfg_rows := [];
            cfg_sanitize := fun i => Z.max 0 (Z.min i (Z.max (10 - 5) 0));
            cfg_domRef := fun _ => Some true |};
       tb_columns := []; tb_selected := ∅; tb_iSourceRowIndex := None;
       tb_firstVisibleRow := 7; tb_mResizeHandlerIds := None;
       tb_cellContextMenu := None |}.

(** Ten rows, five visible, the cursor at the top. *)
Definition world_cursor_0 : World :=
  world (table (config MultiToggle 10 5 0 0) [] ∅ 0).

(** One resizable column of 100px. *)
Definition world_one_column : World :=
  world (table (config MultiToggle 10 5 0 0) [column (W_px 100)] ∅ 0).

(** Ten rows, five visible, the cursor at row 2. *)
Definition world_cursor_2 : World :=
  world (table (config MultiToggle 10 5 0 0) [] ∅ 2).

(** Two resizable columns of 100px each. *)
Definition world_two_columns : World :=
  world (table (config MultiToggle 10 5 0 0) [column (W_px 100); column (W_px 100)] ∅ 0).

(** Selection mode None, two selectable rows, both selected. *)
Definition world_none_selected : World :=
  world
    {| tb_cfg :=
         {| cfg_selectionMode := SelectionMode_None; cfg_selectionBehavior := RowSelector;
            cfg_groupMode := false; cfg_hasBinding := true; cfg_hasBindingInfo := true;
            cfg_rowCount := 2; cfg_selectableRowCount := 2; cfg_visibleRowCount := 5;
            cfg_fixedRowCount := 0; cfg_fixedBottomRowCount := 0;
            cfg_fixedColumnCount := 0; cfg_rendered := true;
            cfg_enableCellFilter := false; cfg_rows := [];
            cfg_sanitize := fun i => i; cfg_domRef := fun _ => Some true |};
       tb_columns := []; tb_selected := {[ 0; 1 ]}; tb_iSourceRowIndex := None;
       tb_firstVisibleRow := 0; tb_mResizeHandlerIds := None;
       tb_cellContextMenu := None |}.

(** A column whose header cell carries the two-button overlay, on a touch
    device, and the header cell element of that column. *)
Definition column_with_overlay : Column :=
  with_cellMenu true (Some {| cm_dropDown := true; cm_resizer := true |}) (column (W_px 100)).

Definition world_overlay : World :=
  world (table (config MultiToggle 10 5 0 0) [column_with_overlay] ∅ 0).

(** A rendered row: the data cell of row 0 and column 0, the row it is in,
    and the control inside the cell; the row shows the record with the
    absolute index 3. *)
Definition data_row_tr : DomNode :=
  {| node_tag := "tr"; node_id := "table-rows-row0"; node_classes := ["sapUiTableTr"];
     node_rowindex := Some "0"; node_colindex := None; node_colspan := None |}.

Definition data_cell_td : DomNode :=
  {| node_tag := "td"; node_id := "table-rows-row0-col0"; node_classes := ["sapUiTableTd"];
     node_rowindex := None; node_colindex := None; node_colspan := None |}.

Definition data_cell : DomElem :=
  {| el_node := data_cell_td; el_ancestors := [data_row_tr] |}.

Definition cell_control : DomElem :=
  {| el_node :=
       {| node_tag := "span"; node_id := "text-col0-row0"; node_classes := [];
          node_rowindex := None; node_colindex := None; node_colspan := None |};
     el_ancestors := [data_cell_td; data_row_tr] |}.

Definition world_cells (behavior : SelectionBehavior) : World :=
  world
    {| tb_cfg :=
         {| cfg_selectionMode := MultiToggle; cfg_selectionBehavior := behavior;
            cfg_groupMode := false; cfg_hasBinding := true; cfg_hasBindingInfo := true;
            cfg_rowCount := 10; cfg_selectableRowCount := 10; cfg_visibleRowCount := 5;
            cfg_fixedRowCount := 0; cfg_fixedBottomRowCount := 0;
            cfg_fixedColumnCount := 0; cfg_rendered := true;
            cfg_enableCellFilter := true;
            cfg_rows :=
              [{| row_index := 3;
                  row_cells := [{| cell_colid := "col"; cell_dom := Some cell_control |}] |}];
            cfg_sanitize := fun i => i; cfg_domRef := fun _ => Some true |};
       tb_columns :=
         [{| col_id := "col"; col_visible := true; col_resizable := true;
             col_width := W_px 100; col_minWidth := None; col_offsetWidth := Some 100;
             col_thOffsetWidth := Some 100; col_menuOpen := false;
             col_menuHasItems := true; col_filterableByMenu := true;
             col_cellHidden := false; col_cellMenu := None |}];
       tb_selected := ∅; tb_iSourceRowIndex := None;
       tb_firstVisibleRow := 3; tb_mResizeHandlerIds := None;
       tb_cellContextMenu := None |}.

(** A pixel column and a flexible column, both rendered 100px wide. *)
Definition world_flexible : World :=
  world (table (config MultiToggle 10 5 0 0) [column (W_px 100); column W_auto] ∅ 0).

Definition header_cell : DomElem :=
  {| el_node :=
       {| node_tag := "td"; node_id := "col"; node_classes := ["sapUiTableCol"];
          node_rowindex := None; node_colindex := Some "0"; node_colspan := None |};
     el_ancestors := [] |}.


(** * Further parts of TableUtils *)

(** ** Rows of the scrollable area *)

(** [$Ref.add($Ref.parent()).filter("[data-sap-ui-rowindex]")
    .data("sap-ui-rowindex")]: the set is in document order, the parent
    first; the attribute is read from the first element that has it. *)
Definition rowIndexOf (oRef : option DomElem) : option string :=
  match oRef with
  | None => None
  | Some e =>
      let candidates :=
        match parent e with
        | Some p => [el_node p; el_node e]
        | None => [el_node e]
        end in
      n ← head (filter (fun n => is_Some (node_rowindex n)) candidates);
      node_rowindex n
  end.

(** [iRowIndex == n] for a possibly-[NaN] index. *)
Definition js_eqb (i : JsInt) (n : Z) : bool :=
  match i with
  | Int z => z =? n
  | NaN => false
  end.

Definition isFirstScrollableRow (t : Table) (oRef : option DomElem) : bool :=
  let iRowIndex := parseInt (rowIndexOf oRef) in
  let iFixed := getFixedRowCount t in
  js_eqb iRowIndex iFixed.

Definition isLastScrollableRow (t : Table) (oRef : option DomElem) : bool :=
  let iRowIndex := parseInt (rowIndexOf oRef) in
  let iFixed := getFixedBottomRowCount t in
  js_eqb iRowIndex (getVisibleRowCount t - iFixed - 1).

(** ** Row, column and cell of a position *)

(** The result of getRowColCell; a column is given with its index in the
    columns aggregation. *)
Record RowColCell : Type := {
  rcc_row : option Row;
  rcc_column : option (nat * Column);
  rcc_cell : option Cell
}.

(** The rescue scan of getRowColCell: the first cell of the row that
    carries the id of the column. *)
Fixpoint findCellOfColumn (sColumnId : string) (aCells : list Cell) : option Cell :=
  match aCells with
  | [] => None
  | c :: rest =>
      if bool_decide (cell_colid c = sColumnId) then Some c
      else findCellOfColumn sColumnId rest
  end.

Definition getRowColCell (iRowIdx iColIdx : JsInt) : M RowColCell :=
  t <- getTable ;;
  let oRow := js_index (getRows t) iRowIdx in
  let oColumn :=
    k ← visibleColumnAt t iColIdx; c ← getColumns t !! k; Some (k, c) in
  let oCell := r ← oRow; js_index (row_cells r) iColIdx in
  match oCell, oRow with
  | Some cell, Some row =>
      kc <- deref oColumn ;;
      if negb (bool_decide (cell_colid cell = col_id kc.2)) then
        ret {| rcc_row := oRow; rcc_column := oColumn;
               rcc_cell :=
                 match findCellOfColumn (col_id kc.2) (row_cells row) with
                 | Some found => Some found
                 | None => Some cell
                 end |}
      else ret {| rcc_row := oRow; rcc_column := oColumn; rcc_cell := oCell |}
  | _, _ => ret {| rcc_row := oRow; rcc_column := oColumn; rcc_cell := oCell |}
  end.

(** ** Content density *)

Definition aContentDensityStyleClasses : list string :=
  ["sapUiSizeCompact"; "sapUiSizeCondensed"; "sapUiSizeCozy"].

(** The inner function fnGetContentDensity: [has] is the method
    [oObject[sFnName]], [None] when the object has no such method. *)
Definition fnGetContentDensity (has : option (string -> bool)) : option string :=
  match has with
  | None => None
  | Some f => head (filter (fun c => f c = true) aContentDensityStyleClasses)
  end.

(** How an ancestor of the control gives access to its DOM. *)
Inductive DomAccess : Type :=
| ByGetDomRef (oDomRef : option DomElem)
| ByGetRootNode (oRootNode : option DomElem)
| NoDomAccess.

(** An ancestor in the control tree: a control, an element or a UIArea. *)
Record Ancestor : Type := {
  anc_styleClasses : option (list string);   (* None: no method hasStyleClass *)
  anc_dom : DomAccess;
  anc_hasGetParent : bool
}.

(** The control whose density is asked for, with its ancestors in the
    control tree, the nearest first; [getParent()] of the last one is
    null. *)
Record DensityControl : Type := {
  ctl_dom : option DomElem;            (* oControl.$() *)
  ctl_styleClasses : list string;      (* custom style classes of the control *)
  ctl_ancestors : list Ancestor
}.

Definition hasStyleClassOf (classes : list string) (c : string) : bool :=
  bool_decide (c ∈ classes).

Definition ancestorDomRef (a : Ancestor) : option DomElem :=
  match anc_dom a with
  | ByGetDomRef d => d
  | ByGetRootNode d => d
  | NoDomAccess => None
  end.

(** The do-while loop over the parents: either a style class was found at
    control level, or the loop ended with the DOM reference of a parent
    (or with none). *)
Fixpoint walkParents (aParents : list Ancestor) : string + option DomElem :=
  match aParents with
  | [] => inr None
  | oParent :: rest =>
      match fnGetContentDensity (hasStyleClassOf <$> anc_styleClasses oParent) with
      | Some sContentDensity => inl sContentDensity
      | None =>
          match ancestorDomRef oParent with
          | Some oParentDomRef => inr (Some oParentDomRef)
          | None => if anc_hasGetParent oParent then walkParents rest else inr None
          end
      end
  end.

Definition hasDensityClass (n : DomNode) : bool :=
  hasClass "sapUiSizeCompact" n || hasClass "sapUiSizeCondensed" n
  || hasClass "sapUiSizeCozy" n.

(** [body] is document.body with its ancestors. *)
Definition getContentDensity (body : DomElem) (oControl : DensityControl) : option string :=
  let sOwn :=
    match ctl_dom oControl with
    | Some eDomRef => fnGetContentDensity (Some (fun c => hasClass c (el_node eDomRef)))
    | None => fnGetContentDensity (Some (hasStyleClassOf (ctl_styleClasses oControl)))
    end in
  match sOwn with
  | Some sContentDensity => Some sContentDensity
  | None =>
      match walkParents (ctl_ancestors oControl) with
      | inl sContentDensity => Some sContentDensity
      | inr oParentDomRef =>
          match closest hasDensityClass (default body oParentDomRef) with
          | Some eClosest =>
              fnGetContentDensity (Some (fun c => hasClass c (el_node eClosest)))
          | None => None
          end
      end
  end.

(** ** Frames *)

(** Only the columns of the table differ between the two worlds. *)
Definition only_columns_changed (w w' : World) : Prop :=
  w' = with_table (set_columns (tb_columns (w_table w')) (w_table w)) w.

(** ** Further examples *)

(** A control that is not rendered, with the condensed and the cozy class,
    below a parent with the compact class. *)
Definition density_example : DensityControl :=
  {| ctl_dom := None;
     ctl_styleClasses := ["sapUiSizeCozy"; "sapUiSizeCondensed"];
     ctl_ancestors :=
       [{| anc_styleClasses := Some ["sapUiSizeCompact"];
           anc_dom := ByGetDomRef None; anc_hasGetParent := true |}] |}.

Definition body_example : DomElem :=
  {| el_node :=
       {| node_tag := "body"; node_id := "body"; node_classes := [];
          node_rowindex := None; node_colindex := None; node_colspan := None |};
     el_ancestors := [] |}.

(** * Properties *)

(** Unfolds the monadic plumbing of a call. *)
Ltac run :=
  unfold bind, ret, throw, getTable, modifyTable, deref, fire, with_table; simpl.

(** ** Scrolling *)

(** The example of the specification: ten rows, five visible, no fixed
    rows; a page down moves the cursor from 0 to 5, a second one does not
    move it. *)
Example scroll_page_down_twice :
  exists w1,
    scroll oTable true true world_cursor_0 = Ok true w1
    /\ tb_firstVisibleRow (w_table w1) = 5
    /\ scroll oTable true true w1 = Ok false w1.
Proof. eexists. split; [vm_compute; reflexivity|]. split; reflexivity. Qed.

Lemma scroll_world_fixed_rows :
  scroll oTable true true world_fixed_rows
  = Ok true (with_table (setFirstVisibleRow (-1) (w_table world_fixed_rows)) world_fixed_rows).
Proof. reflexivity. Qed.

(** C3, as stated, fails: with two fixed top rows and one fixed bottom row
    among two visible rows the page size is -1, and a page down from the
    in-bounds cursor 0 of a ten-row table writes the cursor -1. *)
Lemma scroll_page_negative_size_counterexample :
  let t := w_table world_fixed_rows in
  _getSanitizedFirstVisibleRow t = tb_firstVisibleRow t
  /\ 0 <= tb_firstVisibleRow t <= _getRowCount t - getVisibleRowCount t
  /\ exists w',
      scroll oTable true true world_fixed_rows = Ok true w'
      /\ tb_firstVisibleRow (w_table w') = -1
      /\ ~ (0 <= tb_firstVisibleRow (w_table w')
              <= _getRowCount t - getVisibleRowCount t).
Proof.
  cbv zeta. split; [reflexivity|]. split; [vm_compute; split; discriminate|].
  eexists. split; [apply scroll_world_fixed_rows|].
  split; [reflexivity|]. simpl. lia.
Qed.

(** C3, amended: when the stored cursor is sanitized and lies in
    [0, rowCount - visibleRowCount], and, for a page-wise step, the fixed
    top and bottom rows do not outnumber the visible rows, scroll returns
    and leaves the cursor in [0, rowCount - visibleRowCount]. *)
Theorem scroll_cursor_in_bounds (w : World) (bDown bPage : bool) :
  let t := w_table w in
  _getSanitizedFirstVisibleRow t = tb_firstVisibleRow t ->
  0 <= tb_firstVisibleRow t <= _getRowCount t - getVisibleRowCount t ->
  (bPage = true ->
   getFixedRowCount t + getFixedBottomRowCount t <= getVisibleRowCount t) ->
  exists b w',
    scroll oTable bDown bPage w = Ok b w'
    /\ tb_cfg (w_table w') = tb_cfg t
    /\ 0 <= tb_firstVisibleRow (w_table w') <= _getRowCount t - getVisibleRowCount t.
Proof.
  intros t Hsan Hin Hpage. unfold scroll. run. fold t. rewrite Hsan.
  destruct bDown.
  - destruct (Z.ltb_spec (tb_firstVisibleRow t + getVisibleRowCount t) (_getRowCount t)).
    + eexists _, _. split; [reflexivity|]. simpl. split; [reflexivity|].
      destruct bPage; [specialize (Hpage eq_refl)|]; lia.
    + eexists _, _. split; [reflexivity|]. simpl. fold t. split; [reflexivity|]. lia.
  - destruct (Z.ltb_spec 0 (tb_firstVisibleRow t)).
    + eexists _, _. split; [reflexivity|]. simpl. split; [reflexivity|].
      destruct bPage; [specialize (Hpage eq_refl)|]; lia.
    + eexists _, _. split; [reflexivity|]. simpl. fold t. split; [reflexivity|]. lia.
Qed.

Lemma scroll_cursor_in_bounds_witness :
  exists b w',
    scroll oTable true true world_cursor_2 = Ok b w'
    /\ tb_cfg (w_table w') = tb_cfg (w_table world_cursor_2)
    /\ 0 <= tb_firstVisibleRow (w_table w') <= 10 - 5.
Proof.
  apply (scroll_cursor_in_bounds world_cursor_2 true true).
  - reflexivity.
  - vm_compute. split; discriminate.
  - intros _. vm_compute. discriminate.
Defined.

(** C8, as stated, fails: from the cursor 7 of a table with ten rows, five
    of them visible, scrollMax to the end (target 5) returns false and
    leaves the cursor at 7. *)
Lemma scrollMax_beyond_target_counterexample :
  let t := w_table world_cursor_7 in
  tb_firstVisibleRow t <> _getRowCount t - getNonEmptyVisibleRowCount t
  /\ scrollMax oTable true world_cursor_7 = Ok false world_cursor_7
  /\ tb_firstVisibleRow (w_table world_cursor_7) = 7
  /\ _getRowCount t - getNonEmptyVisibleRowCount t = 5.
Proof. cbv zeta. split; [vm_compute; discriminate|]. repeat split. Qed.

(** The same with a table that reads its cursor clamped: the reading is
    the target 5, scrollMax returns false, and the stored cursor stays at
    7. *)
Lemma scrollMax_clamped_cursor_example :
  _getSanitizedFirstVisibleRow (w_table world_cursor_7_clamped) = 5
  /\ scrollMax oTable true world_cursor_7_clamped = Ok false world_cursor_7_clamped
  /\ tb_firstVisibleRow (w_table world_cursor_7_clamped) = 7.
Proof. repeat split. Qed.

(** C8, amended: when the stored cursor is sanitized and lies between 0
    and rowCount - nonEmptyVisibleRowCount, scrollMax leaves the cursor at
    that value (to the end) or at 0 (to the beginning), changes nothing
    else, and returns true exactly when the cursor changed. *)
Theorem scrollMax_reaches_target (w : World) (bDown : bool) :
  let t := w_table w in
  let target := if bDown then _getRowCount t - getNonEmptyVisibleRowCount t else 0 in
  _getSanitizedFirstVisibleRow t = tb_firstVisibleRow t ->
  0 <= tb_firstVisibleRow t <= _getRowCount t - getNonEmptyVisibleRowCount t ->
  exists b w',
    scrollMax oTable bDown w = Ok b w'
    /\ tb_firstVisibleRow (w_table w') = target
    /\ (b = true <-> tb_firstVisibleRow (w_table w') <> tb_firstVisibleRow t)
    /\ (w' = w \/ w' = with_table (setFirstVisibleRow target t) w).
Proof.
  intros t target Hsan Hin. unfold scrollMax. run. fold t. rewrite Hsan.
  subst target. destruct bDown.
  - destruct (Z.ltb_spec (tb_firstVisibleRow t)
                (_getRowCount t - getNonEmptyVisibleRowCount t)).
    + eexists _, _. split; [reflexivity|]. simpl.
      split; [reflexivity|]. split; [|right; reflexivity].
      split; [lia|reflexivity].
    + eexists _, _. split; [reflexivity|]. fold t.
      split; [lia|]. split; [|left; reflexivity].
      split; [discriminate|congruence].
  - destruct (Z.ltb_spec 0 (tb_firstVisibleRow t)).
    + eexists _, _. split; [reflexivity|]. simpl.
      split; [reflexivity|]. split; [|right; reflexivity].
      split; [lia|reflexivity].
    + eexists _, _. split; [reflexivity|]. fold t.
      split; [lia|]. split; [|left; reflexivity].
      split; [discriminate|congruence].
Qed.

Lemma scrollMax_reaches_target_witness :
  exists b w',
    scrollMax oTable true world_cursor_2 = Ok b w'
    /\ tb_firstVisibleRow (w_table w') = 5
    /\ (b = true <-> tb_firstVisibleRow (w_table w') <> 2)
    /\ (w' = world_cursor_2
        \/ w' = with_table (setFirstVisibleRow 5 (w_table world_cursor_2)) world_cursor_2).
Proof.
  apply (scrollMax_reaches_target world_cursor_2 true).
  - reflexivity.
  - vm_compute. split; discriminate.
Defined.

(** ** Selection *)

Lemma interval_single (i : Z) : interval i i = {[ i ]}.
Proof.
  unfold interval. replace (i - i + 1) with 1 by lia.
  change (seqZ i 1) with [i]. simpl. set_solver.
Qed.

Lemma isIndexSelected_true (t : Table) (i : Z) :
  isIndexSelected t i = true <-> i ∈ tb_selected t.
Proof. unfold isIndexSelected. apply bool_decide_eq_true. Qed.

Lemma isIndexSelected_false (t : Table) (i : Z) :
  isIndexSelected t i = false <-> i ∉ tb_selected t.
Proof. unfold isIndexSelected. apply bool_decide_eq_false. Qed.

(** What setSelectionState does when no state is forced: the index changes
    sides, _iSourceRowIndex is deleted again, nothing else changes. *)
Lemma setSelectionState_toggle (w : World) (i : Z) :
  exists w',
    setSelectionState None i w = Ok true w'
    /\ tb_selected (w_table w')
       = (if isIndexSelected (w_table w) i then tb_selected (w_table w) ∖ {[ i ]}
          else tb_selected (w_table w) ∪ {[ i ]})
    /\ tb_cfg (w_table w') = tb_cfg (w_table w)
    /\ tb_iSourceRowIndex (w_table w') = None.
Proof.
  unfold setSelectionState. run.
  change (isIndexSelected (set_iSourceRowIndex (Some i) (w_table w)) i)
    with (isIndexSelected (w_table w) i).
  destruct (isIndexSelected (w_table w) i);
    (eexists; split; [reflexivity|]; simpl; rewrite interval_single; auto).
Qed.

(** The guards of toggleRowSelection pass for a numeric indicator in range
    on a bound table with selection enabled. *)
Lemma toggleRowSelection_number (w : World) (i : Z) (bSelect : option bool) :
  getSelectionMode (w_table w) <> SelectionMode_None ->
  cfg_hasBinding (tb_cfg (w_table w)) = true ->
  0 <= i < _getRowCount (w_table w) ->
  toggleRowSelection oTable (Indicator_number i) bSelect w = setSelectionState bSelect i w.
Proof.
  intros Hmode Hbind Hi. unfold toggleRowSelection.
  unfold bind at 1. unfold getTable at 1. rewrite Hbind.
  rewrite bool_decide_eq_false_2 by exact Hmode. simpl.
  destruct (Z.ltb_spec i 0); [lia|].
  destruct (Z.leb_spec (_getRowCount (w_table w)) i); [lia|]. reflexivity.
Qed.

(** C4: on a bound table with selection enabled, toggling the row index i
    in range twice, without a forced state, changes the selection both
    times and leaves the set of selected indices as it was. *)
Theorem toggleRowSelection_twice_restores (w : World) (i : Z) :
  getSelectionMode (w_table w) <> SelectionMode_None ->
  cfg_hasBinding (tb_cfg (w_table w)) = true ->
  0 <= i < _getRowCount (w_table w) ->
  exists w1 w2,
    toggleRowSelection oTable (Indicator_number i) None w = Ok true w1
    /\ toggleRowSelection oTable (Indicator_number i) None w1 = Ok true w2
    /\ tb_selected (w_table w2) = tb_selected (w_table w).
Proof.
  intros Hmode Hbind Hi.
  destruct (setSelectionState_toggle w i) as (w1 & H1 & Hsel1 & Hcfg1 & _).
  destruct (setSelectionState_toggle w1 i) as (w2 & H2 & Hsel2 & Hcfg2 & _).
  exists w1, w2. split; [|split].
  - rewrite toggleRowSelection_number; assumption.
  - rewrite toggleRowSelection_number; [assumption| | |];
      unfold getSelectionMode, _getRowCount in *; rewrite Hcfg1; assumption.
  - rewrite Hsel2. unfold isIndexSelected. rewrite Hsel1.
    unfold isIndexSelected. apply set_eq. intros x.
    destruct (decide (x = i)) as [->|Hx]; repeat case_bool_decide; set_solver.
Qed.

(** A data cell as indicator: with selection behavior Row the row of the
    cell is toggled by its absolute index; with behavior RowSelector the
    data cell is refused. *)
Example toggleRowSelection_data_cell :
  (exists w',
      toggleRowSelection oTable (Indicator_element (Some data_cell)) None (world_cells Row_)
      = Ok true w'
      /\ tb_selected (w_table w') = {[ 3 ]})
  /\ toggleRowSelection oTable (Indicator_element (Some data_cell)) None
       (world_cells RowSelector)
     = Ok false (world_cells RowSelector).
Proof. split; [eexists; split; [vm_compute; reflexivity|]|]; reflexivity. Qed.

(** C5, as stated, fails for areAllRowsSelected: with selection mode None,
    two selectable rows and the indices 0 and 1 selected it returns
    true. *)
Lemma areAllRowsSelected_mode_none_counterexample :
  getSelectionMode (w_table world_none_selected) = SelectionMode_None
  /\ areAllRowsSelected oTable world_none_selected = Ok true world_none_selected.
Proof. split; reflexivity. Qed.

(** C5, amended: with selection mode None toggleRowSelection returns false
    for every indicator and forced state and changes nothing;
    areAllRowsSelected does not read the selection mode, it changes
    nothing and returns true exactly when the selectable row count is
    positive and equals the number of selected indices, so it returns
    false whenever no index is selected. *)
Theorem selection_mode_none (w : World) (r : TableRef) (oRowIndicator : RowIndicator)
    (bSelect : option bool) :
  getSelectionMode (w_table w) = SelectionMode_None ->
  toggleRowSelection r oRowIndicator bSelect w = Ok false w
  /\ (exists b,
        areAllRowsSelected oTable w = Ok b w
        /\ (b = true <->
            0 < cfg_selectableRowCount (tb_cfg (w_table w))
            /\ cfg_selectableRowCount (tb_cfg (w_table w)) = selectedCount (w_table w)))
  /\ (tb_selected (w_table w) = ∅ -> areAllRowsSelected oTable w = Ok false w).
Proof.
  intros Hmode. split; [|split].
  - destruct r; [reflexivity|]. unfold toggleRowSelection. run.
    rewrite bool_decide_eq_true_2 by exact Hmode.
    rewrite orb_true_r. reflexivity.
  - eexists. split; [reflexivity|].
    rewrite andb_true_iff, Z.ltb_lt, Z.eqb_eq. reflexivity.
  - intros Hsel. unfold areAllRowsSelected, selectedCount. run. rewrite Hsel.
    rewrite size_empty. change (Z.of_nat 0) with 0.
    destruct (Z.ltb_spec 0 (cfg_selectableRowCount (tb_cfg (w_table w)))); [|reflexivity].
    simpl. destruct (Z.eqb_spec (cfg_selectableRowCount (tb_cfg (w_table w))) 0);
      [lia|reflexivity].
Qed.

Lemma selection_mode_none_witness :
  toggleRowSelection oTable (Indicator_number 1) None world_none_selected
  = Ok false world_none_selected.
Proof.
  apply (selection_mode_none world_none_selected oTable (Indicator_number 1) None).
  reflexivity.
Defined.

(** The cases in which toggleRowSelection gives up before it reaches
    setSelectionState. *)
Lemma toggleRowSelection_refuses (w : World) (r : TableRef)
    (oRowIndicator : RowIndicator) (bSelect : option bool) :
  r = null
  \/ cfg_hasBinding (tb_cfg (w_table w)) = false
  \/ getSelectionMode (w_table w) = SelectionMode_None
  \/ oRowIndicator = Indicator_null
  \/ (exists i, oRowIndicator = Indicator_number i
                /\ (i < 0 \/ _getRowCount (w_table w) <= i))
  \/ (exists cell, oRowIndicator = Indicator_element cell
                   /\ ~ (isInGroupingRow cell = false
                         /\ (getCellInfo cell = Some DATACELL
                             /\ isRowSelectionAllowed (w_table w) = true
                             \/ getCellInfo cell = Some ROWHEADER
                                /\ isRowSelectorSelectionAllowed (w_table w) = true))) ->
  toggleRowSelection r oRowIndicator bSelect w = Ok false w.
Proof.
  intros H. destruct r; [reflexivity|].
  unfold toggleRowSelection. unfold bind at 1. unfold getTable at 1.
  destruct (cfg_hasBinding (tb_cfg (w_table w))) eqn:Hbind; [|reflexivity].
  case_bool_decide as Hmode; [reflexivity|]. simpl.
  destruct H as [H|[H|[H|[->|[(i & -> & Hi)|(cell & -> & Hcell)]]]]];
    try discriminate; try contradiction; try reflexivity.
  - destruct (Z.ltb_spec i 0); [reflexivity|].
    destruct (Z.leb_spec (_getRowCount (w_table w)) i); [reflexivity|lia].
  - destruct (getCellInfo cell) as [ty|]; [|reflexivity].
    destruct (isInGroupingRow cell); [reflexivity|]. simpl.
    destruct ty; simpl; try reflexivity.
    + destruct (isRowSelectionAllowed (w_table w)); [|reflexivity].
      exfalso. apply Hcell. auto.
    + destruct (isRowSelectorSelectionAllowed (w_table w)); [|reflexivity].
      exfalso. apply Hcell. auto.
Qed.


(** C6: toggleRowSelection returns false, throws nothing and leaves the
    world as it is when the table is null, there is no row binding, the
    selection mode is None, the indicator is null, a numeric indicator is
    outside [0, rowCount), or an element indicator is not a data cell with
    row selection allowed nor a row header cell with row selector
    selection allowed outside a grouping row. *)
Theorem toggleRowSelection_fails_silently (w : World) (r : TableRef)
    (oRowIndicator : RowIndicator) (bSelect : option bool) :
  r = null
  \/ cfg_hasBinding (tb_cfg (w_table w)) = false
  \/ getSelectionMode (w_table w) = SelectionMode_None
  \/ oRowIndicator = Indicator_null
  \/ (exists i, oRowIndicator = Indicator_number i
                /\ (i < 0 \/ _getRowCount (w_table w) <= i))
  \/ (exists cell, oRowIndicator = Indicator_element cell
                   /\ ~ (isInGroupingRow cell = false
                         /\ (getCellInfo cell = Some DATACELL
                             /\ isRowSelectionAllowed (w_table w) = true
                             \/ getCellInfo cell = Some ROWHEADER
                                /\ isRowSelectorSelectionAllowed (w_table w) = true))) ->
  toggleRowSelection r oRowIndicator bSelect w = Ok false w.
Proof. apply toggleRowSelection_refuses. Qed.

Lemma toggleRowSelection_fails_silently_witness :
  toggleRowSelection oTable (Indicator_number 10) None world_cursor_2
  = Ok false world_cursor_2.
Proof.
  apply (toggleRowSelection_fails_silently world_cursor_2 oTable (Indicator_number 10) None).
  right. right. right. right. left. exists 10. split; [reflexivity|].
  right. vm_compute. discriminate.
Defined.

(** With selection enabled every selection behavior allows at least one of
    the two ways to select by a cell. *)
Lemma selection_allowed_by_some_cell (t : Table) :
  getSelectionMode t <> SelectionMode_None ->
  isRowSelectionAllowed t = true \/ isRowSelectorSelectionAllowed t = true.
Proof.
  intros Hmode. unfold isRowSelectionAllowed, isRowSelectorSelectionAllowed, hasRowHeader.
  rewrite (bool_decide_eq_false_2 _ Hmode). simpl.
  destruct (getSelectionBehavior t); simpl; auto.
Qed.

(** C10: for a numeric indicator in range on a bound table with selection
    enabled toggleRowSelection goes straight to setSelectionState: without
    a forced state it returns true and moves the index into or out of the
    selection, whatever the selection behavior and the grouping mode are.
    For an element indicator the behavior decides: a data cell is refused
    when row selection is not allowed, a row header cell when row selector
    selection is not allowed. *)
Theorem toggleRowSelection_number_ignores_behavior (w : World) (i : Z) :
  getSelectionMode (w_table w) <> SelectionMode_None ->
  cfg_hasBinding (tb_cfg (w_table w)) = true ->
  0 <= i < _getRowCount (w_table w) ->
  (forall bSelect,
      toggleRowSelection oTable (Indicator_number i) bSelect w
      = setSelectionState bSelect i w)
  /\ (exists w',
        toggleRowSelection oTable (Indicator_number i) None w = Ok true w'
        /\ tb_selected (w_table w')
           = (if isIndexSelected (w_table w) i then tb_selected (w_table w) ∖ {[ i ]}
              else tb_selected (w_table w) ∪ {[ i ]}))
  /\ (forall cell bSelect,
        getCellInfo cell = Some DATACELL ->
        isRowSelectionAllowed (w_table w) = false ->
        toggleRowSelection oTable (Indicator_element cell) bSelect w = Ok false w)
  /\ (forall cell bSelect,
        getCellInfo cell = Some ROWHEADER ->
        isRowSelectorSelectionAllowed (w_table w) = false ->
        toggleRowSelection oTable (Indicator_element cell) bSelect w = Ok false w).
Proof.
  intros Hmode Hbind Hi. split; [|split; [|split]].
  - intros bSelect. apply toggleRowSelection_number; assumption.
  - destruct (setSelectionState_toggle w i) as (w' & H & Hsel & _).
    exists w'. rewrite toggleRowSelection_number by assumption. auto.
  - intros cell bSelect Hty Hallowed.
    apply toggleRowSelection_refuses. do 5 right.
    exists cell. split; [reflexivity|]. intros [_ [[_ H]|[H _]]]; congruence.
  - intros cell bSelect Hty Hallowed.
    apply toggleRowSelection_refuses. do 5 right.
    exists cell. split; [reflexivity|]. intros [_ [[H _]|[_ H]]]; congruence.
Qed.

Lemma toggleRowSelection_twice_restores_witness :
  exists w1 w2,
    toggleRowSelection oTable (Indicator_number 1) None world_cursor_2 = Ok true w1
    /\ toggleRowSelection oTable (Indicator_number 1) None w1 = Ok true w2
    /\ tb_selected (w_table w2) = tb_selected (w_table world_cursor_2).
Proof.
  apply (toggleRowSelection_twice_restores world_cursor_2 1).
  - discriminate.
  - reflexivity.
  - vm_compute. split; [discriminate|reflexivity].
Defined.

Lemma toggleRowSelection_number_ignores_behavior_witness :
  exists w',
    toggleRowSelection oTable (Indicator_number 1) None world_cursor_2 = Ok true w'
    /\ tb_selected (w_table w')
       = (if isIndexSelected (w_table world_cursor_2) 1
          then tb_selected (w_table world_cursor_2) ∖ {[ 1 ]}
          else tb_selected (w_table world_cursor_2) ∪ {[ 1 ]}).
Proof.
  apply (toggleRowSelection_number_ignores_behavior world_cursor_2 1).
  - discriminate.
  - reflexivity.
  - vm_compute. split; [discriminate|reflexivity].
Defined.

(** ** Column resizing *)

Lemma widths_kept_or_above_refl (iMin : Z) (cs : list Column) :
  widths_kept_or_above iMin cs cs.
Proof. split; [reflexivity|]. intros k c c' H H'. left. congruence. Qed.

Lemma widths_kept_or_above_trans (iMin : Z) (cs1 cs2 cs3 : list Column) :
  widths_kept_or_above iMin cs1 cs2 -> widths_kept_or_above iMin cs2 cs3 ->
  widths_kept_or_above iMin cs1 cs3.
Proof.
  intros [Hl12 H12] [Hl23 H23]. split; [congruence|].
  intros k c1 c3 Hc1 Hc3.
  destruct (cs2 !! k) as [c2|] eqn:Hc2.
  - destruct (H23 k c2 c3 Hc2 Hc3) as [Heq|Hpx]; [|right; exact Hpx].
    rewrite Heq. exact (H12 k c1 c2 Hc1 Hc2).
  - apply lookup_ge_None in Hc2. apply lookup_lt_Some in Hc1. lia.
Qed.

Lemma widths_kept_or_above_set (iMin n : Z) (i : nat) (cs : list Column) :
  iMin <= n ->
  widths_kept_or_above iMin cs (alter (with_width (W_px n)) i cs).
Proof.
  intros Hn. split; [apply length_alter|].
  intros k c c' Hc Hc'. destruct (decide (i = k)) as [->|Hne].
  - rewrite list_lookup_alter_eq, Hc in Hc'. simpl in Hc'.
    injection Hc' as <-. right. exists n. split; [reflexivity|exact Hn].
  - rewrite list_lookup_alter_ne in Hc' by exact Hne. left. congruence.
Qed.

Lemma widths_kept_or_above_pin (E : Env) (bTableElement : bool) (rs : list nat)
    (cs : list Column) :
  widths_kept_or_above (env_minColumnWidth E) cs (imap (pinMinWidth E bTableElement rs) cs).
Proof.
  split; [apply length_imap|].
  intros k c c' Hc Hc'. rewrite list_lookup_imap, Hc in Hc'. simpl in Hc'.
  injection Hc' as <-. left. unfold pinMinWidth.
  destruct (_ && _); [|reflexivity].
  destruct (col_thOffsetWidth c); reflexivity.
Qed.

(** The loop of resizeColumn always returns, and every width it writes is
    at least the minimum column width. *)
Lemma resizeColumns_above_min (E : Env) (bFireEvent : bool) (rs : list nat) :
  forall (iPixelDelta iSharedPixelDelta : Z) (bResizeWasPerformed : bool) (w : World),
  exists b w',
    resizeColumns E bFireEvent rs iPixelDelta iSharedPixelDelta bResizeWasPerformed w
    = Ok b w'
    /\ widths_kept_or_above (env_minColumnWidth E)
         (tb_columns (w_table w)) (tb_columns (w_table w')).
Proof.
  induction rs as [|c rest IH]; intros pd sd b w.
  - exists b, w. split; [reflexivity|apply widths_kept_or_above_refl].
  - simpl. run.
    set (iColumnWidth := widthOf (w_table w) c).
    set (iNewWidth := if iColumnWidth + sd <? env_minColumnWidth E
                      then env_minColumnWidth E else iColumnWidth + sd).
    assert (Hmin : env_minColumnWidth E <= iNewWidth).
    { subst iNewWidth. destruct (Z.ltb_spec (iColumnWidth + sd) (env_minColumnWidth E)); lia. }
    destruct (iNewWidth - iColumnWidth =? 0); [apply IH|].
    destruct bFireEvent; simpl.
    + destruct (env_handler E (w_table w) (ColumnResize c iNewWidth)); simpl.
      * edestruct IH as (b' & w' & Hrun & Hw). exists b', w'.
        split; [exact Hrun|].
        eapply widths_kept_or_above_trans; [|exact Hw]. simpl.
        apply widths_kept_or_above_set. exact Hmin.
      * edestruct IH as (b' & w' & Hrun & Hw). exists b', w'.
        split; [exact Hrun|exact Hw].
    + edestruct IH as (b' & w' & Hrun & Hw). exists b', w'.
      split; [exact Hrun|].
      eapply widths_kept_or_above_trans; [|exact Hw]. simpl.
      apply widths_kept_or_above_set. exact Hmin.
Qed.

(** C7: resizeColumn always returns, and every column whose width it
    changed has a width in pixels that is at least the minimum column
    width. *)
Theorem resizeColumn_respects_minimum (E : Env) (r : TableRef)
    (iColumnIndex iWidth : option Z) (bFireEvent : option bool) (iColumnSpan : option Z)
    (w : World) :
  exists b w',
    resizeColumn E r iColumnIndex iWidth bFireEvent iColumnSpan w = Ok b w'
    /\ length (tb_columns (w_table w')) = length (tb_columns (w_table w))
    /\ forall (k : nat) (c c' : Column),
         tb_columns (w_table w) !! k = Some c ->
         tb_columns (w_table w') !! k = Some c' ->
         col_width c' <> col_width c ->
         exists n, col_width c' = W_px n /\ env_minColumnWidth E <= n.
Proof.
  assert (Hgoal : exists b w',
    resizeColumn E r iColumnIndex iWidth bFireEvent iColumnSpan w = Ok b w'
    /\ widths_kept_or_above (env_minColumnWidth E)
         (tb_columns (w_table w)) (tb_columns (w_table w'))).
  { assert (Hstay : forall b, exists b' w', @Ok bool b w = Ok b' w'
       /\ widths_kept_or_above (env_minColumnWidth E)
            (tb_columns (w_table w)) (tb_columns (w_table w'))).
    { intros b. exists b, w. split; [reflexivity|apply widths_kept_or_above_refl]. }
    unfold resizeColumn.
    destruct r; [apply Hstay|].
    destruct iColumnIndex as [iColumnIndex|]; [|apply Hstay].
    destruct iWidth as [iWidth|]; [|apply Hstay].
    destruct (_ || _); [apply Hstay|]. run.
    destruct (getColumns (w_table w) !! Z.to_nat iColumnIndex) as [oColumn|];
      [|apply Hstay].
    destruct (negb (col_visible oColumn)); [apply Hstay|].
    case_bool_decide; [apply Hstay|].
    destruct (negb (isFixedColumn (w_table w) iColumnIndex)); simpl.
    - edestruct resizeColumns_above_min as (b' & w' & Hrun & Hw).
      exists b', w'. split; [exact Hrun|].
      eapply widths_kept_or_above_trans; [|exact Hw]. simpl.
      apply widths_kept_or_above_pin.
    - apply resizeColumns_above_min. }
  destruct Hgoal as (b & w' & Hrun & Hlen & Hw). exists b, w'.
  split; [exact Hrun|]. split; [exact Hlen|].
  intros k c c' Hc Hc' Hne. destruct (Hw k c c' Hc Hc') as [Heq|Hpx];
    [contradiction|exact Hpx].
Qed.

(** The example of the specification: one resizable column of 100px, span
    1, target 150px; the column becomes 150px wide and one notification
    fires. *)
Example resizeColumn_one_column_150 :
  exists w',
    resizeColumn (env true true) oTable (Some 0) (Some 150) None None world_one_column
    = Ok true w'
    /\ widths (w_table w') = [W_px 150]
    /\ w_fired w' = [ColumnResize 0 150].
Proof. eexists. split; [vm_compute; reflexivity|]. split; reflexivity. Qed.

Lemma resizeColumn_world_two_columns :
  exists w',
    resizeColumn (env true true) oTable (Some 0) (Some 201) None (Some 2) world_two_columns
    = Ok true w'
    /\ col_width <$> tb_columns (w_table w') = [W_px 101; W_px 101]
    /\ w_fired w' = [ColumnResize 0 101; ColumnResize 1 101].
Proof. eexists. split; [vm_compute; reflexivity|]. split; reflexivity. Qed.

(** C1, as stated, fails: on the table with two resizable columns of 100px,
    minimum column width 48, a resize of the span of both to 201px sets
    both columns to 101px and fires two notifications; it does not leave
    the second column at 100px with one notification. *)
Lemma resizeColumn_201_counterexample :
  exists w',
    resizeColumn (env true true) oTable (Some 0) (Some 201) None (Some 2) world_two_columns
    = Ok true w'
    /\ col_width <$> tb_columns (w_table w') = [W_px 101; W_px 101]
    /\ length (w_fired w') = 2%nat
    /\ ~ (col_width <$> tb_columns (w_table w') = [W_px 101; W_px 100]
          /\ length (w_fired w') = 1%nat).
Proof.
  destruct resizeColumn_world_two_columns as (w' & Hrun & Hcols & Hfired).
  exists w'. split; [exact Hrun|]. split; [exact Hcols|].
  rewrite Hfired, Hcols. split; [reflexivity|]. intros [H _]. discriminate H.
Qed.

(** A call that passes the guards of resizeColumn enters the loop with the
    pixel delta shared among the resizable columns of the span, after the
    flexible columns got their minimum widths. *)
Lemma resizeColumn_enters_loop (E : Env) (w : World) (iColumnIndex iWidth : Z)
    (bFireEvent : option bool) (iColumnSpan : option Z) (oColumn : Column) :
  let t := w_table w in
  let iSpan := match iColumnSpan with
               | Some s => if s <=? 0 then 1 else s
               | None => 1
               end in
  let aVisibleColumns :=
    collectVisible (drop (Z.to_nat iColumnIndex) (indexed (getColumns t))) 0 iSpan in
  let aResizableColumns := filter (fun i => isResizable t i) aVisibleColumns in
  let iPixelDelta := iWidth - spanWidth t aVisibleColumns in
  0 <= iColumnIndex -> 0 < iWidth ->
  getColumns t !! Z.to_nat iColumnIndex = Some oColumn ->
  col_visible oColumn = true ->
  aResizableColumns <> [] ->
  resizeColumn E oTable (Some iColumnIndex) (Some iWidth) bFireEvent iColumnSpan w
  = resizeColumns E (default true bFireEvent) aResizableColumns iPixelDelta
      (Math_round_div iPixelDelta (Z.of_nat (length aResizableColumns))) false
      (if isFixedColumn t iColumnIndex then w
       else with_table (fixAutoColumns E aResizableColumns t) w).
Proof.
  intros t iSpan aVisibleColumns aResizableColumns iPixelDelta Hidx Hwidth Hcol Hvis Hres.
  unfold resizeColumn.
  destruct (Z.ltb_spec iColumnIndex 0); [lia|].
  destruct (Z.leb_spec iWidth 0); [lia|]. simpl.
  unfold bind at 1. unfold getTable at 1. fold t. rewrite Hcol, Hvis. simpl.
  fold iSpan. fold aVisibleColumns. fold aResizableColumns.
  rewrite bool_decide_eq_false_2 by exact Hres.
  fold iPixelDelta. unfold bind at 1.
  destruct (isFixedColumn t iColumnIndex); reflexivity.
Qed.

(** One round of the loop for a column that takes its whole share: the
    share is not zero, the new width is not below the minimum, and the
    handler lets the resize happen. *)
Lemma resizeColumns_full_share (E : Env) (c : nat) (rest : list nat)
    (iPixelDelta iSharedPixelDelta : Z) (b : bool) (w : World) :
  let iNewWidth := widthOf (w_table w) c + iSharedPixelDelta in
  env_minColumnWidth E <= iNewWidth ->
  iSharedPixelDelta <> 0 ->
  env_handler E (w_table w) (ColumnResize c iNewWidth) = true ->
  resizeColumns E true (c :: rest) iPixelDelta iSharedPixelDelta b w
  = resizeColumns E true rest iPixelDelta iSharedPixelDelta true
      {| w_table := setColumn c (with_width (W_px iNewWidth)) (w_table w);
         w_fired := w_fired w ++ [ColumnResize c iNewWidth];
         w_live := w_live w; w_next := w_next w; w_log := w_log w |}.
Proof.
  intros iNewWidth Hmin Hshare Hhandler. simpl.
  unfold bind at 1. unfold getTable at 1. fold iNewWidth.
  destruct (Z.ltb_spec iNewWidth (env_minColumnWidth E)) as [Hlt|_]; [lia|].
  replace (iNewWidth - widthOf (w_table w) c) with iSharedPixelDelta
    by (subst iNewWidth; lia).
  rewrite Z.ltb_irrefl.
  destruct (Z.eqb_spec iSharedPixelDelta 0) as [Hz|_]; [contradiction|].
  unfold bind at 1. unfold bind at 1. unfold fire at 1. rewrite Hhandler.
  reflexivity.
Qed.

Lemma pinMinWidth_resizable (E : Env) (bTableElement : bool) (rs : list nat) (i : nat)
    (col : Column) :
  i ∈ rs -> pinMinWidth E bTableElement rs i col = col.
Proof.
  intros Hin. unfold pinMinWidth. rewrite (bool_decide_eq_true_2 _ Hin).
  simpl. rewrite andb_false_r. reflexivity.
Qed.

(** C1, amended: for a table with exactly two columns, both visible,
    resizable and 100px wide, a minimum column width of at most 101 and a
    handler that cancels nothing, the resize of the span of both columns
    to 201px shares round(1/2) = 1 pixel to each column: both become 101px
    wide, one notification fires per column, and the call returns true. *)
Theorem resizeColumn_201_both_columns (E : Env) (w : World) (c1 c2 : Column)
    (bFireEvent : option bool) :
  tb_columns (w_table w) = [c1; c2] ->
  col_visible c1 = true -> col_resizable c1 = true -> col_width c1 = W_px 100 ->
  col_visible c2 = true -> col_resizable c2 = true -> col_width c2 = W_px 100 ->
  env_minColumnWidth E <= 101 ->
  (forall t n, env_handler E t n = true) ->
  bFireEvent <> Some false ->
  exists w',
    resizeColumn E oTable (Some 0) (Some 201) bFireEvent (Some 2) w = Ok true w'
    /\ col_width <$> tb_columns (w_table w') = [W_px 101; W_px 101]
    /\ w_fired w' = w_fired w ++ [ColumnResize 0 101; ColumnResize 1 101].
Proof.
  intros Hcols Hv1 Hr1 Hw1 Hv2 Hr2 Hw2 Hmin Hhandler Hfire.
  assert (HbFire : default true bFireEvent = true)
    by (destruct bFireEvent as [[]|]; [reflexivity|contradiction|reflexivity]).
  assert (Hvisible :
    collectVisible (drop (Z.to_nat 0) (indexed (getColumns (w_table w)))) 0 2
    = [0%nat; 1%nat]).
  { unfold getColumns. rewrite Hcols. simpl. rewrite Hv1, Hv2. reflexivity. }
  assert (Hresizable :
    filter (fun i => isResizable (w_table w) i) [0%nat; 1%nat] = [0%nat; 1%nat]).
  { unfold isResizable, getColumns. rewrite Hcols.
    rewrite filter_cons_True by (simpl; rewrite Hr1; exact I).
    rewrite filter_cons_True by (simpl; rewrite Hr2; exact I). reflexivity. }
  assert (Hspan : spanWidth (w_table w) [0%nat; 1%nat] = 200).
  { unfold spanWidth, widthOf, getColumnWidth, getColumns. rewrite Hcols. simpl.
    rewrite Hw1, Hw2. reflexivity. }
  rewrite (resizeColumn_enters_loop E w 0 201 bFireEvent (Some 2) c1);
    [|lia|lia|unfold getColumns; rewrite Hcols; reflexivity|exact Hv1
     |simpl; rewrite Hvisible, Hresizable; discriminate].
  simpl (if 2 <=? 0 then _ else _). rewrite Hvisible, Hresizable, Hspan, HbFire.
  change (Math_round_div (201 - 200) (Z.of_nat (length [0%nat; 1%nat]))) with 1.
  change (201 - 200) with 1.
  set (w0 := if isFixedColumn (w_table w) 0 then w
             else with_table (fixAutoColumns E [0%nat; 1%nat] (w_table w)) w).
  assert (Hcols0 : tb_columns (w_table w0) = [c1; c2]).
  { subst w0. destruct (isFixedColumn (w_table w) 0); [exact Hcols|].
    simpl. rewrite Hcols. simpl.
    rewrite !pinMinWidth_resizable by set_solver. reflexivity. }
  assert (Hfired0 : w_fired w0 = w_fired w).
  { subst w0. destruct (isFixedColumn (w_table w) 0); reflexivity. }
  assert (Hwidth0 : widthOf (w_table w0) 0 = 100).
  { unfold widthOf, getColumnWidth, getColumns. rewrite Hcols0. simpl.
    rewrite Hw1. reflexivity. }
  rewrite resizeColumns_full_share;
    [|rewrite Hwidth0; simpl; lia|discriminate|apply Hhandler].
  rewrite Hwidth0. change (100 + 1) with 101.
  set (w1 := {| w_table := setColumn 0 (with_width (W_px 101)) (w_table w0);
                w_fired := w_fired w0 ++ [ColumnResize 0 101];
                w_live := w_live w0; w_next := w_next w0; w_log := w_log w0 |}).
  assert (Hcols1 : tb_columns (w_table w1) = [with_width (W_px 101) c1; c2]).
  { subst w1. simpl. rewrite Hcols0. reflexivity. }
  assert (Hwidth1 : widthOf (w_table w1) 1 = 100).
  { unfold widthOf, getColumnWidth, getColumns. rewrite Hcols1. simpl.
    rewrite Hw2. reflexivity. }
  rewrite resizeColumns_full_share;
    [|rewrite Hwidth1; simpl; lia|discriminate|apply Hhandler].
  rewrite Hwidth1. change (100 + 1) with 101.
  assert (Hfired1 : w_fired w1 = w_fired w ++ [ColumnResize 0 101])
    by (subst w1; simpl; rewrite Hfired0; reflexivity).
  clearbody w1. eexists. split; [reflexivity|]. simpl. rewrite Hcols1. simpl.
  split; [reflexivity|]. rewrite Hfired1, <- app_assoc. reflexivity.
Qed.

Lemma resizeColumn_201_both_columns_witness :
  exists w',
    resizeColumn (env true true) oTable (Some 0) (Some 201) None (Some 2) world_two_columns
    = Ok true w'
    /\ col_width <$> tb_columns (w_table w') = [W_px 101; W_px 101]
    /\ w_fired w' = w_fired world_two_columns ++ [ColumnResize 0 101; ColumnResize 1 101].
Proof.
  apply (resizeColumn_201_both_columns (env true true) world_two_columns
           (column (W_px 100)) (column (W_px 100)) None);
    try reflexivity.
  - vm_compute. discriminate.
  - discriminate.
Defined.

(** ** Canceled notifications *)

Lemma same_core_refl (w : World) : same_core w w.
Proof. repeat split. Qed.

Lemma same_core_trans (w1 w2 w3 : World) :
  same_core w1 w2 -> same_core w2 w3 -> same_core w1 w3.
Proof. unfold same_core. intros (? & ? & ? & ?) (? & ? & ? & ?). repeat split; congruence. Qed.

Lemma same_core_table (w w' : World) : w_table w' = w_table w -> same_core w w'.
Proof. intros H. unfold same_core. rewrite H. repeat split. Qed.

Lemma final_bind {A B : Type} (m : M A) (k : A -> M B) (w : World) :
  final (bind m k w)
  = match m w with
    | Ok a w1 => final (k a w1)
    | Throw _ w1 => w1
    end.
Proof. unfold bind. destruct (m w); reflexivity. Qed.

(** Putting the overlay into a header cell, or taking it out, touches
    neither widths nor menus. *)
Lemma same_core_cellMenu (w : World) (i : nat) (bHidden : bool) (m : option CellMenu) :
  same_core w (with_table (setColumn i (with_cellMenu bHidden m) (w_table w)) w).
Proof.
  unfold same_core, widths, column_menus. simpl.
  repeat split; apply list_eq; intros k; rewrite !list_lookup_fmap;
    (destruct (decide (i = k)) as [->|Hne];
     [rewrite list_lookup_alter_eq|rewrite list_lookup_alter_ne by exact Hne]);
    try reflexivity; destruct (tb_columns (w_table w) !! k); reflexivity.
Qed.

Lemma removeColumnHeaderCellMenu_core (r : TableRef) (iColumnIndex : option JsInt)
    (w : World) :
  same_core w (final (removeColumnHeaderCellMenu r iColumnIndex w))
  /\ w_fired (final (removeColumnHeaderCellMenu r iColumnIndex w)) = w_fired w.
Proof.
  unfold removeColumnHeaderCellMenu. destruct r; [split; [apply same_core_refl|reflexivity]|].
  run. destruct (columnAt (w_table w) iColumnIndex) as [[ic|]|]; simpl;
    try (split; [apply same_core_refl|reflexivity]).
  destruct (col_cellMenu ic.2); simpl;
    [split; [apply same_core_cellMenu|reflexivity]
    |split; [apply same_core_refl|reflexivity]].
Qed.

Lemma applyColumnHeaderCellMenu_core (r : TableRef) (iColumnIndex : option JsInt)
    (w : World) :
  same_core w (final (applyColumnHeaderCellMenu r iColumnIndex w)).
Proof.
  unfold applyColumnHeaderCellMenu. destruct r; [apply same_core_refl|].
  run. destruct (columnAt (w_table w) iColumnIndex) as [[ic|]|]; simpl;
    try apply same_core_refl.
  destruct (_ && _); simpl; [|apply same_core_refl].
  destruct (col_cellMenu ic.2); simpl; [apply same_core_refl|].
  destruct (isRendered ic.2); simpl; [apply same_core_cellMenu|apply same_core_refl].
Qed.

(** With a handler that cancels everything the loop of resizeColumn fires
    its notifications and leaves the table alone. *)
Lemma resizeColumns_canceled (E : Env) (rs : list nat) :
  (forall t n, env_handler E t n = false) ->
  forall (iPixelDelta iSharedPixelDelta : Z) (b : bool) (w : World),
  exists w',
    resizeColumns E true rs iPixelDelta iSharedPixelDelta b w = Ok b w'
    /\ w_table w' = w_table w.
Proof.
  intros Hcancel. induction rs as [|c rest IH]; intros pd sd b w.
  - exists w. split; reflexivity.
  - simpl. run. destruct (_ =? 0).
    + apply IH.
    + rewrite Hcancel. simpl.
      edestruct IH as (w' & Hrun & Ht). exists w'. split; [exact Hrun|exact Ht].
Qed.

Lemma fixAutoColumns_observed (E : Env) (rs : list nat) (t : Table) :
  widths (fixAutoColumns E rs t) = widths t
  /\ column_menus (fixAutoColumns E rs t) = column_menus t
  /\ overlays (fixAutoColumns E rs t) = overlays t.
Proof.
  unfold widths, column_menus, overlays, fixAutoColumns. simpl.
  repeat split; apply list_eq; intros k;
    rewrite !list_lookup_fmap, list_lookup_imap;
    destruct (tb_columns t !! k) as [c|]; try reflexivity; simpl;
    unfold pinMinWidth; destruct (_ && _); try reflexivity;
    destruct (col_thOffsetWidth c); reflexivity.
Qed.

(** Without cancellation the menus do open: the column menu for a header
    cell on a desktop, the data cell menu, with its filter item bound to
    column 0 and the record 3, for an element inside a data cell. *)
Example openContextMenu_opens :
  (exists w',
      openContextMenu (env true true) oTable (Some header_cell) None None world_two_columns
      = Ok tt w'
      /\ w_fired w' = [ColumnSelect (Some 0%nat)]
      /\ column_menus (w_table w') = [true; false])
  /\ (exists w',
        openContextMenu (env true true) oTable (Some cell_control) None None
          (world_cells Row_)
        = Ok tt w'
        /\ tb_cellContextMenu (w_table w')
           = Some {| ccm_open := true; ccm_opener := Some data_cell;
                     ccm_filter := Some (0%nat, 3); ccm_hover := false |}).
Proof.
  split; eexists; (split; [vm_compute; reflexivity|]); repeat split.
Qed.

(** C2, as stated, fails: on a touch device, for a header cell that
    carries the two-button overlay, openContextMenu removes the overlay and
    shows the header cell again before it fires the ColumnSelect
    notification; when the handler cancels, this change of the menu state
    stays. *)
Lemma openContextMenu_canceled_counterexample :
  exists w',
    openContextMenu (env false false) oTable (Some header_cell) None None world_overlay
    = Ok tt w'
    /\ w_fired w' = [ColumnSelect (Some 0%nat)]
    /\ overlays (w_table world_overlay)
       = [(true, Some {| cm_dropDown := true; cm_resizer := true |})]
    /\ overlays (w_table w') = [(false, None)]
    /\ overlays (w_table w') <> overlays (w_table world_overlay).
Proof.
  eexists. split; [vm_compute; reflexivity|].
  split; [reflexivity|]. split; [reflexivity|]. split; [reflexivity|]. discriminate.
Qed.

(** The other effect that precedes the notification: a canceled resize of
    the pixel column has already given the flexible column its rendered
    width as _minWidth. *)
Lemma resizeColumn_canceled_pins_minWidth :
  exists w',
    resizeColumn (env true false) oTable (Some 0) (Some 150) None None world_flexible
    = Ok false w'
    /\ w_fired w' = [ColumnResize 0 150]
    /\ widths (w_table w') = widths (w_table world_flexible)
    /\ minWidths (w_table world_flexible) = [None; None]
    /\ minWidths (w_table w') = [None; Some 100].
Proof. eexists. split; [vm_compute; reflexivity|]. repeat split. Qed.

(** C2, amended: when the handler cancels every notification and the
    caller does not suppress the event, resizeColumn returns false and
    openContextMenu opens no menu; after either call all column widths, the
    selection, the open or closed state of every column menu and the data
    cell context menu are as before.  (What the call does before it fires
    stays: resizeColumn may set _minWidth of flexible columns,
    openContextMenu removes the overlay of the header cell.) *)
Theorem canceled_notification_applies_nothing (E : Env) (w : World)
    (bFireEvent : option bool) :
  (forall t n, env_handler E t n = false) ->
  bFireEvent <> Some false ->
  (forall r iColumnIndex iWidth iColumnSpan,
      exists w',
        resizeColumn E r iColumnIndex iWidth bFireEvent iColumnSpan w = Ok false w'
        /\ same_core w w'
        /\ overlays (w_table w') = overlays (w_table w))
  /\ (forall r oElement bHoverFirstMenuItem,
        same_core w (final (openContextMenu E r oElement bHoverFirstMenuItem bFireEvent w))).
Proof.
  intros Hcancel Hfire.
  assert (HbFire : default true bFireEvent = true)
    by (destruct bFireEvent as [[]|]; [reflexivity|contradiction|reflexivity]).
  split.
  - intros r iColumnIndex iWidth iColumnSpan.
    assert (Hstay : exists w', @Ok bool false w = Ok false w'
                               /\ same_core w w'
                               /\ overlays (w_table w') = overlays (w_table w)).
    { exists w. split; [reflexivity|]. split; [apply same_core_refl|reflexivity]. }
    unfold resizeColumn. rewrite HbFire.
    destruct r; [apply Hstay|].
    destruct iColumnIndex as [iColumnIndex|]; [|apply Hstay].
    destruct iWidth as [iWidth|]; [|apply Hstay].
    destruct (_ || _); [apply Hstay|]. run.
    destruct (getColumns (w_table w) !! Z.to_nat iColumnIndex) as [oColumn|];
      [|apply Hstay].
    destruct (negb (col_visible oColumn)); [apply Hstay|].
    case_bool_decide; [apply Hstay|].
    destruct (negb (isFixedColumn (w_table w) iColumnIndex)); simpl.
    + edestruct (resizeColumns_canceled E) as (w' & Hrun & Ht); [exact Hcancel|].
      exists w'. split; [exact Hrun|]. unfold same_core. rewrite Ht. simpl.
      match goal with
      | |- context [fixAutoColumns E ?rs (w_table w)] =>
          destruct (fixAutoColumns_observed E rs (w_table w)) as (Hw & Hm & Ho)
      end.
      repeat split; assumption.
    + edestruct (resizeColumns_canceled E) as (w' & Hrun & Ht); [exact Hcancel|].
      exists w'. split; [exact Hrun|]. unfold same_core. rewrite Ht.
      repeat split.
  - intros r oElement bHover. unfold openContextMenu. rewrite HbFire.
    destruct r; [apply same_core_refl|].
    destruct oElement as [e|]; [|apply same_core_refl].
    destruct (getCell oTable (Some e)) as [eTableCell|]; [|apply same_core_refl].
    destruct (getCellInfo (Some eTableCell)) as [[]|]; try apply same_core_refl.
    + (* data cell *)
      rewrite final_bind.
      destruct (split_dash (node_id (el_node eTableCell)) !! 2%nat) as [sRow|];
        simpl; [|apply same_core_refl].
      rewrite final_bind.
      destruct (split_dash (node_id (el_node eTableCell)) !! 3%nat) as [sCol|];
        simpl; [|apply same_core_refl].
      run.
      destruct (js_index (getRows (w_table w)) _) as [oRow|]; simpl;
        [|apply same_core_refl].
      destruct (js_index (getColumns (w_table w)) _) as [column|]; simpl;
        [|apply same_core_refl].
      rewrite Hcancel. apply same_core_table. reflexivity.
    + (* column header *)
      rewrite final_bind.
      destruct (getColumnHeaderCellInfo (Some eTableCell)) as [info|];
        [|apply same_core_refl].
      unfold deref, ret. cbv beta iota.
      unfold bind at 1. unfold getTable at 1.
      destruct (_ || _).
      * rewrite final_bind.
        destruct (removeColumnHeaderCellMenu_core oTable (Some info.1) w) as [Hcore _].
        destruct (removeColumnHeaderCellMenu oTable (Some info.1) w) as [[] w1|ex w1];
          simpl in Hcore; [|exact Hcore].
        run. rewrite Hcancel. simpl.
        eapply same_core_trans; [exact Hcore|]. apply same_core_table. reflexivity.
      * apply applyColumnHeaderCellMenu_core.
Qed.

Lemma canceled_notification_applies_nothing_witness :
  exists w',
    resizeColumn (env true false) oTable (Some 0) (Some 201) None (Some 2) world_two_columns
    = Ok false w'
    /\ same_core world_two_columns w'
    /\ overlays (w_table w') = overlays (w_table world_two_columns).
Proof.
  apply (canceled_notification_applies_nothing (env true false) world_two_columns None).
  - reflexivity.
  - discriminate.
Defined.

(** ** Resize handler registration *)

Lemma handlerIdOf_store (t : Table) (m : gmap string (option Handle)) (k k' : string)
    (v : option Handle) :
  tb_mResizeHandlerIds t = Some m ->
  handlerIdOf (storeHandlerId k v t) k'
  = if decide (k = k') then v else handlerIdOf t k'.
Proof.
  intros Hm. unfold handlerIdOf, storeHandlerId. rewrite Hm. simpl.
  rewrite lookup_insert. case_decide; reflexivity.
Qed.

Lemma handlerIdOf_Some_map (t : Table) (k : string) (h : Handle) :
  handlerIdOf t k = Some h -> exists m, tb_mResizeHandlerIds t = Some m.
Proof.
  unfold handlerIdOf. destruct (tb_mResizeHandlerIds t) as [m|]; [eauto|discriminate].
Qed.

(** Two suffixes never share a handle. *)
Lemma registry_consistent_inj (w : World) (k1 k2 : string) (h : Handle) :
  registry_consistent w ->
  handlerIdOf (w_table w) k1 = Some h -> handlerIdOf (w_table w) k2 = Some h -> k1 = k2.
Proof.
  intros [Hc _] H1 H2. apply Hc in H1. apply Hc in H2. congruence.
Qed.

(** Ending the handle stored under a suffix and writing undefined there
    keeps map and registry in agreement. *)
Lemma deregister_one_consistent (w : World) (k : string) (h : Handle) :
  registry_consistent w ->
  handlerIdOf (w_table w) k = Some h ->
  registry_consistent
    {| w_table := storeHandlerId k None (w_table w); w_fired := w_fired w;
       w_live := delete h (w_live w); w_next := w_next w; w_log := w_log w |}.
Proof.
  intros Hw Hk. pose proof Hw as [Hc Hfresh].
  destruct (handlerIdOf_Some_map _ _ _ Hk) as [m Hm].
  split; simpl.
  - intros h' key. rewrite (handlerIdOf_store _ m) by exact Hm.
    rewrite lookup_delete. repeat case_decide; subst.
    + split; discriminate.
    + split; [discriminate|]. intros Hkey.
      exfalso. eauto using registry_consistent_inj.
    + split; [|discriminate]. intros Hlive. apply Hc in Hlive. congruence.
    + apply Hc.
  - intros h' [key Hlive]. apply Hfresh. rewrite lookup_delete in Hlive.
    case_decide; [discriminate|eauto].
Qed.

(** The loop of deregisterResizeHandler returns; it keeps map and registry
    in agreement, leaves no handle under the suffixes it went through and
    adds none anywhere. *)
Lemma deregisterEach_consistent (l : list string) :
  forall w : World,
  registry_consistent w ->
  exists w',
    deregisterEach l w = Ok tt w'
    /\ registry_consistent w'
    /\ w_next w' = w_next w
    /\ (forall key, key ∈ l -> handlerIdOf (w_table w') key = None)
    /\ (forall key, handlerIdOf (w_table w') key = None
                    \/ handlerIdOf (w_table w') key = handlerIdOf (w_table w) key)
    /\ (forall h, w_live w' !! h = None \/ w_live w' !! h = w_live w !! h).
Proof.
  induction l as [|k rest IH]; intros w Hw.
  - exists w. split; [reflexivity|]. split; [exact Hw|]. split; [reflexivity|].
    split; [intros key Hin; inversion Hin|]. split; intros; right; reflexivity.
  - simpl. run. destruct (handlerIdOf (w_table w) k) as [h|] eqn:Hk; simpl.
    + unfold ResizeHandler_deregister. simpl.
      destruct (IH _ (deregister_one_consistent w k h Hw Hk))
        as (w' & Hrun & Hw' & Hnext & Hgone & Hmono & Hlive).
      exists w'. split; [exact Hrun|]. split; [exact Hw'|]. split; [exact Hnext|].
      destruct (handlerIdOf_Some_map _ _ _ Hk) as [m Hm].
      simpl in Hmono, Hlive.
      assert (Hmono' : forall key, handlerIdOf (w_table w') key = None
                \/ handlerIdOf (w_table w') key = handlerIdOf (w_table w) key).
      { intros key. destruct (Hmono key) as [Hn|He]; [left; exact Hn|].
        rewrite (handlerIdOf_store _ m) in He by exact Hm.
        case_decide; [left|right]; exact He. }
      split; [|split; [exact Hmono'|]].
      * intros key Hin. apply elem_of_cons in Hin as [->|Hin]; [|auto].
        destruct (Hmono k) as [Hn|He]; [exact Hn|].
        rewrite (handlerIdOf_store _ m) in He by exact Hm.
        rewrite decide_True in He by reflexivity. exact He.
      * intros h'. destruct (Hlive h') as [Hn|He]; [left; exact Hn|].
        rewrite lookup_delete in He. case_decide; [left|right]; exact He.
    + destruct (IH w Hw) as (w' & Hrun & Hw' & Hnext & Hgone & Hmono & Hlive).
      exists w'. split; [exact Hrun|]. split; [exact Hw'|]. split; [exact Hnext|].
      split; [|split; assumption].
      intros key Hin. apply elem_of_cons in Hin as [->|Hin]; [|auto].
      destruct (Hmono k) as [Hn|He]; [exact Hn|congruence].
Qed.

Lemma deregisterEach_final_consistent (l : list string) (w : World) :
  registry_consistent w -> registry_consistent (final (deregisterEach l w)).
Proof.
  intros Hw. destruct (deregisterEach_consistent l w Hw) as (w' & -> & Hw' & _).
  exact Hw'.
Qed.

Lemma deregisterResizeHandler_consistent (vIdSuffix : IdSuffixArg) (w : World) :
  registry_consistent w ->
  registry_consistent (final (deregisterResizeHandler vIdSuffix w)).
Proof.
  intros Hw. unfold deregisterResizeHandler.
  unfold bind at 1. unfold getTable at 1.
  destruct (tb_mResizeHandlerIds (w_table w)) as [m|]; [|exact Hw].
  destruct vIdSuffix as [s|  |l| ].
  - exact (deregisterEach_final_consistent [s] w Hw).
  - exact (deregisterEach_final_consistent (map_to_list m).*1 w Hw).
  - exact (deregisterEach_final_consistent l w Hw).
  - exact Hw.
Qed.

(** Deregistering one suffix returns and leaves nothing live for it. *)
Lemma deregisterResizeHandler_string (key : string) (w : World) :
  registry_consistent w ->
  exists w1,
    deregisterResizeHandler (Suffix_string key) w = Ok tt w1
    /\ registry_consistent w1
    /\ handlerIdOf (w_table w1) key = None
    /\ (forall h, handlerIdOf (w_table w) key = Some h -> w_live w1 !! h = None)
    /\ w_next w1 = w_next w.
Proof.
  intros Hw. unfold deregisterResizeHandler.
  unfold bind at 1. unfold getTable at 1.
  destruct (tb_mResizeHandlerIds (w_table w)) as [m|] eqn:Hm.
  - destruct (deregisterEach_consistent [key] w Hw)
      as (w1 & Hrun & Hw1 & Hnext1 & Hgone & Hmono & Hlive).
    exists w1. split; [exact Hrun|]. split; [exact Hw1|].
    assert (Hkey : handlerIdOf (w_table w1) key = None)
      by (apply Hgone; set_solver).
    split; [exact Hkey|]. split; [|exact Hnext1].
    intros h Hh. destruct (w_live w1 !! h) as [key'|] eqn:Hl; [|reflexivity].
    exfalso. pose proof Hl as Hl1. apply Hw1 in Hl1.
    destruct (Hlive h) as [Hn|He]; [congruence|].
    rewrite Hl in He. symmetry in He. apply Hw in He.
    assert (key' = key) by eauto using registry_consistent_inj. congruence.
  - exists w. split; [reflexivity|]. split; [exact Hw|].
    assert (Hnone : handlerIdOf (w_table w) key = None)
      by (unfold handlerIdOf; rewrite Hm; reflexivity).
    split; [exact Hnone|]. split; [intros h Hh; congruence|reflexivity].
Qed.

(** registerResizeHandler keeps map and registry in agreement, and the
    handle that was stored under the suffix before is no longer live. *)
Lemma registerResizeHandler_consistent (sIdSuffix : option string)
    (fnHandlerIsFunction bRegisterParent : bool) (w : World) :
  registry_consistent w ->
  let w' := final (registerResizeHandler sIdSuffix fnHandlerIsFunction bRegisterParent w) in
  registry_consistent w'
  /\ forall key h,
       sIdSuffix = Some key -> fnHandlerIsFunction = true ->
       handlerIdOf (w_table w) key = Some h -> w_live w' !! h = None.
Proof.
  intros Hw.
  destruct sIdSuffix as [key|]; [|split; [exact Hw|discriminate]].
  destruct fnHandlerIsFunction; [|split; [exact Hw|discriminate]].
  intros w'.
  assert (Hfinal : w' = final (registerResizeHandler (Some key) true bRegisterParent w))
    by reflexivity.
  clearbody w'. unfold registerResizeHandler in Hfinal.
  unfold bind at 1 in Hfinal. unfold getTable at 1 in Hfinal.
  cbv zeta in Hfinal. change (negb true) with false in Hfinal. cbv iota in Hfinal.
  rewrite final_bind in Hfinal.
  destruct (deregisterResizeHandler_string key w Hw)
    as (w1 & Hrun1 & Hw1 & Hkey & Hdead & Hnext1).
  rewrite Hrun1 in Hfinal.
  set (w2 := match tb_mResizeHandlerIds (w_table w1) with
             | Some _ => w1
             | None => with_table (set_mResizeHandlerIds (Some ∅) (w_table w1)) w1
             end).
  assert (Hstep2 : match tb_mResizeHandlerIds (w_table w1) with
                   | Some _ => ret tt
                   | None => modifyTable (set_mResizeHandlerIds (Some ∅))
                   end w1 = Ok tt w2).
  { subst w2. destruct (tb_mResizeHandlerIds (w_table w1)); reflexivity. }
  assert (Hid2 : forall k, handlerIdOf (w_table w2) k = handlerIdOf (w_table w1) k).
  { intros k. subst w2. unfold handlerIdOf.
    destruct (tb_mResizeHandlerIds (w_table w1)) eqn:Hm1;
      simpl; rewrite ?Hm1; reflexivity. }
  assert (Hmap2 : exists m, tb_mResizeHandlerIds (w_table w2) = Some m).
  { subst w2. destruct (tb_mResizeHandlerIds (w_table w1)) eqn:Hm1; simpl; eauto. }
  assert (Hlive2 : w_live w2 = w_live w1 /\ w_next w2 = w_next w1).
  { subst w2. destruct (tb_mResizeHandlerIds (w_table w1)); split; reflexivity. }
  destruct Hlive2 as [Hlive2 Hnext2].
  assert (Hw2 : registry_consistent w2).
  { destruct Hw1 as [Hc1 Hf1]. split.
    - intros h k. rewrite Hid2, Hlive2. apply Hc1.
    - intros h. rewrite Hlive2, Hnext2. apply Hf1. }
  clearbody w2.
  unfold bind at 1 in Hfinal. unfold getTable at 1 in Hfinal.
  rewrite final_bind, Hstep2, final_bind in Hfinal.
  destruct Hmap2 as [m2 Hm2].
  match type of Hfinal with
  | context [if ?b then _ else ret tt] => destruct b
  end.
  - unfold bind at 1 in Hfinal. unfold ResizeHandler_register at 1 in Hfinal.
    unfold modifyTable at 1 in Hfinal. unfold with_table in Hfinal.
    simpl in Hfinal. subst w'.
    destruct Hw2 as [Hc2 Hf2]. split; [split|]; simpl.
    + intros h k. rewrite (handlerIdOf_store _ m2) by exact Hm2.
      rewrite lookup_insert. repeat case_decide; subst.
      * split; reflexivity.
      * split; [congruence|]. intros Hk. apply Hc2 in Hk.
        assert (Hlt : (w_next w2 < w_next w2)%positive) by (apply Hf2; eauto).
        lia.
      * split; [|congruence]. intros Hl. apply Hc2 in Hl.
        rewrite Hid2 in Hl. congruence.
      * apply Hc2.
    + intros h [k Hl]. rewrite lookup_insert in Hl. case_decide; subst; [lia|].
      assert ((h < w_next w2)%positive) by (apply Hf2; eauto). lia.
    + intros key' h [= <-] _ Hh. rewrite lookup_insert. case_decide; subst.
      * exfalso. pose proof Hh as Hh'. apply Hw in Hh'.
        destruct Hw as [_ Hfw].
        assert (Hlt : (w_next w2 < w_next w)%positive) by (apply Hfw; eauto).
        lia.
      * rewrite Hlive2. apply Hdead. exact Hh.
  - simpl in Hfinal. subst w'. split; [exact Hw2|].
    intros key' h [= <-] _ Hh. rewrite Hlive2. apply Hdead. exact Hh.
Qed.

Lemma run_op_consistent (op : RegistryOp) (w : World) :
  registry_consistent w -> registry_consistent (run_op op w).
Proof.
  intros Hw. destruct op as [s f p|v|f]; simpl.
  - apply registerResizeHandler_consistent. exact Hw.
  - apply deregisterResizeHandler_consistent. exact Hw.
  - exact Hw.
Qed.

Lemma run_ops_consistent (ops : list RegistryOp) :
  forall w : World, registry_consistent w -> registry_consistent (run_ops ops w).
Proof.
  induction ops as [|op ops IH]; intros w Hw; [exact Hw|].
  simpl. apply IH. apply run_op_consistent. exact Hw.
Qed.

(** C9: from a world in which map and registry agree (in particular the
    initial one: no map, no live handle), after every sequence of
    registerResizeHandler and deregisterResizeHandler calls and renderings
    they still agree, so no suffix has two live handles; and a registration
    under a suffix that holds a handle ends that handle first. *)
Theorem resize_handlers_one_per_key (ops : list RegistryOp) (w : World) :
  registry_consistent w ->
  let w' := run_ops ops w in
  registry_consistent w'
  /\ (forall (key : string) (h1 h2 : Handle),
        w_live w' !! h1 = Some key -> w_live w' !! h2 = Some key -> h1 = h2)
  /\ (forall (key : string) (h : Handle) (bRegisterParent : bool),
        handlerIdOf (w_table w') key = Some h ->
        w_live (final (registerResizeHandler (Some key) true bRegisterParent w')) !! h
        = None).
Proof.
  intros Hw w'. assert (Hw' : registry_consistent w')
    by (apply run_ops_consistent; exact Hw).
  split; [exact Hw'|]. split.
  - intros key h1 h2 H1 H2. apply Hw' in H1. apply Hw' in H2. congruence.
  - intros key h p Hh.
    destruct (registerResizeHandler_consistent (Some key) true p w' Hw') as [_ Hdead].
    exact (Hdead key h eq_refl eq_refl Hh).
Qed.

Lemma resize_handlers_one_per_key_witness :
  let w' := run_ops [Op_register (Some "sb") true false;
                     Op_register (Some "sb") true true;
                     Op_deregister Suffix_undefined]
              world_cursor_2 in
  registry_consistent w'
  /\ (forall (key : string) (h1 h2 : Handle),
        w_live w' !! h1 = Some key -> w_live w' !! h2 = Some key -> h1 = h2)
  /\ (forall (key : string) (h : Handle) (bRegisterParent : bool),
        handlerIdOf (w_table w') key = Some h ->
        w_live (final (registerResizeHandler (Some key) true bRegisterParent w')) !! h
        = None).
Proof.
  apply (resize_handlers_one_per_key _ world_cursor_2).
  split; simpl.
  - intros h key. rewrite lookup_empty. split; discriminate.
  - intros h [key H]. rewrite lookup_empty in H. discriminate.
Defined.

(** Registering twice under one suffix: the second handle supersedes the
    first, which is no longer live. *)
Lemma register_twice_example :
  let w' := run_ops [Op_register (Some "sb") true false;
                     Op_register (Some "sb") true false] world_cursor_2 in
  handlerIdOf (w_table w') "sb" = Some 2%positive
  /\ w_live w' !! 1%positive = None
  /\ w_live w' !! 2%positive = Some "sb".
Proof. vm_compute. repeat split. Qed.

(** * Further properties *)

(** ** Resize handler registration: release, frame, idempotence *)

(** The loop of deregisterResizeHandler, without any assumption on the
    world: it returns, clears the suffixes it goes through and leaves every
    other suffix as it is. *)
Lemma deregisterEach_frame (l : list string) :
  forall w : World,
  exists w',
    deregisterEach l w = Ok tt w'
    /\ (forall key, key ∈ l -> handlerIdOf (w_table w') key = None)
    /\ (forall key, key ∉ l ->
          handlerIdOf (w_table w') key = handlerIdOf (w_table w) key)
    /\ (forall key, handlerIdOf (w_table w) key = None ->
          handlerIdOf (w_table w') key = None)
    /\ w_next w' = w_next w.
Proof.
  induction l as [|k rest IH]; intros w.
  - exists w. split; [reflexivity|]. split; [intros key Hin; inversion Hin|].
    repeat split; auto.
  - simpl. run. destruct (handlerIdOf (w_table w) k) as [h|] eqn:Hk; simpl.
    + unfold ResizeHandler_deregister. simpl.
      destruct (handlerIdOf_Some_map _ _ _ Hk) as [m Hm].
      match goal with
      | |- context [deregisterEach rest ?w0] =>
          destruct (IH w0) as (w' & Hrun & Hgone & Hframe & Hnone & Hnext)
      end.
      simpl in Hframe, Hnone, Hnext.
      assert (Hk' : handlerIdOf (w_table w') k = None).
      { apply Hnone. rewrite (handlerIdOf_store _ m) by exact Hm.
        rewrite decide_True by reflexivity. reflexivity. }
      exists w'. split; [exact Hrun|]. split; [|split; [|split; [|exact Hnext]]].
      * intros key Hin. apply elem_of_cons in Hin as [->|Hin]; auto.
      * intros key Hin. apply not_elem_of_cons in Hin as [Hne Hin].
        rewrite (Hframe key Hin). rewrite (handlerIdOf_store _ m) by exact Hm.
        rewrite decide_False by congruence. reflexivity.
      * intros key Hkey. apply Hnone. rewrite (handlerIdOf_store _ m) by exact Hm.
        case_decide; [reflexivity|exact Hkey].
    + destruct (IH w) as (w' & Hrun & Hgone & Hframe & Hnone & Hnext).
      exists w'. split; [exact Hrun|]. split; [|split; [|split; [|exact Hnext]]].
      * intros key Hin. apply elem_of_cons in Hin as [->|Hin]; auto.
      * intros key Hin. apply not_elem_of_cons in Hin as [Hne Hin]. auto.
      * exact Hnone.
Qed.

(** Where no suffix of the list holds a handle the loop does nothing. *)
Lemma deregisterEach_nothing (l : list string) (w : World) :
  (forall key, key ∈ l -> handlerIdOf (w_table w) key = None) ->
  deregisterEach l w = Ok tt w.
Proof.
  induction l as [|k rest IH]; intros Hnone; [reflexivity|].
  simpl. run. rewrite (Hnone k) by (left). simpl.
  apply IH. intros key Hin. apply Hnone. right. exact Hin.
Qed.

Lemma handlerIdOf_not_key (t : Table) (m : gmap string (option Handle)) (key : string) :
  tb_mResizeHandlerIds t = Some m ->
  key ∉ (map_to_list m).*1 -> handlerIdOf t key = None.
Proof.
  intros Hm Hkey. unfold handlerIdOf. rewrite Hm. simpl.
  destruct (m !! key) as [v|] eqn:Hv; [|reflexivity].
  exfalso. apply Hkey. apply list_elem_of_fmap. exists (key, v).
  split; [reflexivity|]. apply elem_of_map_to_list. exact Hv.
Qed.

(** After a call with an undefined suffix no suffix holds a handle. *)
Lemma deregisterResizeHandler_all_clears (w : World) :
  exists w',
    deregisterResizeHandler Suffix_undefined w = Ok tt w'
    /\ (forall key, handlerIdOf (w_table w') key = None)
    /\ w_next w' = w_next w.
Proof.
  unfold deregisterResizeHandler. unfold bind at 1. unfold getTable at 1.
  destruct (tb_mResizeHandlerIds (w_table w)) as [m|] eqn:Hm.
  - destruct (deregisterEach_frame (map_to_list m).*1 w)
      as (w' & Hrun & Hgone & Hframe & Hnone & Hnext).
    exists w'. split; [exact Hrun|]. split; [|exact Hnext].
    intros key. destruct (decide (key ∈ (map_to_list m).*1)) as [Hin|Hout]; [auto|].
    apply Hnone. eapply handlerIdOf_not_key; eauto.
  - exists w. split; [reflexivity|]. split; [|reflexivity].
    intros key. unfold handlerIdOf. rewrite Hm. reflexivity.
Qed.

(** X1: when map and registry agree, deregisterResizeHandler without a
    suffix returns, leaves no handle in the map and no live handle in the
    registry: a teardown releases everything. *)
Theorem deregisterResizeHandler_all_releases (w : World) :
  registry_consistent w ->
  exists w',
    deregisterResizeHandler Suffix_undefined w = Ok tt w'
    /\ w_live w' = ∅
    /\ (forall key, handlerIdOf (w_table w') key = None)
    /\ registry_consistent w'.
Proof.
  intros Hw. destruct (deregisterResizeHandler_all_clears w) as (w' & Hrun & Hnone & _).
  assert (Hw' : registry_consistent w').
  { pose proof (deregisterResizeHandler_consistent Suffix_undefined w Hw) as H.
    rewrite Hrun in H. exact H. }
  exists w'. split; [exact Hrun|]. split; [|split; [exact Hnone|exact Hw']].
  apply map_eq. intros h. rewrite lookup_empty.
  destruct (w_live w' !! h) as [key|] eqn:Hl; [|reflexivity].
  apply Hw' in Hl. rewrite Hnone in Hl. discriminate.
Qed.

Lemma initial_world_consistent (t : Table) :
  tb_mResizeHandlerIds t = None -> registry_consistent (world t).
Proof.
  intros Hm. split; simpl.
  - intros h key. rewrite lookup_empty. unfold handlerIdOf. rewrite Hm.
    split; discriminate.
  - intros h [key H]. rewrite lookup_empty in H. discriminate.
Qed.

Lemma deregisterResizeHandler_all_releases_witness :
  let w := run_ops [Op_register (Some "sb") true false;
                    Op_register (Some "hsb") true true] world_cursor_2 in
  w_live w <> ∅
  /\ exists w',
      deregisterResizeHandler Suffix_undefined w = Ok tt w'
      /\ w_live w' = ∅
      /\ (forall key, handlerIdOf (w_table w') key = None)
      /\ registry_consistent w'.
Proof.
  cbv zeta. split.
  - intros H. apply (f_equal (fun m => m !! 1%positive)) in H.
    vm_compute in H. discriminate.
  - apply deregisterResizeHandler_all_releases.
    apply run_ops_consistent. apply initial_world_consistent. reflexivity.
Defined.

(** X2: a registration with a string suffix and a function, for a region
    that has a DOM element (and a parent node, when the parent is asked
    for), returns a handle that was not live before; afterwards it is live
    for that suffix and stored under it, and every other suffix holds what
    it held. *)
Theorem registerResizeHandler_registers (w : World) (key : string)
    (bRegisterParent hasParent : bool) :
  cfg_domRef (tb_cfg (w_table w)) key = Some hasParent ->
  (bRegisterParent = true -> hasParent = true) ->
  registry_consistent w ->
  exists w',
    registerResizeHandler (Some key) true bRegisterParent w = Ok (Some (w_next w)) w'
    /\ w_live w !! w_next w = None
    /\ w_live w' !! w_next w = Some key
    /\ handlerIdOf (w_table w') key = Some (w_next w)
    /\ (forall key', key' <> key ->
          handlerIdOf (w_table w') key' = handlerIdOf (w_table w) key').
Proof.
  intros Hdom Hparent Hw. unfold registerResizeHandler.
  unfold bind at 1. unfold getTable at 1. cbv zeta. rewrite Hdom.
  change (negb true) with false. cbv iota.
  unfold bind at 1. unfold deregisterResizeHandler.
  unfold bind at 1. unfold getTable at 1.
  assert (Hfresh : w_live w !! w_next w = None).
  { destruct (w_live w !! w_next w) eqn:Hl; [|reflexivity].
    destruct Hw as [_ Hf]. assert ((w_next w < w_next w)%positive) by (apply Hf; eauto).
    lia. }
  assert (Hyes : (if bRegisterParent then hasParent else true) = true).
  { destruct bRegisterParent; [apply Hparent|]; reflexivity. }
  rewrite Hyes.
  assert (Hdereg : exists w1,
    match tb_mResizeHandlerIds (w_table w) with
    | Some m => (l <- deref (Some [key]);; deregisterEach l)
    | None => ret tt
    end w = Ok tt w1
    /\ (forall key', key' <> key ->
          handlerIdOf (w_table w1) key' = handlerIdOf (w_table w) key')
    /\ w_next w1 = w_next w
    /\ (forall h, w_live w1 !! h = None \/ w_live w1 !! h = w_live w !! h)).
  { destruct (tb_mResizeHandlerIds (w_table w)) as [m|] eqn:Hm.
    - destruct (deregisterEach_frame [key] w) as (w1 & Hrun & _ & Hframe & _ & Hnext).
      destruct (deregisterEach_consistent [key] w Hw) as (w1' & Hrun' & _ & _ & _ & _ & Hl).
      assert (w1' = w1) by congruence. subst w1'.
      exists w1. split; [exact Hrun|]. split; [|split; [exact Hnext|exact Hl]].
      intros key' Hne. apply Hframe. set_solver.
    - exists w. split; [reflexivity|]. repeat split; auto. }
  destruct Hdereg as (w1 & -> & Hframe1 & Hnext1 & Hlive1).
  unfold bind at 1. unfold getTable at 1.
  destruct (tb_mResizeHandlerIds (w_table w1)) as [m1|] eqn:Hm1.
  - run. unfold ResizeHandler_register. simpl. rewrite Hnext1.
    rewrite (handlerIdOf_store _ m1) by exact Hm1.
    rewrite decide_True by reflexivity.
    eexists. split; [reflexivity|]. simpl.
    split; [exact Hfresh|]. split; [apply lookup_insert_eq|].
    split.
    + rewrite (handlerIdOf_store _ m1) by exact Hm1.
      rewrite decide_True by reflexivity. reflexivity.
    + intros key' Hne. rewrite (handlerIdOf_store _ m1) by exact Hm1.
      rewrite decide_False by congruence. apply Hframe1. exact Hne.
  - run. unfold ResizeHandler_register. simpl. rewrite Hnext1.
    assert (Hempty : forall key',
      handlerIdOf (set_mResizeHandlerIds (Some ∅) (w_table w1)) key'
      = handlerIdOf (w_table w1) key').
    { intros key'. unfold handlerIdOf. simpl. rewrite Hm1. simpl.
      rewrite lookup_empty. reflexivity. }
    rewrite (handlerIdOf_store _ ∅) by reflexivity.
    rewrite decide_True by reflexivity.
    eexists. split; [reflexivity|]. simpl.
    split; [exact Hfresh|]. split; [apply lookup_insert_eq|].
    split.
    + rewrite (handlerIdOf_store _ ∅) by reflexivity.
      rewrite decide_True by reflexivity. reflexivity.
    + intros key' Hne. rewrite (handlerIdOf_store _ ∅) by reflexivity.
      rewrite decide_False by congruence. rewrite Hempty. apply Hframe1. exact Hne.
Qed.

Lemma registerResizeHandler_registers_witness :
  exists w',
    registerResizeHandler (Some "sb") true true world_cursor_2 = Ok (Some 1%positive) w'
    /\ w_live world_cursor_2 !! 1%positive = None
    /\ w_live w' !! 1%positive = Some "sb"
    /\ handlerIdOf (w_table w') "sb" = Some 1%positive
    /\ (forall key', key' <> "sb" ->
          handlerIdOf (w_table w') key' = handlerIdOf (w_table world_cursor_2) key').
Proof.
  apply (registerResizeHandler_registers world_cursor_2 "sb" true true).
  - reflexivity.
  - reflexivity.
  - apply initial_world_consistent. reflexivity.
Defined.

(** X3: a registration for a region that has no DOM element (or no parent
    node, when the parent is asked for) returns undefined; the suffix then
    holds no handle, and the handle it held before is no longer live. *)
Theorem registerResizeHandler_without_dom (w : World) (key : string)
    (bRegisterParent : bool) :
  cfg_domRef (tb_cfg (w_table w)) key = None
  \/ (bRegisterParent = true /\ cfg_domRef (tb_cfg (w_table w)) key = Some false) ->
  registry_consistent w ->
  exists w',
    registerResizeHandler (Some key) true bRegisterParent w = Ok None w'
    /\ handlerIdOf (w_table w') key = None
    /\ (forall h, handlerIdOf (w_table w) key = Some h -> w_live w' !! h = None)
    /\ registry_consistent w'.
Proof.
  intros Hdom Hw. unfold registerResizeHandler.
  unfold bind at 1. unfold getTable at 1. cbv zeta.
  change (negb true) with false. cbv iota.
  assert (Hno : match cfg_domRef (tb_cfg (w_table w)) key with
                | Some hasParent => if bRegisterParent then hasParent else true
                | None => false
                end = false).
  { destruct Hdom as [->|[-> ->]]; reflexivity. }
  rewrite Hno.
  destruct (deregisterResizeHandler_string key w Hw)
    as (w1 & Hrun1 & Hw1 & Hkey & Hdead & Hnext1).
  unfold bind at 1. rewrite Hrun1.
  unfold bind at 1. unfold getTable at 1.
  destruct (tb_mResizeHandlerIds (w_table w1)) as [m1|] eqn:Hm1.
  - run. rewrite Hkey. exists w1. repeat split; try assumption; apply Hw1.
  - run. unfold handlerIdOf at 1. simpl. rewrite lookup_empty. simpl.
    eexists. split; [reflexivity|]. simpl.
    assert (Hsame : forall k,
      handlerIdOf (set_mResizeHandlerIds (Some ∅) (w_table w1)) k
      = handlerIdOf (w_table w1) k).
    { intros k. unfold handlerIdOf. simpl. rewrite Hm1. simpl.
      rewrite lookup_empty. reflexivity. }
    split; [rewrite Hsame; exact Hkey|]. split; [exact Hdead|].
    destruct Hw1 as [Hc1 Hf1]. split; simpl.
    + intros h k. rewrite Hsame. apply Hc1.
    + exact Hf1.
Qed.

Lemma registerResizeHandler_without_dom_witness :
  let w := with_table (with_domRef (fun _ => None) (w_table world_cursor_2)) world_cursor_2 in
  exists w',
    registerResizeHandler (Some "sb") true false w = Ok None w'
    /\ handlerIdOf (w_table w') "sb" = None
    /\ (forall h, handlerIdOf (w_table w) "sb" = Some h -> w_live w' !! h = None)
    /\ registry_consistent w'.
Proof.
  apply registerResizeHandler_without_dom.
  - left. reflexivity.
  - apply initial_world_consistent. reflexivity.
Defined.

(** X4: deregistering a list of suffixes (a single suffix is the list of
    that suffix) leaves every suffix outside the list with its handle, and
    that handle stays live. *)
Theorem deregisterResizeHandler_frame (w : World) (l : list string) (key' : string)
    (h : Handle) :
  registry_consistent w ->
  key' ∉ l ->
  handlerIdOf (w_table w) key' = Some h ->
  exists w',
    deregisterResizeHandler (Suffix_array l) w = Ok tt w'
    /\ handlerIdOf (w_table w') key' = Some h
    /\ w_live w' !! h = Some key'
    /\ (forall key, key ∈ l -> handlerIdOf (w_table w') key = None)
    /\ (forall s, deregisterResizeHandler (Suffix_string s) w
                  = deregisterResizeHandler (Suffix_array [s]) w).
Proof.
  intros Hw Hout Hh. unfold deregisterResizeHandler at 1.
  unfold bind at 1. unfold getTable at 1.
  destruct (handlerIdOf_Some_map _ _ _ Hh) as [m Hm]. rewrite Hm.
  destruct (deregisterEach_frame l w) as (w' & Hrun & Hgone & Hframe & _ & _).
  pose proof (deregisterEach_final_consistent l w Hw) as Hw'.
  rewrite Hrun in Hw'. simpl in Hw'.
  exists w'. split; [exact Hrun|].
  assert (Hh' : handlerIdOf (w_table w') key' = Some h)
    by (rewrite Hframe; assumption).
  split; [exact Hh'|]. split; [apply Hw'; exact Hh'|].
  split; [exact Hgone|]. reflexivity.
Qed.

Lemma deregisterResizeHandler_frame_witness :
  let w := run_ops [Op_register (Some "sb") true false;
                    Op_register (Some "hsb") true true] world_cursor_2 in
  exists w',
    deregisterResizeHandler (Suffix_array ["sb"]) w = Ok tt w'
    /\ handlerIdOf (w_table w') "hsb" = Some 2%positive
    /\ w_live w' !! 2%positive = Some "hsb"
    /\ (forall key, key ∈ ["sb"] -> handlerIdOf (w_table w') key = None)
    /\ (forall s, deregisterResizeHandler (Suffix_string s) w
                  = deregisterResizeHandler (Suffix_array [s]) w).
Proof.
  apply deregisterResizeHandler_frame.
  - apply run_ops_consistent. apply initial_world_consistent. reflexivity.
  - intros Hin. apply elem_of_cons in Hin as [Hin|Hin]; [discriminate|inversion Hin].
  - reflexivity.
Defined.

Lemma deregisterResizeHandler_array_clears (l : list string) (w : World) :
  exists w1,
    deregisterResizeHandler (Suffix_array l) w = Ok tt w1
    /\ (forall key, key ∈ l -> handlerIdOf (w_table w1) key = None).
Proof.
  unfold deregisterResizeHandler. unfold bind at 1. unfold getTable at 1.
  destruct (tb_mResizeHandlerIds (w_table w)) as [m|] eqn:Hm.
  - destruct (deregisterEach_frame l w) as (w1 & Hrun & Hgone & _).
    exists w1. split; [exact Hrun|exact Hgone].
  - exists w. split; [reflexivity|]. intros key _.
    unfold handlerIdOf. rewrite Hm. reflexivity.
Qed.

Lemma deregisterResizeHandler_array_nothing (l : list string) (w : World) :
  (forall key, key ∈ l -> handlerIdOf (w_table w) key = None) ->
  deregisterResizeHandler (Suffix_array l) w = Ok tt w.
Proof.
  intros Hnone. unfold deregisterResizeHandler. unfold bind at 1. unfold getTable at 1.
  destruct (tb_mResizeHandlerIds (w_table w)); [|reflexivity].
  change (deregisterEach l w = Ok tt w). apply deregisterEach_nothing. exact Hnone.
Qed.

Lemma deregisterResizeHandler_string_array (s : string) (w : World) :
  deregisterResizeHandler (Suffix_string s) w
  = deregisterResizeHandler (Suffix_array [s]) w.
Proof. reflexivity. Qed.

(** X5: deregisterResizeHandler is idempotent: whatever the argument and
    the world, a second call with the same argument leaves the world the
    first call left. *)
Theorem deregisterResizeHandler_idempotent (vIdSuffix : IdSuffixArg) (w : World) :
  final (deregisterResizeHandler vIdSuffix (final (deregisterResizeHandler vIdSuffix w)))
  = final (deregisterResizeHandler vIdSuffix w).
Proof.
  destruct vIdSuffix as [s| |l|].
  - rewrite !deregisterResizeHandler_string_array.
    destruct (deregisterResizeHandler_array_clears [s] w) as (w1 & Hrun & Hnone).
    rewrite Hrun. simpl final.
    rewrite deregisterResizeHandler_array_nothing by exact Hnone. reflexivity.
  - destruct (deregisterResizeHandler_all_clears w) as (w1 & Hrun & Hnone & _).
    rewrite Hrun. simpl final.
    unfold deregisterResizeHandler. unfold bind at 1. unfold getTable at 1.
    destruct (tb_mResizeHandlerIds (w_table w1)) as [m1|]; [|reflexivity].
    change (final (deregisterEach (map_to_list m1).*1 w1) = w1).
    rewrite deregisterEach_nothing by (intros; apply Hnone). reflexivity.
  - destruct (deregisterResizeHandler_array_clears l w) as (w1 & Hrun & Hnone).
    rewrite Hrun. simpl final.
    rewrite deregisterResizeHandler_array_nothing by exact Hnone. reflexivity.
  - unfold deregisterResizeHandler. run.
    destruct (tb_mResizeHandlerIds (w_table w)) as [m|] eqn:Hm; simpl;
      rewrite Hm; reflexivity.
Qed.

(** ** Scrolling: round trip, return value, composition *)

(** X6: a single step and the step back undo each other.  When the table
    reads in-bounds cursors as they are, the cursor lies in
    [0, rowCount - visibleRowCount] and the first step has room to move,
    [scroll] in one direction returns true and moves the cursor by one,
    and [scroll] in the other direction returns true and restores the
    world. *)
Theorem scroll_step_and_back (w : World) (bDown : bool) :
  let t := w_table w in
  let f := tb_firstVisibleRow t in
  (forall i, 0 <= i <= _getRowCount t - getVisibleRowCount t ->
             cfg_sanitize (tb_cfg t) i = i) ->
  0 <= f <= _getRowCount t - getVisibleRowCount t ->
  (if bDown then f < _getRowCount t - getVisibleRowCount t else 0 < f) ->
  exists w1,
    scroll oTable bDown false w = Ok true w1
    /\ tb_firstVisibleRow (w_table w1) = (if bDown then f + 1 else f - 1)
    /\ scroll oTable (negb bDown) false w1 = Ok true w.
Proof.
  destruct w as [t fired live next log].
  destruct t as [cfg cs sel src f ids menu]. simpl.
  intros Hsan Hin Hroom. unfold scroll. run.
  unfold _getSanitizedFirstVisibleRow, _getRowCount, getVisibleRowCount in *. simpl in *.
  rewrite (Hsan f) by lia.
  destruct bDown; simpl.
  - destruct (Z.ltb_spec (f + cfg_visibleRowCount cfg) (cfg_rowCount cfg)); [|lia].
    eexists. split; [reflexivity|]. simpl.
    replace (Z.min (f + 1) (cfg_rowCount cfg - cfg_visibleRowCount cfg)) with (f + 1) by lia.
    split; [reflexivity|]. rewrite (Hsan (f + 1)) by lia.
    destruct (Z.ltb_spec 0 (f + 1)); [|lia].
    unfold setFirstVisibleRow. simpl.
    replace (Z.max (f + 1 - 1) 0) with f by lia. reflexivity.
  - destruct (Z.ltb_spec 0 f); [|lia].
    eexists. split; [reflexivity|]. simpl.
    replace (Z.max (f - 1) 0) with (f - 1) by lia.
    split; [reflexivity|]. rewrite (Hsan (f - 1)) by lia.
    destruct (Z.ltb_spec (f - 1 + cfg_visibleRowCount cfg) (cfg_rowCount cfg)); [|lia].
    unfold setFirstVisibleRow. simpl.
    replace (Z.min (f - 1 + 1) (cfg_rowCount cfg - cfg_visibleRowCount cfg)) with f by lia.
    reflexivity.
Qed.

Lemma scroll_step_and_back_witness :
  exists w1,
    scroll oTable true false world_cursor_2 = Ok true w1
    /\ tb_firstVisibleRow (w_table w1) = 2 + 1
    /\ scroll oTable false false w1 = Ok true world_cursor_2.
Proof.
  apply (scroll_step_and_back world_cursor_2 true).
  - intros i _. reflexivity.
  - vm_compute. split; discriminate.
  - vm_compute. reflexivity.
Defined.

(** X7: with a positive step size (a single step, or a page when the fixed
    rows are fewer than the visible rows) and a sanitized cursor in
    [0, rowCount - visibleRowCount], [scroll] returns true exactly when the
    cursor changed; a call that returns false changes nothing, and the
    cursor never moves against the requested direction. *)
Theorem scroll_true_iff_moved (w : World) (bDown bPage : bool) :
  let t := w_table w in
  let f := tb_firstVisibleRow t in
  _getSanitizedFirstVisibleRow t = f ->
  0 <= f <= _getRowCount t - getVisibleRowCount t ->
  (bPage = true ->
   getFixedRowCount t + getFixedBottomRowCount t < getVisibleRowCount t) ->
  exists b w',
    scroll oTable bDown bPage w = Ok b w'
    /\ (b = true <-> tb_firstVisibleRow (w_table w') <> f)
    /\ (b = false -> w' = w)
    /\ (if bDown then f <= tb_firstVisibleRow (w_table w')
        else tb_firstVisibleRow (w_table w') <= f).
Proof.
  intros t f Hsan Hin Hpage. unfold scroll. run. fold t. rewrite Hsan.
  assert (Hsize : 0 < (if bPage
                       then getVisibleRowCount t - getFixedRowCount t
                            - getFixedBottomRowCount t
                       else 1)).
  { destruct bPage; [specialize (Hpage eq_refl)|]; lia. }
  destruct bDown.
  - destruct (Z.ltb_spec (f + getVisibleRowCount t) (_getRowCount t)).
    + eexists _, _. split; [reflexivity|]. simpl.
      split; [split; [intros _; lia|reflexivity]|]. split; [discriminate|lia].
    + exists false, w. split; [reflexivity|]. fold t. fold f.
      split; [split; [discriminate|congruence]|]. split; [reflexivity|lia].
  - destruct (Z.ltb_spec 0 f).
    + eexists _, _. split; [reflexivity|]. simpl.
      split; [split; [intros _; lia|reflexivity]|]. split; [discriminate|lia].
    + exists false, w. split; [reflexivity|]. fold t. fold f.
      split; [split; [discriminate|congruence]|]. split; [reflexivity|lia].
Qed.

Lemma scroll_true_iff_moved_witness :
  exists b w',
    scroll oTable true true world_cursor_2 = Ok b w'
    /\ (b = true <-> tb_firstVisibleRow (w_table w') <> 2)
    /\ (b = false -> w' = world_cursor_2)
    /\ 2 <= tb_firstVisibleRow (w_table w').
Proof.
  apply (scroll_true_iff_moved world_cursor_2 true true).
  - reflexivity.
  - vm_compute. split; discriminate.
  - intros _. vm_compute. reflexivity.
Defined.

(** X8: after [scrollMax] there is nothing left to scroll in that
    direction.  For a sanitized cursor between 0 and
    rowCount - nonEmptyVisibleRowCount, and a table that reads the extreme
    position as it is, a [scroll] in the same direction, by step or by
    page, and a second [scrollMax] return false and change nothing. *)
Theorem scroll_after_scrollMax (w : World) (bDown : bool) :
  let t := w_table w in
  let target := if bDown then _getRowCount t - getNonEmptyVisibleRowCount t else 0 in
  _getSanitizedFirstVisibleRow t = tb_firstVisibleRow t ->
  0 <= tb_firstVisibleRow t <= _getRowCount t - getNonEmptyVisibleRowCount t ->
  cfg_sanitize (tb_cfg t) target = target ->
  exists b w1,
    scrollMax oTable bDown w = Ok b w1
    /\ tb_firstVisibleRow (w_table w1) = target
    /\ (forall bPage, scroll oTable bDown bPage w1 = Ok false w1)
    /\ scrollMax oTable bDown w1 = Ok false w1.
Proof.
  intros t target Hsan Hin Htarget.
  assert (Hat : forall w1,
    tb_cfg (w_table w1) = tb_cfg t -> tb_firstVisibleRow (w_table w1) = target ->
    (forall bPage, scroll oTable bDown bPage w1 = Ok false w1)
    /\ scrollMax oTable bDown w1 = Ok false w1).
  { intros w1 Hcfg Hcur. split; [intros bPage|]; unfold scroll, scrollMax; run;
      unfold _getSanitizedFirstVisibleRow, _getRowCount, getVisibleRowCount,
        getNonEmptyVisibleRowCount, _getRowCount, getVisibleRowCount in *;
      rewrite Hcfg, Hcur, Htarget; subst target; destruct bDown;
      repeat match goal with
             | |- context [?a <? ?b] => destruct (Z.ltb_spec a b); try lia
             end; reflexivity. }
  unfold scrollMax. run. fold t. rewrite Hsan. subst target. destruct bDown.
  - destruct (Z.ltb_spec (tb_firstVisibleRow t)
                (_getRowCount t - getNonEmptyVisibleRowCount t)).
    + eexists _, _. split; [reflexivity|]. simpl. split; [reflexivity|].
      apply Hat; reflexivity.
    + exists false, w. split; [reflexivity|]. fold t.
      assert (Heq : tb_firstVisibleRow t = _getRowCount t - getNonEmptyVisibleRowCount t)
        by lia.
      split; [exact Heq|]. apply Hat; [reflexivity|exact Heq].
  - destruct (Z.ltb_spec 0 (tb_firstVisibleRow t)).
    + eexists _, _. split; [reflexivity|]. simpl. split; [reflexivity|].
      apply Hat; reflexivity.
    + exists false, w. split; [reflexivity|]. fold t.
      assert (Heq : tb_firstVisibleRow t = 0) by lia.
      split; [exact Heq|]. apply Hat; [reflexivity|exact Heq].
Qed.

Lemma scroll_after_scrollMax_witness :
  exists b w1,
    scrollMax oTable true world_cursor_2 = Ok b w1
    /\ tb_firstVisibleRow (w_table w1) = 5
    /\ (forall bPage, scroll oTable true bPage w1 = Ok false w1)
    /\ scrollMax oTable true w1 = Ok false w1.
Proof.
  apply (scroll_after_scrollMax world_cursor_2 true).
  - reflexivity.
  - vm_compute. split; discriminate.
  - reflexivity.
Defined.

(** ** Selection: effect of a toggle, forced states, element indicators *)

(** What setSelectionState does, for every forced state. *)
Lemma setSelectionState_effect (w : World) (i : Z) (bSelect : option bool) :
  let sel := tb_selected (w_table w) in
  let bWas := isIndexSelected (w_table w) i in
  let bChange :=
    match bSelect with
    | Some true => negb bWas
    | Some false => bWas
    | None => true
    end in
  exists w',
    setSelectionState bSelect i w = Ok bChange w'
    /\ tb_selected (w_table w')
       = (if bChange then (if bWas then sel ∖ {[ i ]} else sel ∪ {[ i ]}) else sel)
    /\ tb_iSourceRowIndex (w_table w') = (if bChange then None else Some i)
    /\ tb_cfg (w_table w') = tb_cfg (w_table w)
    /\ tb_columns (w_table w') = tb_columns (w_table w)
    /\ tb_firstVisibleRow (w_table w') = tb_firstVisibleRow (w_table w)
    /\ w_fired w' = w_fired w.
Proof.
  cbv zeta. unfold setSelectionState. run.
  change (isIndexSelected (set_iSourceRowIndex (Some i) (w_table w)) i)
    with (isIndexSelected (w_table w) i).
  destruct (isIndexSelected (w_table w) i); destruct bSelect as [[]|]; simpl;
    (eexists; split; [reflexivity|]; simpl; rewrite ?interval_single;
     repeat split; reflexivity).
Qed.

(** X9: a toggle by a row index in range, on a bound table with selection
    enabled, touches the selection at that index only: every other index
    keeps its state, a forced state holds afterwards, and the call returns
    true exactly when the index changed sides. *)
Theorem toggleRowSelection_number_effect (w : World) (i : Z) (bSelect : option bool) :
  getSelectionMode (w_table w) <> SelectionMode_None ->
  cfg_hasBinding (tb_cfg (w_table w)) = true ->
  0 <= i < _getRowCount (w_table w) ->
  exists b w',
    toggleRowSelection oTable (Indicator_number i) bSelect w = Ok b w'
    /\ (forall j, j <> i ->
          (j ∈ tb_selected (w_table w') <-> j ∈ tb_selected (w_table w)))
    /\ (b = true <->
        ~ (i ∈ tb_selected (w_table w') <-> i ∈ tb_selected (w_table w)))
    /\ (bSelect = Some true -> i ∈ tb_selected (w_table w'))
    /\ (bSelect = Some false -> i ∉ tb_selected (w_table w'))
    /\ (bSelect = None -> b = true).
Proof.
  intros Hmode Hbind Hi. rewrite toggleRowSelection_number by assumption.
  destruct (setSelectionState_effect w i bSelect) as (w' & Hrun & Hsel & _).
  eexists _, w'. split; [exact Hrun|]. rewrite Hsel. clear Hrun Hsel.
  destruct (isIndexSelected (w_table w) i) eqn:Hs;
    [apply isIndexSelected_true in Hs|apply isIndexSelected_false in Hs];
    destruct bSelect as [[]|]; simpl;
    repeat split; intros; try discriminate; try reflexivity;
    try (exfalso; tauto); try set_solver.
Qed.

Lemma toggleRowSelection_number_effect_witness :
  exists b w',
    toggleRowSelection oTable (Indicator_number 1) (Some true) world_cursor_2 = Ok b w'
    /\ (forall j, j <> 1 ->
          (j ∈ tb_selected (w_table w') <-> j ∈ tb_selected (w_table world_cursor_2)))
    /\ (b = true <->
        ~ (1 ∈ tb_selected (w_table w') <-> 1 ∈ tb_selected (w_table world_cursor_2)))
    /\ (Some true = Some true -> 1 ∈ tb_selected (w_table w'))
    /\ (Some true = Some false -> 1 ∉ tb_selected (w_table w'))
    /\ (Some true = None -> b = true).
Proof.
  apply (toggleRowSelection_number_effect world_cursor_2 1 (Some true)).
  - discriminate.
  - reflexivity.
  - vm_compute. split; [discriminate|reflexivity].
Defined.

(** X10: the marker _iSourceRowIndex.  A toggle by a row index in range
    sets it to the index; it is deleted again when the selection was
    changed, and it stays set when the forced state already held and the
    call returns false. *)
Theorem toggleRowSelection_source_marker (w : World) (i : Z) (bSelect : option bool) :
  getSelectionMode (w_table w) <> SelectionMode_None ->
  cfg_hasBinding (tb_cfg (w_table w)) = true ->
  0 <= i < _getRowCount (w_table w) ->
  exists b w',
    toggleRowSelection oTable (Indicator_number i) bSelect w = Ok b w'
    /\ tb_iSourceRowIndex (w_table w') = (if b then None else Some i)
    /\ (b = false <->
        bSelect = Some (isIndexSelected (w_table w) i)).
Proof.
  intros Hmode Hbind Hi. rewrite toggleRowSelection_number by assumption.
  destruct (setSelectionState_effect w i bSelect) as (w' & Hrun & _ & Hsrc & _).
  eexists _, w'. split; [exact Hrun|]. split; [exact Hsrc|].
  destruct (isIndexSelected (w_table w) i); destruct bSelect as [[]|]; simpl;
    split; congruence.
Qed.

Lemma toggleRowSelection_source_marker_witness :
  exists b w',
    toggleRowSelection oTable (Indicator_number 1) (Some false) world_cursor_2 = Ok b w'
    /\ tb_iSourceRowIndex (w_table w') = (if b then None else Some 1)
    /\ (b = false <->
        Some false = Some (isIndexSelected (w_table world_cursor_2) 1)).
Proof.
  apply (toggleRowSelection_source_marker world_cursor_2 1 (Some false)).
  - discriminate.
  - reflexivity.
  - vm_compute. split; [discriminate|reflexivity].
Defined.

(** The row index attribute an element indicator is resolved with: of the
    closest table row for a data cell, of the cell itself for a row
    header. *)
Lemma toggleRowSelection_element (w : World) (cell : option DomElem) (ty : CELLTYPES)
    (bSelect : option bool) :
  getSelectionMode (w_table w) <> SelectionMode_None ->
  cfg_hasBinding (tb_cfg (w_table w)) = true ->
  getCellInfo cell = Some ty ->
  isInGroupingRow cell = false ->
  (ty = DATACELL /\ isRowSelectionAllowed (w_table w) = true
   \/ ty = ROWHEADER /\ isRowSelectorSelectionAllowed (w_table w) = true) ->
  toggleRowSelection oTable (Indicator_element cell) bSelect w
  = (oRow <- deref (js_index (getRows (w_table w))
                      (parseInt (if bool_decide (ty = DATACELL)
                                 then e ← cell; tr ← closest is_tr e;
                                      node_rowindex (el_node tr)
                                 else e ← cell; node_rowindex (el_node e)))) ;;
     setSelectionState bSelect (row_index oRow)) w.
Proof.
  intros Hmode Hbind Hty Hgroup Hallowed. unfold toggleRowSelection.
  unfold bind at 1. unfold getTable at 1. rewrite Hbind.
  rewrite bool_decide_eq_false_2 by exact Hmode. simpl orb. cbv iota.
  rewrite Hty, Hgroup.
  destruct Hallowed as [[-> Ha]|[-> Ha]]; rewrite Ha; reflexivity.
Qed.

(** X11: an element and a number indicate the same row.  For a data cell
    with row selection allowed, or a row header cell with row selector
    selection allowed, outside a grouping row, whose row index attribute
    names a rendered row with an absolute index in [0, rowCount), the
    toggle by the element is the toggle by that absolute index. *)
Theorem toggleRowSelection_element_as_number (w : World) (cell : option DomElem)
    (ty : CELLTYPES) (oRow : Row) (bSelect : option bool) :
  getSelectionMode (w_table w) <> SelectionMode_None ->
  cfg_hasBinding (tb_cfg (w_table w)) = true ->
  getCellInfo cell = Some ty ->
  isInGroupingRow cell = false ->
  (ty = DATACELL /\ isRowSelectionAllowed (w_table w) = true
   \/ ty = ROWHEADER /\ isRowSelectorSelectionAllowed (w_table w) = true) ->
  js_index (getRows (w_table w))
    (parseInt (if bool_decide (ty = DATACELL)
               then e ← cell; tr ← closest is_tr e; node_rowindex (el_node tr)
               else e ← cell; node_rowindex (el_node e)))
  = Some oRow ->
  0 <= row_index oRow < _getRowCount (w_table w) ->
  toggleRowSelection oTable (Indicator_element cell) bSelect w
  = toggleRowSelection oTable (Indicator_number (row_index oRow)) bSelect w.
Proof.
  intros Hmode Hbind Hty Hgroup Hallowed Hrow Hrange.
  rewrite (toggleRowSelection_element w cell ty) by assumption.
  rewrite toggleRowSelection_number by assumption.
  unfold bind. rewrite Hrow. reflexivity.
Qed.

Lemma toggleRowSelection_element_as_number_witness :
  toggleRowSelection oTable (Indicator_element (Some data_cell)) None (world_cells Row_)
  = toggleRowSelection oTable (Indicator_number 3) None (world_cells Row_).
Proof.
  apply (toggleRowSelection_element_as_number (world_cells Row_) (Some data_cell)
           DATACELL
           {| row_index := 3;
              row_cells := [{| cell_colid := "col"; cell_dom := Some cell_control |}] |}).
  - discriminate.
  - reflexivity.
  - reflexivity.
  - reflexivity.
  - left. split; reflexivity.
  - reflexivity.
  - vm_compute. split; [discriminate|reflexivity].
Defined.

(** X12: an element indicator can make toggleRowSelection throw.  For a
    selectable data cell or row header cell whose row index attribute is
    missing, not a number, or names no rendered row, the call throws a
    TypeError (getIndex of undefined) and has changed nothing. *)
Theorem toggleRowSelection_element_throws (w : World) (cell : option DomElem)
    (ty : CELLTYPES) (bSelect : option bool) :
  getSelectionMode (w_table w) <> SelectionMode_None ->
  cfg_hasBinding (tb_cfg (w_table w)) = true ->
  getCellInfo cell = Some ty ->
  isInGroupingRow cell = false ->
  (ty = DATACELL /\ isRowSelectionAllowed (w_table w) = true
   \/ ty = ROWHEADER /\ isRowSelectorSelectionAllowed (w_table w) = true) ->
  js_index (getRows (w_table w))
    (parseInt (if bool_decide (ty = DATACELL)
               then e ← cell; tr ← closest is_tr e; node_rowindex (el_node tr)
               else e ← cell; node_rowindex (el_node e)))
  = None ->
  toggleRowSelection oTable (Indicator_element cell) bSelect w = Throw TypeError w.
Proof.
  intros Hmode Hbind Hty Hgroup Hallowed Hrow.
  rewrite (toggleRowSelection_element w cell ty) by assumption.
  unfold bind. rewrite Hrow. reflexivity.
Qed.

Lemma toggleRowSelection_element_throws_witness :
  toggleRowSelection oTable
    (Indicator_element (Some {| el_node := data_cell_td; el_ancestors := [] |}))
    None (world_cells Row_)
  = Throw TypeError (world_cells Row_).
Proof.
  apply (toggleRowSelection_element_throws (world_cells Row_)
           (Some {| el_node := data_cell_td; el_ancestors := [] |}) DATACELL).
  - discriminate.
  - reflexivity.
  - reflexivity.
  - reflexivity.
  - left. split; reflexivity.
  - reflexivity.
Defined.

(** ** Cells in the DOM *)

Lemma closest_in_None (p : DomNode -> bool) (l : list DomNode) :
  closest_in p l = None <-> forall n, n ∈ l -> p n = false.
Proof.
  induction l as [|n rest IH]; simpl.
  - split; [intros _ n Hn; inversion Hn|reflexivity].
  - destruct (p n) eqn:Hp.
    + split; [discriminate|]. intros H. rewrite (H n) in Hp by set_solver. discriminate.
    + rewrite IH. split.
      * intros H n' Hn'. apply elem_of_cons in Hn' as [->|Hn']; auto.
      * intros H n' Hn'. apply H. right. exact Hn'.
Qed.

(** The result of an upward search satisfies the selector, is the element
    or one of its ancestors, and nothing nearer satisfies the selector. *)
Lemma closest_in_Some (p : DomNode -> bool) (l : list DomNode) (e : DomElem) :
  closest_in p l = Some e ->
  p (el_node e) = true
  /\ exists nearer, l = nearer ++ chain e /\ forall n, n ∈ nearer -> p n = false.
Proof.
  induction l as [|n rest IH]; simpl; [discriminate|].
  destruct (p n) eqn:Hp.
  - intros [= <-]. split; [exact Hp|]. exists []. split; [reflexivity|].
    intros n' Hn'. inversion Hn'.
  - intros H. destruct (IH H) as (Hpe & nearer & -> & Hnearer).
    split; [exact Hpe|]. exists (n :: nearer). split; [reflexivity|].
    intros n' Hn'. apply elem_of_cons in Hn' as [->|Hn']; auto.
Qed.

Lemma closest_suffix (p : DomNode -> bool) (e c : DomElem) :
  closest p e = Some c -> chain c `suffix_of` chain e /\ p (el_node c) = true.
Proof.
  intros H. apply closest_in_Some in H as (Hp & nearer & Heq & _).
  split; [exists nearer; exact Heq|exact Hp].
Qed.

Lemma suffix_head_elem (c e : DomElem) :
  chain c `suffix_of` chain e -> el_node c ∈ chain e.
Proof.
  intros [k Hk]. rewrite Hk. apply elem_of_app. right. left.
Qed.

(** X13: getCell finds a cell exactly when there is one.  Its result is
    the element or one of its ancestors and is classified by getCellInfo
    (so openContextMenu may read its type); it is null exactly when
    neither the element nor an ancestor is a table cell; and a data cell
    anywhere above the element wins over the other kinds. *)
Theorem getCell_finds_cell (e : DomElem) :
  match getCell oTable (Some e) with
  | Some c =>
      chain c `suffix_of` chain e
      /\ getCellInfo (Some c) <> None
      /\ ((exists n, n ∈ chain e /\ hasClass "sapUiTableTd" n = true) ->
          getCellInfo (Some c) = Some DATACELL)
  | None =>
      forall c, chain c `suffix_of` chain e -> getCellInfo (Some c) = None
  end.
Proof.
  unfold getCell.
  destruct (closest (hasClass "sapUiTableTd") e) as [c|] eqn:Htd.
  { apply closest_suffix in Htd as [Hsuf Hp]. split; [exact Hsuf|].
    unfold getCellInfo. rewrite Hp. split; [discriminate|reflexivity]. }
  pose proof (proj1 (closest_in_None _ _) Htd) as Hno_td.
  assert (Hex : forall c : DomElem,
    ~ (exists n, n ∈ chain e /\ hasClass "sapUiTableTd" n = true)).
  { intros _ (n & Hn & Hc). rewrite (Hno_td n Hn) in Hc. discriminate. }
  destruct (closest (hasClass "sapUiTableCol") e) as [c|] eqn:Hcol.
  { apply closest_suffix in Hcol as [Hsuf Hp]. split; [exact Hsuf|].
    unfold getCellInfo. rewrite (Hno_td _ (suffix_head_elem _ _ Hsuf)), Hp.
    split; [discriminate|]. intros H. exfalso. exact (Hex c H). }
  pose proof (proj1 (closest_in_None _ _) Hcol) as Hno_col.
  destruct (closest (hasClass "sapUiTableRowHdr") e) as [c|] eqn:Hrow.
  { apply closest_suffix in Hrow as [Hsuf Hp]. split; [exact Hsuf|].
    unfold getCellInfo.
    rewrite (Hno_td _ (suffix_head_elem _ _ Hsuf)),
      (Hno_col _ (suffix_head_elem _ _ Hsuf)), Hp.
    split; [discriminate|]. intros H. exfalso. exact (Hex c H). }
  pose proof (proj1 (closest_in_None _ _) Hrow) as Hno_row.
  destruct (closest (hasClass "sapUiTableColRowHdr") e) as [c|] eqn:Hcr.
  { apply closest_suffix in Hcr as [Hsuf Hp]. split; [exact Hsuf|].
    unfold getCellInfo.
    rewrite (Hno_td _ (suffix_head_elem _ _ Hsuf)),
      (Hno_col _ (suffix_head_elem _ _ Hsuf)),
      (Hno_row _ (suffix_head_elem _ _ Hsuf)), Hp.
    split; [discriminate|]. intros H. exfalso. exact (Hex c H). }
  pose proof (proj1 (closest_in_None _ _) Hcr) as Hno_cr.
  intros c Hsuf. unfold getCellInfo.
  rewrite (Hno_td _ (suffix_head_elem _ _ Hsuf)),
    (Hno_col _ (suffix_head_elem _ _ Hsuf)),
    (Hno_row _ (suffix_head_elem _ _ Hsuf)),
    (Hno_cr _ (suffix_head_elem _ _ Hsuf)). reflexivity.
Qed.

Lemma getCell_finds_cell_witness :
  getCell oTable (Some cell_control) = Some data_cell
  /\ getCellInfo (Some data_cell) = Some DATACELL.
Proof.
  split; [reflexivity|].
  apply (getCell_finds_cell cell_control).
  exists data_cell_td. split; [apply list_elem_of_further, list_elem_of_here|reflexivity].
Defined.

Lemma getParentDataCell_closest (e : DomElem) :
  getParentDataCell oTable (Some e)
  = closest_in (hasClass "sapUiTableTd") (el_ancestors e).
Proof.
  unfold getParentDataCell, parent, closest, chain.
  destruct (el_ancestors e); reflexivity.
Qed.

(** X14: getParentDataCell looks above the element only.  Its result is a
    data cell among the proper ancestors, the nearest one; it is null
    exactly when no proper ancestor is a data cell, also when the element
    is a data cell itself. *)
Theorem getParentDataCell_above (e : DomElem) :
  match getParentDataCell oTable (Some e) with
  | Some c =>
      hasClass "sapUiTableTd" (el_node c) = true
      /\ exists nearer,
           el_ancestors e = nearer ++ chain c
           /\ forall n, n ∈ nearer -> hasClass "sapUiTableTd" n = false
  | None => forall n, n ∈ el_ancestors e -> hasClass "sapUiTableTd" n = false
  end.
Proof.
  rewrite getParentDataCell_closest.
  destruct (closest_in (hasClass "sapUiTableTd") (el_ancestors e)) as [c|] eqn:Hc.
  - apply closest_in_Some in Hc as (Hp & nearer & Heq & Hnearer).
    split; [exact Hp|]. exists nearer. split; [exact Heq|exact Hnearer].
  - apply closest_in_None. exact Hc.
Qed.

Lemma getParentDataCell_above_witness :
  getParentDataCell oTable (Some data_cell) = None
  /\ forall n, n ∈ el_ancestors data_cell -> hasClass "sapUiTableTd" n = false.
Proof.
  split; [reflexivity|]. exact (getParentDataCell_above data_cell).
Defined.

(** X15: the first and the last row of the scrollable area.  A cell is in
    both only if the table shows exactly one scrollable row, and an
    element without a row index, on itself and on its parent, is in
    neither. *)
Theorem first_and_last_scrollable_row (t : Table) (oRef : option DomElem) :
  (isFirstScrollableRow t oRef = true -> isLastScrollableRow t oRef = true ->
   getVisibleRowCount t - getFixedRowCount t - getFixedBottomRowCount t = 1)
  /\ (rowIndexOf oRef = None ->
      isFirstScrollableRow t oRef = false /\ isLastScrollableRow t oRef = false).
Proof.
  unfold isFirstScrollableRow, isLastScrollableRow. split.
  - destruct (parseInt (rowIndexOf oRef)) as [|z]; simpl; [discriminate|].
    intros H1 H2. apply Z.eqb_eq in H1. apply Z.eqb_eq in H2. lia.
  - intros ->. split; reflexivity.
Qed.

Lemma first_and_last_scrollable_row_witness :
  getVisibleRowCount (table (config MultiToggle 10 1 0 0) [] ∅ 0)
  - getFixedRowCount (table (config MultiToggle 10 1 0 0) [] ∅ 0)
  - getFixedBottomRowCount (table (config MultiToggle 10 1 0 0) [] ∅ 0) = 1.
Proof.
  apply (proj1 (first_and_last_scrollable_row
                  (table (config MultiToggle 10 1 0 0) [] ∅ 0) (Some data_cell)));
    reflexivity.
Defined.

(** ** Row, column and cell of a position *)

Lemma findCellOfColumn_Some (sColumnId : string) (aCells : list Cell) (c : Cell) :
  findCellOfColumn sColumnId aCells = Some c ->
  c ∈ aCells /\ cell_colid c = sColumnId.
Proof.
  induction aCells as [|c0 rest IH]; simpl; [discriminate|].
  case_bool_decide as Hid.
  - intros [= <-]. split; [left|exact Hid].
  - intros H. destruct (IH H) as [Hin Hc]. split; [right; exact Hin|exact Hc].
Qed.

Lemma findCellOfColumn_None (sColumnId : string) (aCells : list Cell) :
  findCellOfColumn sColumnId aCells = None ->
  forall c, c ∈ aCells -> cell_colid c <> sColumnId.
Proof.
  induction aCells as [|c0 rest IH]; simpl; intros H c Hin; [inversion Hin|].
  case_bool_decide as Hid; [discriminate|].
  apply elem_of_cons in Hin as [->|Hin]; [exact Hid|auto].
Qed.

Lemma js_index_elem {A : Type} (a : list A) (i : JsInt) (x : A) :
  js_index a i = Some x -> x ∈ a.
Proof.
  destruct i as [|z]; simpl; [discriminate|].
  destruct (z <? 0); [discriminate|]. apply list_elem_of_lookup_2.
Qed.

(** X16: getRowColCell changes nothing, and when it returns a row, a
    column and a cell, the cell is a cell of that row, and it is a cell of
    that column whenever the row has one: a cell found at the position
    under another column's id is replaced by the first cell that carries
    the id of the column. *)
Theorem getRowColCell_rescue (w w' : World) (iRowIdx iColIdx : JsInt) (res : RowColCell) :
  getRowColCell iRowIdx iColIdx w = Ok res w' ->
  w' = w
  /\ forall row kc cell,
       rcc_row res = Some row -> rcc_column res = Some kc -> rcc_cell res = Some cell ->
       cell ∈ row_cells row
       /\ ((exists c, c ∈ row_cells row /\ cell_colid c = col_id kc.2) ->
           cell_colid cell = col_id kc.2).
Proof.
  unfold getRowColCell. run.
  set (oRow := js_index (getRows (w_table w)) iRowIdx).
  set (oColumn := visibleColumnAt (w_table w) iColIdx ≫= _).
  destruct oRow as [row|] eqn:Hrow; simpl.
  - destruct (js_index (row_cells row) iColIdx) as [cell|] eqn:Hcell; simpl.
    + destruct oColumn as [kc|]; simpl; [|discriminate].
      case_bool_decide as Hid; simpl.
      * intros [= <- <-]. split; [reflexivity|]. simpl.
        intros row' kc' cell' [= <-] [= <-] [= <-].
        split; [eapply js_index_elem; eauto|]. intros _. exact Hid.
      * destruct (findCellOfColumn (col_id kc.2) (row_cells row)) as [found|] eqn:Hf;
          intros [= <- <-]; (split; [reflexivity|]); simpl;
          intros row' kc' cell' [= <-] [= <-] [= <-].
        -- apply findCellOfColumn_Some in Hf as [Hin Hc]. split; [exact Hin|].
           intros _. exact Hc.
        -- split; [eapply js_index_elem; eauto|]. intros (c & Hin & Hc).
           exfalso. exact (findCellOfColumn_None _ _ Hf c Hin Hc).
    + intros [= <- <-]. split; [reflexivity|]. simpl. intros ? ? ? _ _ [=].
  - intros [= <- <-]. split; [reflexivity|]. simpl. intros ? ? ? [=].
Qed.

Lemma getRowColCell_rescue_witness :
  exists res,
    getRowColCell (Int 0) (Int 0) (world_cells Row_) = Ok res (world_cells Row_)
    /\ forall row kc cell,
         rcc_row res = Some row -> rcc_column res = Some kc -> rcc_cell res = Some cell ->
         cell ∈ row_cells row
         /\ ((exists c, c ∈ row_cells row /\ cell_colid c = col_id kc.2) ->
             cell_colid cell = col_id kc.2).
Proof.
  eexists. split; [vm_compute; reflexivity|].
  eapply (getRowColCell_rescue (world_cells Row_) (world_cells Row_) (Int 0) (Int 0)).
  vm_compute. reflexivity.
Defined.

(** ** Content density *)

(** fnGetContentDensity answers with the first of the three classes, in
    the order compact, condensed, cozy, that the object has. *)
Lemma fnGetContentDensity_first (f : string -> bool) :
  fnGetContentDensity (Some f)
  = if f "sapUiSizeCompact" then Some "sapUiSizeCompact"
    else if f "sapUiSizeCondensed" then Some "sapUiSizeCondensed"
    else if f "sapUiSizeCozy" then Some "sapUiSizeCozy"
    else None.
Proof.
  unfold fnGetContentDensity, aContentDensityStyleClasses.
  destruct (f "sapUiSizeCompact") eqn:H1.
  { rewrite filter_cons_True by exact H1. reflexivity. }
  rewrite filter_cons_False by congruence.
  destruct (f "sapUiSizeCondensed") eqn:H2.
  { rewrite filter_cons_True by exact H2. reflexivity. }
  rewrite filter_cons_False by congruence.
  destruct (f "sapUiSizeCozy") eqn:H3.
  { rewrite filter_cons_True by exact H3. reflexivity. }
  rewrite filter_cons_False by congruence. reflexivity.
Qed.

Lemma fnGetContentDensity_class (has : option (string -> bool)) (c : string) :
  fnGetContentDensity has = Some c -> c ∈ aContentDensityStyleClasses.
Proof.
  destruct has as [f|]; [|discriminate]. rewrite fnGetContentDensity_first.
  unfold aContentDensityStyleClasses.
  repeat (destruct (f _); [intros [= <-]; set_solver|]). discriminate.
Qed.

Lemma walkParents_class (aParents : list Ancestor) (c : string) :
  walkParents aParents = inl c -> c ∈ aContentDensityStyleClasses.
Proof.
  induction aParents as [|p rest IH]; simpl; [discriminate|].
  destruct (fnGetContentDensity _) as [c'|] eqn:Hc.
  - intros [= <-]. eapply fnGetContentDensity_class. exact Hc.
  - destruct (ancestorDomRef p); [discriminate|].
    destruct (anc_hasGetParent p); [exact IH|discriminate].
Qed.

(** X17: getContentDensity answers with a density class or with nothing:
    a defined result is one of sapUiSizeCompact, sapUiSizeCondensed and
    sapUiSizeCozy, wherever in the ancestry it was found. *)
Theorem getContentDensity_is_density_class (body : DomElem) (oControl : DensityControl)
    (c : string) :
  getContentDensity body oControl = Some c ->
  c = "sapUiSizeCompact" \/ c = "sapUiSizeCondensed" \/ c = "sapUiSizeCozy".
Proof.
  intros H.
  assert (Hin : c ∈ aContentDensityStyleClasses).
  { unfold getContentDensity in H.
    destruct (match ctl_dom oControl with
              | Some eDomRef => _
              | None => _
              end) as [c'|] eqn:Hown.
    - injection H as <-. destruct (ctl_dom oControl);
        eapply fnGetContentDensity_class; exact Hown.
    - destruct (walkParents (ctl_ancestors oControl)) as [c'|d] eqn:Hwalk.
      + injection H as <-. eapply walkParents_class. exact Hwalk.
      + destruct (closest hasDensityClass (default body d)); [|discriminate].
        eapply fnGetContentDensity_class. exact H. }
  unfold aContentDensityStyleClasses in Hin. set_solver.
Qed.

Lemma getContentDensity_is_density_class_witness :
  "sapUiSizeCondensed" = "sapUiSizeCompact"
  \/ "sapUiSizeCondensed" = "sapUiSizeCondensed"
  \/ "sapUiSizeCondensed" = "sapUiSizeCozy".
Proof.
  apply (getContentDensity_is_density_class body_example density_example).
  vm_compute. reflexivity.
Defined.

(** X18: the control itself decides first, by the priority compact over
    condensed over cozy.  With [own] the classes of the control's DOM node
    when it is rendered, and its style classes otherwise, a control that
    has one of the three classes gets the first of them in that order;
    neither its ancestors nor the document are looked at. *)
Theorem getContentDensity_own_class_first (body : DomElem) (oControl : DensityControl) :
  let own c :=
    match ctl_dom oControl with
    | Some eDomRef => hasClass c (el_node eDomRef)
    | None => hasStyleClassOf (ctl_styleClasses oControl) c
    end in
  (own "sapUiSizeCompact" = true ->
   getContentDensity body oControl = Some "sapUiSizeCompact")
  /\ (own "sapUiSizeCompact" = false -> own "sapUiSizeCondensed" = true ->
      getContentDensity body oControl = Some "sapUiSizeCondensed")
  /\ (own "sapUiSizeCompact" = false -> own "sapUiSizeCondensed" = false ->
      own "sapUiSizeCozy" = true ->
      getContentDensity body oControl = Some "sapUiSizeCozy").
Proof.
  cbv zeta. unfold getContentDensity.
  destruct (ctl_dom oControl) as [e|]; rewrite fnGetContentDensity_first;
    (split; [intros ->; reflexivity|]);
    (split; [intros -> ->; reflexivity|intros -> -> ->; reflexivity]).
Qed.

Lemma getContentDensity_own_class_first_witness :
  getContentDensity body_example density_example = Some "sapUiSizeCondensed".
Proof.
  apply (getContentDensity_own_class_first body_example density_example);
    reflexivity.
Defined.

(** ** Column resizing: rejected calls, a single column *)

Lemma filter_isResizable_nil (t : Table) (l : list nat) :
  (forall c, c ∈ getColumns t -> col_resizable c = false) ->
  filter (fun i => isResizable t i) l = [].
Proof.
  intros Hnone. induction l as [|i rest IH]; [reflexivity|].
  rewrite filter_cons_False; [exact IH|].
  unfold isResizable. destruct (getColumns t !! i) as [c|] eqn:Hc; [|auto].
  rewrite (Hnone c) by (eapply list_elem_of_lookup_2; exact Hc). auto.
Qed.

(** X19: what resizeColumn rejects.  For a null table, a missing, negative
    or too large column index, a missing or non-positive width, an
    invisible start column, or a table without any resizable column, the
    call returns false, fires nothing and leaves the world, the minimum
    widths included, as it is. *)
Theorem resizeColumn_rejects (E : Env) (r : TableRef) (iColumnIndex iWidth : option Z)
    (bFireEvent : option bool) (iColumnSpan : option Z) (w : World) :
  r = null
  \/ iColumnIndex = None
  \/ iWidth = None
  \/ (exists i, iColumnIndex = Some i
                /\ (i < 0 \/ Z.of_nat (length (getColumns (w_table w))) <= i))
  \/ (exists x, iWidth = Some x /\ x <= 0)
  \/ (exists i c, iColumnIndex = Some i
                  /\ getColumns (w_table w) !! Z.to_nat i = Some c
                  /\ col_visible c = false)
  \/ (forall c, c ∈ getColumns (w_table w) -> col_resizable c = false) ->
  resizeColumn E r iColumnIndex iWidth bFireEvent iColumnSpan w = Ok false w.
Proof.
  intros H. unfold resizeColumn.
  destruct r; [reflexivity|].
  destruct iColumnIndex as [i|]; [|reflexivity].
  destruct iWidth as [x|]; [|reflexivity].
  destruct ((i <? 0) || (x <=? 0)) eqn:Hor; [reflexivity|].
  apply orb_false_elim in Hor as [Hi Hx].
  apply Z.ltb_ge in Hi. apply Z.leb_gt in Hx. run.
  destruct (getColumns (w_table w) !! Z.to_nat i) as [c|] eqn:Hc; [|reflexivity].
  destruct (col_visible c) eqn:Hv; [|reflexivity]. simpl negb. cbv iota.
  case_bool_decide as Hres; [reflexivity|]. exfalso.
  destruct H as [H|[H|[H|[(i' & [= <-] & H)|[(x' & [= <-] & H)|[(i' & c' & [= <-] & Hc' & Hv')|H]]]]]];
    try discriminate.
  - destruct H as [H|H]; [lia|]. apply lookup_lt_Some in Hc. lia.
  - lia.
  - congruence.
  - apply Hres. apply filter_isResizable_nil. exact H.
Qed.

Lemma resizeColumn_rejects_witness :
  resizeColumn (env true true) oTable (Some 2) (Some 150) None None world_two_columns
  = Ok false world_two_columns.
Proof.
  apply resizeColumn_rejects. do 3 right. left. exists 2. split; [reflexivity|].
  right. vm_compute. discriminate.
Defined.

Lemma getColumnWidth_widthOf (t : Table) (n : nat) (c : Column) :
  getColumns t !! n = Some c ->
  getColumnWidth (Some t) (Some (Z.of_nat n)) = Some (widthOf t n).
Proof.
  intros Hc. unfold widthOf, getColumnWidth.
  destruct (Z.ltb_spec (Z.of_nat n) 0); [lia|].
  rewrite Nat2Z.id, Hc.
  destruct (col_width c); try reflexivity;
    destruct (col_visible c); try reflexivity;
    destruct (col_offsetWidth c); reflexivity.
Qed.

Lemma widthOf_fixAutoColumns (E : Env) (rs : list nat) (t : Table) (n : nat) :
  widthOf (fixAutoColumns E rs t) n = widthOf t n.
Proof.
  unfold widthOf, getColumnWidth, getColumns, fixAutoColumns. simpl.
  destruct (Z.of_nat n <? 0); [reflexivity|].
  rewrite list_lookup_imap.
  destruct (tb_columns t !! Z.to_nat (Z.of_nat n)) as [c|]; [|reflexivity]. simpl.
  unfold pinMinWidth. destruct (_ && _); [|reflexivity].
  destruct (col_thOffsetWidth c); reflexivity.
Qed.

Lemma Math_round_div_1 (d : Z) : Math_round_div d 1 = d.
Proof.
  unfold Math_round_div. symmetry. apply (Z.div_unique _ _ d 1); lia.
Qed.

Lemma drop_indexed (cs : list Column) (n : nat) (c : Column) :
  cs !! n = Some c -> drop n (indexed cs) = (n, c) :: drop (S n) (indexed cs).
Proof.
  intros Hc. apply drop_S. unfold indexed. rewrite list_lookup_imap, Hc. reflexivity.
Qed.

(** X20: the resize of one column.  For a visible, resizable column, a
    positive width, a span of one, and notifications that are suppressed
    or not canceled, the column is afterwards max(iWidth, minimum column
    width) pixels wide; the call returns true, and fires its one
    notification, exactly when that differs from the width before; no
    other column changes its width. *)
Theorem resizeColumn_single (E : Env) (w : World) (i iWidth : Z)
    (bFireEvent : option bool) (iColumnSpan : option Z) (c : Column) :
  let t := w_table w in
  let before := widthOf t (Z.to_nat i) in
  let target := Z.max iWidth (env_minColumnWidth E) in
  0 <= i -> 0 < iWidth ->
  getColumns t !! Z.to_nat i = Some c ->
  col_visible c = true -> col_resizable c = true ->
  (iColumnSpan = None \/ exists s, iColumnSpan = Some s /\ s <= 1) ->
  (bFireEvent = Some false \/ forall t' n, env_handler E t' n = true) ->
  exists w',
    resizeColumn E oTable (Some i) (Some iWidth) bFireEvent iColumnSpan w
    = Ok (negb (before =? target)) w'
    /\ getColumnWidth (Some (w_table w')) (Some i) = Some target
    /\ w_fired w'
       = w_fired w
         ++ (if (before =? target) || negb (default true bFireEvent) then []
             else [ColumnResize (Z.to_nat i) target])
    /\ forall k, k <> Z.to_nat i ->
         widths (w_table w') !! k = widths (w_table w) !! k.
Proof.
  intros t before target Hi Hwidth Hc Hv Hr Hspan Hfire.
  set (n := Z.to_nat i) in *.
  assert (Hin : Z.of_nat n = i) by (subst n; lia).
  assert (HiSpan : match iColumnSpan with
                   | Some s => if s <=? 0 then 1 else s
                   | None => 1
                   end = 1).
  { destruct Hspan as [->|(s & -> & Hs)]; [reflexivity|].
    destruct (Z.leb_spec s 0); lia. }
  assert (Hvisible :
    collectVisible (drop (Z.to_nat i) (indexed (getColumns t))) 0 1 = [n]).
  { fold n. rewrite (drop_indexed _ n c) by exact Hc. simpl. rewrite Hv. reflexivity. }
  assert (Hresizable : filter (fun k => isResizable t k) [n] = [n]).
  { rewrite filter_cons_True; [reflexivity|]. unfold isResizable.
    rewrite Hc, Hr. exact I. }
  rewrite (resizeColumn_enters_loop E w i iWidth bFireEvent iColumnSpan c);
    [|exact Hi|exact Hwidth|exact Hc|exact Hv
     |fold t; rewrite HiSpan, Hvisible, Hresizable; discriminate].
  fold t. rewrite HiSpan, Hvisible, Hresizable.
  replace (spanWidth t [n]) with before by (unfold spanWidth; simpl; reflexivity).
  change (Z.of_nat (length [n])) with 1. rewrite Math_round_div_1.
  set (w0 := if isFixedColumn t i then w
             else with_table (fixAutoColumns E [n] t) w).
  assert (Hfired0 : w_fired w0 = w_fired w)
    by (subst w0; destruct (isFixedColumn t i); reflexivity).
  assert (Hwidth0 : widthOf (w_table w0) n = before).
  { subst w0. destruct (isFixedColumn t i); [reflexivity|].
    simpl. apply widthOf_fixAutoColumns. }
  assert (Hwidths0 : widths (w_table w0) = widths t).
  { subst w0. destruct (isFixedColumn t i); [reflexivity|].
    simpl. apply fixAutoColumns_observed. }
  assert (Hlen0 : exists c0, getColumns (w_table w0) !! n = Some c0).
  { subst w0. destruct (isFixedColumn t i); [eauto|].
    simpl. unfold getColumns, fixAutoColumns. simpl.
    rewrite list_lookup_imap. unfold getColumns in Hc. rewrite Hc. simpl. eauto. }
  destruct Hlen0 as [c0 Hc0]. clearbody w0.
  simpl resizeColumns. unfold bind at 1. unfold getTable at 1. rewrite Hwidth0.
  assert (Hnew : (if before + (iWidth - before) <? env_minColumnWidth E
                  then env_minColumnWidth E else before + (iWidth - before)) = target).
  { subst target. destruct (Z.ltb_spec (before + (iWidth - before)) (env_minColumnWidth E));
      lia. }
  rewrite Hnew.
  destruct (Z.eqb_spec before target) as [Heq|Hne].
  - replace (target - before =? 0) with true by (symmetry; apply Z.eqb_eq; lia).
    exists w0. split; [reflexivity|].
    split.
    { replace (Some i) with (Some (Z.of_nat n)) by (f_equal; exact Hin).
      rewrite (getColumnWidth_widthOf _ n c0 Hc0), Hwidth0, Heq. reflexivity. }
    split; [rewrite Hfired0, app_nil_r; reflexivity|].
    intros k _. rewrite Hwidths0. reflexivity.
  - replace (target - before =? 0) with false by (symmetry; apply Z.eqb_neq; lia).
    assert (Hset : forall w1,
      w_table w1 = setColumn n (with_width (W_px target)) (w_table w0) ->
      getColumnWidth (Some (w_table w1)) (Some i) = Some target
      /\ forall k, k <> n -> widths (w_table w1) !! k = widths t !! k).
    { intros w1 ->. split.
      - replace (Some i) with (Some (Z.of_nat n)) by (f_equal; exact Hin).
        unfold getColumnWidth.
        destruct (Z.ltb_spec (Z.of_nat n) 0); [lia|]. rewrite Nat2Z.id.
        unfold getColumns, setColumn. simpl. unfold getColumns in Hc0.
        rewrite list_lookup_alter_eq, Hc0. reflexivity.
      - intros k Hk. rewrite <- Hwidths0. unfold widths, setColumn. simpl.
        rewrite !list_lookup_fmap, list_lookup_alter_ne by congruence. reflexivity. }
    destruct bFireEvent as [[]|]; simpl default; cbv iota.
    + destruct Hfire as [Hfire|Hfire]; [discriminate|].
      run. rewrite Hfire. simpl. eexists. split; [reflexivity|]. simpl.
      destruct (Hset {| w_table := setColumn n (with_width (W_px target)) (w_table w0);
                        w_fired := w_fired w0 ++ [ColumnResize n target];
                        w_live := w_live w0; w_next := w_next w0; w_log := w_log w0 |}
                  eq_refl) as [Hg Hk].
      split; [exact Hg|]. split; [rewrite Hfired0; reflexivity|exact Hk].
    + run. eexists. split; [reflexivity|]. simpl.
      destruct (Hset (with_table (setColumn n (with_width (W_px target)) (w_table w0)) w0)
                  eq_refl) as [Hg Hk].
      split; [exact Hg|]. split; [rewrite Hfired0, app_nil_r; reflexivity|exact Hk].
    + destruct Hfire as [Hfire|Hfire]; [discriminate|].
      run. rewrite Hfire. simpl. eexists. split; [reflexivity|]. simpl.
      destruct (Hset {| w_table := setColumn n (with_width (W_px target)) (w_table w0);
                        w_fired := w_fired w0 ++ [ColumnResize n target];
                        w_live := w_live w0; w_next := w_next w0; w_log := w_log w0 |}
                  eq_refl) as [Hg Hk].
      split; [exact Hg|]. split; [rewrite Hfired0; reflexivity|exact Hk].
Qed.

Lemma resizeColumn_single_witness :
  exists w',
    resizeColumn (env true true) oTable (Some 0) (Some 30) None None world_flexible
    = Ok true w'
    /\ getColumnWidth (Some (w_table w')) (Some 0) = Some 48
    /\ w_fired w' = [ColumnResize 0 48]
    /\ forall k, k <> 0%nat ->
         widths (w_table w') !! k = widths (w_table world_flexible) !! k.
Proof.
  apply (resizeColumn_single (env true true) world_flexible 0 30 None None
           (column (W_px 100))).
  - lia.
  - lia.
  - reflexivity.
  - reflexivity.
  - reflexivity.
  - left. reflexivity.
  - right. intros t' n. reflexivity.
Defined.

(** ** Column resizing: a span without clamped columns *)

Lemma collectVisible_sublist (cs : list (nat * Column)) (pushed iColumnSpan : Z) :
  collectVisible cs pushed iColumnSpan `sublist_of` cs.*1.
Proof.
  revert pushed. induction cs as [|[i c] rest IH]; intros pushed; simpl.
  - constructor.
  - destruct (col_visible c).
    + destruct (pushed + 1 =? iColumnSpan).
      * apply sublist_skip. apply sublist_nil_l.
      * apply sublist_skip. apply IH.
    + apply sublist_cons. apply IH.
Qed.

Lemma indexed_fst (cs : list Column) : (indexed cs).*1 = seq 0 (length cs).
Proof.
  unfold indexed. rewrite fmap_imap.
  rewrite (imap_ext _ (fun j _ => j)) by reflexivity.
  rewrite imap_seq_0. apply list_fmap_id.
Qed.

(** The columns of a span are columns of the table, each taken once. *)
Lemma collectVisible_indices (cs : list Column) (n : nat) (pushed iColumnSpan : Z) :
  let aVisibleColumns := collectVisible (drop n (indexed cs)) pushed iColumnSpan in
  NoDup aVisibleColumns
  /\ forall k, k ∈ aVisibleColumns -> (k < length cs)%nat.
Proof.
  cbv zeta.
  assert (Hsub : collectVisible (drop n (indexed cs)) pushed iColumnSpan
                 `sublist_of` seq 0 (length cs)).
  { etransitivity; [apply collectVisible_sublist|].
    rewrite fmap_drop, indexed_fst. apply sublist_drop. }
  split.
  - eapply sublist_NoDup; [apply NoDup_seq|exact Hsub].
  - intros k Hk. eapply elem_of_sublist in Hk; [|exact Hsub].
    apply elem_of_seq in Hk. lia.
Qed.

Lemma widthOf_lookup (t t' : Table) (k : nat) :
  tb_columns t' !! k = tb_columns t !! k -> widthOf t' k = widthOf t k.
Proof.
  intros H. unfold widthOf, getColumnWidth, getColumns.
  rewrite Nat2Z.id, H. reflexivity.
Qed.

Lemma widthOf_set (t : Table) (k : nat) (n : Z) :
  is_Some (tb_columns t !! k) ->
  widthOf (setColumn k (with_width (W_px n)) t) k = n.
Proof.
  intros [c Hc]. unfold widthOf, getColumnWidth, getColumns, setColumn. simpl.
  destruct (Z.ltb_spec (Z.of_nat k) 0); [lia|].
  rewrite Nat2Z.id, list_lookup_alter_eq, Hc. reflexivity.
Qed.

(** The loop of resizeColumn when every column takes its whole share:
    each column of the list grows by the share, every other column is
    left alone. *)
Lemma resizeColumns_whole_shares (E : Env) (bFireEvent : bool) (rs : list nat)
    (iSharedPixelDelta : Z) :
  (bFireEvent = false \/ forall t n, env_handler E t n = true) ->
  forall (iPixelDelta : Z) (b : bool) (w : World),
  NoDup rs ->
  (forall k, k ∈ rs -> is_Some (tb_columns (w_table w) !! k)) ->
  (forall k, k ∈ rs ->
     env_minColumnWidth E <= widthOf (w_table w) k + iSharedPixelDelta) ->
  exists b' w',
    resizeColumns E bFireEvent rs iPixelDelta iSharedPixelDelta b w = Ok b' w'
    /\ (forall k, k ∈ rs ->
          widthOf (w_table w') k = widthOf (w_table w) k + iSharedPixelDelta)
    /\ (forall k, k ∉ rs ->
          tb_columns (w_table w') !! k = tb_columns (w_table w) !! k).
Proof.
  intros Hfire. induction rs as [|c rest IH]; intros pd b w Hnodup Hsome Hmin.
  - exists b, w. split; [reflexivity|]. split; [intros k Hk; inversion Hk|reflexivity].
  - apply NoDup_cons in Hnodup as [Hc Hnodup].
    assert (Hstep : exists b1 w1,
      resizeColumns E bFireEvent (c :: rest) pd iSharedPixelDelta b w
      = resizeColumns E bFireEvent rest pd iSharedPixelDelta b1 w1
      /\ widthOf (w_table w1) c = widthOf (w_table w) c + iSharedPixelDelta
      /\ (forall k, k <> c -> tb_columns (w_table w1) !! k = tb_columns (w_table w) !! k)
      /\ (forall k, is_Some (tb_columns (w_table w) !! k) ->
                    is_Some (tb_columns (w_table w1) !! k))).
    { simpl. unfold bind at 1. unfold getTable at 1.
      set (cw := widthOf (w_table w) c).
      assert (Hge : env_minColumnWidth E <= cw + iSharedPixelDelta)
        by (apply Hmin; left).
      destruct (Z.ltb_spec (cw + iSharedPixelDelta) (env_minColumnWidth E)); [lia|].
      replace (cw + iSharedPixelDelta - cw) with iSharedPixelDelta by lia.
      rewrite Z.ltb_irrefl.
      assert (Hset : forall w1,
        w_table w1 = setColumn c (with_width (W_px (cw + iSharedPixelDelta))) (w_table w) ->
        widthOf (w_table w1) c = cw + iSharedPixelDelta
        /\ (forall k, k <> c ->
              tb_columns (w_table w1) !! k = tb_columns (w_table w) !! k)
        /\ (forall k, is_Some (tb_columns (w_table w) !! k) ->
                      is_Some (tb_columns (w_table w1) !! k))).
      { intros w1 ->. split; [apply widthOf_set; apply Hsome; left|]. split.
        - intros k Hk. simpl. apply list_lookup_alter_ne. congruence.
        - intros k [x Hx]. simpl. destruct (decide (c = k)) as [->|Hne].
          + rewrite list_lookup_alter_eq, Hx. eauto.
          + rewrite list_lookup_alter_ne by exact Hne. eauto. }
      destruct (Z.eqb_spec iSharedPixelDelta 0) as [Hz|Hnz].
      - exists b, w. split; [reflexivity|]. fold cw. split; [lia|]. split; auto.
      - destruct bFireEvent.
        + destruct Hfire as [Hfire|Hfire]; [discriminate|].
          unfold bind at 1. unfold bind at 1. unfold fire at 1. rewrite Hfire.
          eexists true, _. split; [reflexivity|]. apply Hset. reflexivity.
        + eexists true, _. split; [reflexivity|]. apply Hset. reflexivity. }
    destruct Hstep as (b1 & w1 & -> & Hwc & Hframe1 & Hsome1).
    destruct (IH pd b1 w1 Hnodup) as (b' & w' & Hrun & Hshare & Hframe).
    { intros k Hk. apply Hsome1. apply Hsome. right. exact Hk. }
    { intros k Hk. rewrite (widthOf_lookup (w_table w) (w_table w1)).
      - apply Hmin. right. exact Hk.
      - apply Hframe1. intros ->. contradiction. }
    exists b', w'. split; [exact Hrun|]. split.
    + intros k Hk. apply elem_of_cons in Hk as [->|Hk].
      * rewrite (widthOf_lookup (w_table w1) (w_table w')) by (apply Hframe; exact Hc).
        exact Hwc.
      * rewrite (Hshare k Hk). rewrite (widthOf_lookup (w_table w) (w_table w1)); [reflexivity|].
        apply Hframe1. intros ->. contradiction.
    + intros k Hk. apply not_elem_of_cons in Hk as [Hne Hk].
      rewrite (Hframe k Hk). apply Hframe1. exact Hne.
Qed.

Lemma foldl_widths_shift (t t' : Table) (l : list nat) (s : Z) :
  (forall k, k ∈ l -> widthOf t' k = widthOf t k + s) ->
  forall acc,
    foldl (fun acc i => acc + widthOf t' i) acc l
    = foldl (fun acc i => acc + widthOf t i) acc l + Z.of_nat (length l) * s.
Proof.
  induction l as [|k rest IH]; intros Hl acc.
  - simpl. lia.
  - cbn [foldl]. rewrite IH by (intros k' Hk'; apply Hl; right; exact Hk').
    rewrite (Hl k) by left. rewrite length_cons.
    replace (acc + (widthOf t k + s)) with (acc + s + widthOf t k) by lia.
    assert (Hacc : forall l' a d,
      foldl (fun acc i => acc + widthOf t i) (a + d) l'
      = foldl (fun acc i => acc + widthOf t i) a l' + d).
    { induction l' as [|k' l' IH']; intros a d; cbn [foldl]; [reflexivity|].
      replace (a + d + widthOf t k') with (a + widthOf t k' + d) by lia. apply IH'. }
    replace (acc + s + widthOf t k) with (acc + widthOf t k + s) by lia.
    rewrite Hacc. lia.
Qed.

Lemma spanWidth_shift (t t' : Table) (l : list nat) (s : Z) :
  (forall k, k ∈ l -> widthOf t' k = widthOf t k + s) ->
  spanWidth t' l = spanWidth t l + Z.of_nat (length l) * s.
Proof. intros Hl. unfold spanWidth. apply foldl_widths_shift. exact Hl. Qed.

(** Rounding the share loses at most half a pixel per column. *)
Lemma Math_round_div_error (d n : Z) :
  0 < n -> - n < 2 * (n * Math_round_div d n - d) <= n.
Proof.
  intros Hn. unfold Math_round_div.
  pose proof (Z.div_mod (2 * d + n) (2 * n)) as Hdm.
  pose proof (Z.mod_pos_bound (2 * d + n) (2 * n)) as Hb.
  nia.
Qed.

Lemma filter_all_resizable (t : Table) (l : list nat) :
  (forall k, k ∈ l -> isResizable t k = true) ->
  filter (fun k => isResizable t k) l = l.
Proof.
  induction l as [|k rest IH]; intros Hres; [reflexivity|].
  rewrite filter_cons_True by (rewrite Hres by left; exact I).
  rewrite IH; [reflexivity|]. intros k' Hk'. apply Hres. right. exact Hk'.
Qed.

(** X21: a span whose columns all take their share.  When every visible
    column of the span is resizable, the notifications are suppressed or
    not canceled, and no column would fall below the minimum column width,
    each column of the span grows by round(delta / n), columns outside the
    span keep their width, and the span ends within half a pixel per
    column of the requested width: it is exact when n divides delta. *)
Theorem resizeColumn_whole_shares (E : Env) (w : World) (i iWidth : Z)
    (bFireEvent : option bool) (iColumnSpan : option Z) (c : Column) :
  let t := w_table w in
  let iSpan := match iColumnSpan with
               | Some s => if s <=? 0 then 1 else s
               | None => 1
               end in
  let aVisibleColumns :=
    collectVisible (drop (Z.to_nat i) (indexed (getColumns t))) 0 iSpan in
  let n := Z.of_nat (length aVisibleColumns) in
  let iShare := Math_round_div (iWidth - spanWidth t aVisibleColumns) n in
  0 <= i -> 0 < iWidth ->
  getColumns t !! Z.to_nat i = Some c -> col_visible c = true ->
  (forall k, k ∈ aVisibleColumns -> isResizable t k = true) ->
  (forall k, k ∈ aVisibleColumns -> env_minColumnWidth E <= widthOf t k + iShare) ->
  (bFireEvent = Some false \/ forall t' x, env_handler E t' x = true) ->
  exists b w',
    resizeColumn E oTable (Some i) (Some iWidth) bFireEvent iColumnSpan w = Ok b w'
    /\ (forall k, k ∈ aVisibleColumns -> widthOf (w_table w') k = widthOf t k + iShare)
    /\ (forall k, k ∉ aVisibleColumns -> widths (w_table w') !! k = widths t !! k)
    /\ spanWidth (w_table w') aVisibleColumns = spanWidth t aVisibleColumns + n * iShare
    /\ - n < 2 * (spanWidth (w_table w') aVisibleColumns - iWidth) <= n.
Proof.
  intros t iSpan aVisibleColumns n iShare Hi Hwidth Hc Hv Hres Hmin Hfire.
  assert (Hdef : aVisibleColumns
                 = collectVisible (drop (Z.to_nat i) (indexed (getColumns t))) 0 iSpan)
    by reflexivity.
  assert (Hndef : n = Z.of_nat (length aVisibleColumns)) by reflexivity.
  assert (Hsdef : iShare = Math_round_div (iWidth - spanWidth t aVisibleColumns) n)
    by reflexivity.
  clearbody iShare. clearbody n. clearbody aVisibleColumns.
  assert (Hfilter : filter (fun k => isResizable t k) aVisibleColumns = aVisibleColumns)
    by (apply filter_all_resizable; exact Hres).
  assert (Hne : aVisibleColumns <> []).
  { rewrite Hdef. rewrite (drop_indexed _ (Z.to_nat i) c) by exact Hc.
    cbn [collectVisible]. rewrite Hv. destruct (0 + 1 =? iSpan); discriminate. }
  assert (Hn : 0 < n).
  { rewrite Hndef. destruct aVisibleColumns; [contradiction|]. rewrite length_cons. lia. }
  destruct (collectVisible_indices (getColumns t) (Z.to_nat i) 0 iSpan)
    as [Hnodup Hrange]. rewrite <- Hdef in Hnodup, Hrange.
  rewrite (resizeColumn_enters_loop E w i iWidth bFireEvent iColumnSpan c);
    [|exact Hi|exact Hwidth|exact Hc|exact Hv
     |fold t iSpan; rewrite <- Hdef, Hfilter; exact Hne].
  fold t iSpan. rewrite <- Hdef, Hfilter, <- Hndef, <- Hsdef.
  set (w0 := if isFixedColumn t i then w
             else with_table (fixAutoColumns E aVisibleColumns t) w).
  assert (Hwidth0 : forall k, widthOf (w_table w0) k = widthOf t k).
  { intros k. subst w0. destruct (isFixedColumn t i); [reflexivity|].
    simpl. apply widthOf_fixAutoColumns. }
  assert (Hwidths0 : widths (w_table w0) = widths t).
  { subst w0. destruct (isFixedColumn t i); [reflexivity|].
    simpl. apply fixAutoColumns_observed. }
  assert (Hlen0 : length (tb_columns (w_table w0)) = length (tb_columns t)).
  { subst w0. destruct (isFixedColumn t i); [reflexivity|].
    simpl. apply length_imap. }
  clearbody w0.
  destruct (resizeColumns_whole_shares E (default true bFireEvent) aVisibleColumns iShare)
    with (iPixelDelta := iWidth - spanWidth t aVisibleColumns) (b := false) (w := w0)
    as (b & w' & Hrun & Hshare & Hframe).
  { destruct Hfire as [->|Hfire]; [left; reflexivity|right; exact Hfire]. }
  { exact Hnodup. }
  { intros k Hk. apply lookup_lt_is_Some. rewrite Hlen0. apply Hrange. exact Hk. }
  { intros k Hk. rewrite Hwidth0. apply Hmin. exact Hk. }
  exists b, w'. split; [exact Hrun|].
  assert (Hgrow : forall k, k ∈ aVisibleColumns ->
                    widthOf (w_table w') k = widthOf t k + iShare).
  { intros k Hk. rewrite (Hshare k Hk), Hwidth0. reflexivity. }
  split; [exact Hgrow|]. split.
  { intros k Hk. rewrite <- Hwidths0. unfold widths.
    rewrite !list_lookup_fmap, (Hframe k Hk). reflexivity. }
  pose proof (spanWidth_shift t (w_table w') aVisibleColumns iShare Hgrow) as Hsum.
  rewrite <- Hndef in Hsum. split; [exact Hsum|].
  rewrite Hsum, Hsdef.
  pose proof (Math_round_div_error (iWidth - spanWidth t aVisibleColumns) n Hn). lia.
Qed.

Lemma resizeColumn_whole_shares_witness :
  exists b w',
    resizeColumn (env true true) oTable (Some 0) (Some 201) None (Some 2) world_two_columns
    = Ok b w'
    /\ (forall k, k ∈ [0%nat; 1%nat] ->
          widthOf (w_table w') k = widthOf (w_table world_two_columns) k + 1)
    /\ (forall k, k ∉ [0%nat; 1%nat] ->
          widths (w_table w') !! k = widths (w_table world_two_columns) !! k)
    /\ spanWidth (w_table w') [0%nat; 1%nat]
       = spanWidth (w_table world_two_columns) [0%nat; 1%nat] + 2 * 1
    /\ - 2 < 2 * (spanWidth (w_table w') [0%nat; 1%nat] - 201) <= 2.
Proof.
  apply (resizeColumn_whole_shares (env true true) world_two_columns 0 201 None (Some 2)
           (column (W_px 100))).
  - lia.
  - lia.
  - reflexivity.
  - reflexivity.
  - intros k Hk. apply elem_of_cons in Hk as [->|Hk]; [reflexivity|].
    apply elem_of_cons in Hk as [->|Hk]; [reflexivity|inversion Hk].
  - intros k Hk. apply elem_of_cons in Hk as [->|Hk]; [vm_compute; discriminate|].
    apply elem_of_cons in Hk as [->|Hk]; [vm_compute; discriminate|inversion Hk].
  - right. intros t' x. reflexivity.
Defined.

(** ** Context menus: one column menu, the header cell overlay *)

Lemma columnAt_valid (t : Table) (n : nat) (c : Column) :
  getColumns t !! n = Some c ->
  columnAt t (Some (Int (Z.of_nat n))) = Some (Some (n, c)).
Proof.
  intros Hc. unfold columnAt, js_ltb0, js_geb.
  destruct (Z.ltb_spec (Z.of_nat n) 0); [lia|].
  apply lookup_lt_Some in Hc as Hlt.
  destruct (Z.leb_spec (Z.of_nat (length (getColumns t))) (Z.of_nat n)); [lia|].
  rewrite Nat2Z.id, Hc. reflexivity.
Qed.

Lemma only_columns_changed_refl (w : World) : only_columns_changed w w.
Proof.
  unfold only_columns_changed. destruct w as [t ? ? ? ?]. destruct t. reflexivity.
Qed.

Lemma only_columns_changed_trans (w1 w2 w3 : World) :
  only_columns_changed w1 w2 -> only_columns_changed w2 w3 ->
  only_columns_changed w1 w3.
Proof.
  unfold only_columns_changed. intros H12 H23.
  etransitivity; [exact H23|]. generalize (tb_columns (w_table w3)). intros cs3.
  revert H12. generalize (tb_columns (w_table w2)). intros cs2 ->. reflexivity.
Qed.

Lemma only_columns_changed_set (w : World) (n : nat) (f : Column -> Column) :
  only_columns_changed w (with_table (setColumn n f (w_table w)) w).
Proof. unfold only_columns_changed. reflexivity. Qed.

(** The loop of openColumnContextMenu over the other columns: it closes
    the menu of every column of the list except the one to open. *)
Lemma closeOtherColumnMenus_closes (iOpen : nat) (js : list nat) :
  forall w : World,
  (forall j, j ∈ js -> (j < length (tb_columns (w_table w)))%nat) ->
  exists w',
    closeOtherColumnMenus js iOpen w = Ok tt w'
    /\ only_columns_changed w w'
    /\ length (tb_columns (w_table w')) = length (tb_columns (w_table w))
    /\ forall k c, tb_columns (w_table w) !! k = Some c ->
         tb_columns (w_table w') !! k
         = Some (if bool_decide (k ∈ js /\ k <> iOpen) then with_menuOpen false c else c).
Proof.
  induction js as [|j rest IH]; intros w Hrange.
  - exists w. split; [reflexivity|]. split; [apply only_columns_changed_refl|].
    split; [reflexivity|]. intros k c Hc.
    rewrite bool_decide_eq_false_2; [exact Hc|]. intros [Hin _]. inversion Hin.
  - cbn [closeOtherColumnMenus]. case_bool_decide as Hj.
    + (* the column to open is skipped *)
      subst j. unfold bind at 1. unfold ret at 1.
      destruct (IH w) as (w' & Hrun & Honly & Hlen & Hcols).
      { intros j' Hj'. apply Hrange. right. exact Hj'. }
      exists w'. split; [exact Hrun|]. split; [exact Honly|]. split; [exact Hlen|].
      intros k c Hc. rewrite (Hcols k c Hc).
      destruct (decide (k = iOpen)) as [->|Hne].
      * rewrite !bool_decide_eq_false_2 by (intros [_ H]; congruence). reflexivity.
      * f_equal. apply (f_equal (fun b : bool => if b then _ else _)).
        apply bool_decide_ext. rewrite elem_of_cons. intuition congruence.
    + assert (Hlt : (j < length (tb_columns (w_table w)))%nat) by (apply Hrange; left).
      destruct (lookup_lt_is_Some_2 _ _ Hlt) as [cj Hcj].
      unfold bind at 1. unfold closeColumnContextMenu.
      unfold bind at 1. unfold getTable at 1.
      rewrite (columnAt_valid _ j cj) by exact Hcj.
      unfold bind at 1. unfold deref, ret. cbv beta iota. unfold modifyTable at 1.
      cbn [fst].
      destruct (IH (with_table (setColumn j (with_menuOpen false) (w_table w)) w))
        as (w' & Hrun & Honly & Hlen & Hcols).
      { intros j' Hj'. simpl. rewrite length_alter. apply Hrange. right. exact Hj'. }
      exists w'. split; [exact Hrun|].
      split; [eapply only_columns_changed_trans;
                [apply only_columns_changed_set|exact Honly]|].
      split; [rewrite Hlen; simpl; apply length_alter|].
      intros k c Hc. destruct (decide (j = k)) as [->|Hne].
      * rewrite (Hcols k (with_menuOpen false c))
          by (simpl; rewrite list_lookup_alter_eq, Hc; reflexivity).
        rewrite (bool_decide_eq_true_2 (k ∈ k :: rest /\ k <> iOpen))
          by (split; [left|exact Hj]).
        destruct (bool_decide _); reflexivity.
      * rewrite (Hcols k c) by (simpl; rewrite list_lookup_alter_ne by exact Hne; exact Hc).
        f_equal. apply (f_equal (fun b : bool => if b then _ else _)).
        apply bool_decide_ext. rewrite elem_of_cons. intuition congruence.
Qed.

Lemma openColumnContextMenu_opens_one (w : World) (n : nat) (c : Column)
    (bHoverFirstMenuItem : option bool) :
  getColumns (w_table w) !! n = Some c ->
  col_visible c = true ->
  exists w',
    openColumnContextMenu oTable (Some (Int (Z.of_nat n))) bHoverFirstMenuItem w = Ok tt w'
    /\ only_columns_changed w w'
    /\ length (tb_columns (w_table w')) = length (tb_columns (w_table w))
    /\ forall k ck, tb_columns (w_table w) !! k = Some ck ->
         tb_columns (w_table w') !! k = Some (with_menuOpen (bool_decide (k = n)) ck).
Proof.
  intros Hc Hv. unfold openColumnContextMenu.
  unfold bind at 1. unfold getTable at 1.
  rewrite (columnAt_valid _ n c) by exact Hc.
  unfold bind at 1. unfold deref, ret. cbv beta iota. cbn [fst snd]. rewrite Hv.
  change (negb true) with false. cbv iota.
  destruct (closeOtherColumnMenus_closes n (seq 0 (length (getColumns (w_table w)))) w)
    as (w1 & Hrun & Honly & Hlen & Hcols).
  { intros j Hj. apply elem_of_seq in Hj. unfold getColumns in Hj. lia. }
  unfold bind at 1. rewrite Hrun.
  eexists. split; [reflexivity|].
  split; [eapply only_columns_changed_trans;
            [exact Honly|apply only_columns_changed_set]|].
  split; [simpl; rewrite length_alter; exact Hlen|].
  intros k ck Hk. simpl.
  assert (Hin : k ∈ seq 0 (length (getColumns (w_table w)))).
  { apply elem_of_seq. apply lookup_lt_Some in Hk. unfold getColumns. lia. }
  destruct (decide (n = k)) as [->|Hne].
  - rewrite list_lookup_alter_eq, (Hcols k ck Hk).
    rewrite bool_decide_eq_false_2 by (intros [_ H]; congruence).
    rewrite bool_decide_eq_true_2 by reflexivity. reflexivity.
  - rewrite list_lookup_alter_ne by exact Hne. rewrite (Hcols k ck Hk).
    rewrite bool_decide_eq_true_2 by (split; [exact Hin|congruence]).
    rewrite (bool_decide_eq_false_2 (k = n)) by congruence. reflexivity.
Qed.

(** X22: one column menu at a time.  For a visible column of the table
    openColumnContextMenu returns, and afterwards the menu of that column
    is open and the menu of every other column is closed; nothing else
    about the columns or the world has changed. *)
Theorem openColumnContextMenu_exclusive (w : World) (n : nat) (c : Column)
    (bHoverFirstMenuItem : option bool) :
  getColumns (w_table w) !! n = Some c ->
  col_visible c = true ->
  exists w',
    openColumnContextMenu oTable (Some (Int (Z.of_nat n))) bHoverFirstMenuItem w = Ok tt w'
    /\ only_columns_changed w w'
    /\ length (tb_columns (w_table w')) = length (tb_columns (w_table w))
    /\ forall k ck, tb_columns (w_table w) !! k = Some ck ->
         tb_columns (w_table w') !! k = Some (with_menuOpen (bool_decide (k = n)) ck).
Proof. apply openColumnContextMenu_opens_one. Qed.

Lemma openColumnContextMenu_exclusive_witness :
  exists w',
    openColumnContextMenu oTable (Some (Int (Z.of_nat 1))) None world_two_columns = Ok tt w'
    /\ only_columns_changed world_two_columns w'
    /\ length (tb_columns (w_table w')) = length (tb_columns (w_table world_two_columns))
    /\ forall k ck, tb_columns (w_table world_two_columns) !! k = Some ck ->
         tb_columns (w_table w') !! k = Some (with_menuOpen (bool_decide (k = 1%nat)) ck).
Proof.
  apply (openColumnContextMenu_exclusive world_two_columns 1 (column (W_px 100)) None);
    reflexivity.
Defined.

(** ** The overlay of a column header cell *)

Lemma with_cellMenu_undo (c : Column) (m : option CellMenu) :
  col_cellMenu c = None -> col_cellHidden c = false ->
  with_cellMenu false None (with_cellMenu true m c) = c.
Proof. destruct c; simpl; intros -> ->; reflexivity. Qed.

Lemma with_table_same (w : World) : with_table (w_table w) w = w.
Proof. destruct w; reflexivity. Qed.

Lemma set_columns_same (t : Table) : set_columns (tb_columns t) t = t.
Proof. destruct t; reflexivity. Qed.

Lemma applyColumnHeaderCellMenu_run (w : World) (n : nat) (c : Column) :
  getColumns (w_table w) !! n = Some c ->
  col_cellMenu c = None ->
  applyColumnHeaderCellMenu oTable (Some (Int (Z.of_nat n))) w
  = Ok tt
      (if col_visible c && (col_resizable c || col_menuHasItems c) && isRendered c
       then with_table
              (setColumn n
                 (with_cellMenu true
                    (Some {| cm_dropDown := col_menuHasItems c;
                             cm_resizer := col_resizable c |}))
                 (w_table w)) w
       else w).
Proof.
  intros Hc Hm. unfold applyColumnHeaderCellMenu.
  unfold bind at 1. unfold getTable at 1.
  rewrite (columnAt_valid _ n c) by exact Hc.
  unfold bind at 1. unfold deref, ret. cbv beta iota zeta. cbn [fst snd].
  destruct (col_visible c && (col_resizable c || col_menuHasItems c)); [|reflexivity].
  rewrite Hm. destruct (isRendered c); reflexivity.
Qed.

Lemma removeColumnHeaderCellMenu_run (w : World) (n : nat) (c : Column) :
  getColumns (w_table w) !! n = Some c ->
  removeColumnHeaderCellMenu oTable (Some (Int (Z.of_nat n))) w
  = Ok tt
      (match col_cellMenu c with
       | Some _ => with_table (setColumn n (with_cellMenu false None) (w_table w)) w
       | None => w
       end).
Proof.
  intros Hc. unfold removeColumnHeaderCellMenu.
  unfold bind at 1. unfold getTable at 1.
  rewrite (columnAt_valid _ n c) by exact Hc.
  unfold bind at 1. unfold deref, ret. cbv beta iota. cbn [fst snd].
  destruct (col_cellMenu c); reflexivity.
Qed.

Lemma setColumn_lookup (t : Table) (n : nat) (f : Column -> Column) (c : Column) :
  getColumns t !! n = Some c ->
  getColumns (setColumn n f t) !! n = Some (f c).
Proof.
  intros Hc. unfold setColumn, getColumns in *. simpl.
  rewrite list_lookup_alter_eq, Hc. reflexivity.
Qed.

Lemma setColumn_undo (t : Table) (n : nat) (f g : Column -> Column) (c : Column) :
  getColumns t !! n = Some c -> g (f c) = c ->
  setColumn n g (setColumn n f t) = t.
Proof.
  intros Hc Hgf. unfold setColumn, getColumns in *. simpl.
  assert (Hl : alter g n (alter f n (tb_columns t)) = tb_columns t);
    [|unfold set_columns; simpl; rewrite Hl; destruct t; reflexivity].
  apply list_eq. intros k. destruct (decide (n = k)) as [<-|Hne].
  - rewrite !list_lookup_alter_eq, Hc. simpl. f_equal. exact Hgf.
  - rewrite !list_lookup_alter_ne by exact Hne. reflexivity.
Qed.



(** ** Two taps on a column header cell *)

Lemma cellHasMenuButton_lookup (t : Table) (n : nat) (c : Column) :
  getColumns t !! n = Some c ->
  cellHasMenuButton t (Int (Z.of_nat n))
  = match col_cellMenu c with Some m => cm_dropDown m | None => false end.
Proof.
  intros Hc. unfold cellHasMenuButton, js_index.
  destruct (Z.ltb_spec (Z.of_nat n) 0); [lia|].
  rewrite Nat2Z.id, Hc. reflexivity.
Qed.

(** X24: on a touch device a column menu takes two taps.  For a header
    cell of a visible, rendered column with menu items and without overlay,
    and a handler that cancels nothing: the first openContextMenu puts the
    overlay with the drop-down button into the cell and fires nothing; the
    second removes the overlay, fires exactly one column-select
    notification and leaves the menu of this column open and the menu of
    every other column closed. *)
Theorem openContextMenu_two_taps (E : Env) (w : World) (e eCell : DomElem)
    (n : nat) (c : Column) (bHoverFirstMenuItem : option bool) :
  env_desktop E = false ->
  (forall t nf, env_handler E t nf = true) ->
  getCell oTable (Some e) = Some eCell ->
  getCellInfo (Some eCell) = Some COLUMNHEADER ->
  parseInt (node_colindex (el_node eCell)) = Int (Z.of_nat n) ->
  getColumns (w_table w) !! n = Some c ->
  col_visible c = true ->
  col_menuHasItems c = true ->
  isRendered c = true ->
  col_cellMenu c = None ->
  col_cellHidden c = false ->
  exists w1 w2,
    openContextMenu E oTable (Some e) bHoverFirstMenuItem None w = Ok tt w1
    /\ w_fired w1 = w_fired w
    /\ getColumns (w_table w1) !! n
       = Some (with_cellMenu true
                 (Some {| cm_dropDown := true; cm_resizer := col_resizable c |}) c)
    /\ openContextMenu E oTable (Some e) bHoverFirstMenuItem None w1 = Ok tt w2
    /\ w_fired w2
       = w_fired w ++ [ColumnSelect (visibleColumnAt (w_table w) (Int (Z.of_nat n)))]
    /\ forall k ck, getColumns (w_table w) !! k = Some ck ->
         getColumns (w_table w2) !! k = Some (with_menuOpen (bool_decide (k = n)) ck).
Proof.
  intros Hdesk Hhandler Hcell Hinfo Hidx Hc Hv Hitems Hrend Hm Hh.
  (* the first tap *)
  assert (Hfirst :
    openContextMenu E oTable (Some e) bHoverFirstMenuItem None w
    = Ok tt (with_table
               (setColumn n
                  (with_cellMenu true
                     (Some {| cm_dropDown := true; cm_resizer := col_resizable c |}))
                  (w_table w)) w)).
  { unfold openContextMenu. rewrite Hcell, Hinfo.
    unfold getColumnHeaderCellInfo. rewrite Hinfo, Hidx.
    unfold bind at 1. unfold deref at 1. unfold ret at 1. cbv beta iota zeta. cbn [fst].
    unfold bind at 1. unfold getTable at 1.
    rewrite (cellHasMenuButton_lookup _ n c Hc), Hm, Hdesk. cbn [orb].
    rewrite (applyColumnHeaderCellMenu_run w n c Hc Hm).
    rewrite Hv, Hitems, Hrend, orb_true_r. reflexivity. }
  set (c1 := with_cellMenu true
               (Some {| cm_dropDown := true; cm_resizer := col_resizable c |}) c).
  set (w1 := with_table (setColumn n (with_cellMenu true
               (Some {| cm_dropDown := true; cm_resizer := col_resizable c |}))
               (w_table w)) w) in *.
  assert (Hc1 : getColumns (w_table w1) !! n = Some c1).
  { apply setColumn_lookup. exact Hc. }
  (* the second tap: the overlay is taken off, which restores the world *)
  assert (Hback : with_table (setColumn n (with_cellMenu false None) (w_table w1)) w1 = w).
  { unfold w1, with_table. simpl.
    rewrite (setColumn_undo _ n _ _ c Hc) by (apply with_cellMenu_undo; assumption).
    destruct w; reflexivity. }
  destruct (openColumnContextMenu_opens_one
              {| w_table := w_table w;
                 w_fired := w_fired w
                            ++ [ColumnSelect (visibleColumnAt (w_table w) (Int (Z.of_nat n)))];
                 w_live := w_live w; w_next := w_next w; w_log := w_log w |}
              n c bHoverFirstMenuItem Hc Hv)
    as (w2 & Hopen & Honly & _ & Hcols).
  exists w1, w2.
  split; [exact Hfirst|]. split; [reflexivity|]. split; [exact Hc1|].
  split; [|split].
  - unfold openContextMenu. rewrite Hcell, Hinfo.
    unfold getColumnHeaderCellInfo. rewrite Hinfo, Hidx.
    unfold bind at 1. unfold deref at 1. unfold ret at 1. cbv beta iota zeta. cbn [fst].
    unfold bind at 1. unfold getTable at 1.
    rewrite (cellHasMenuButton_lookup _ n c1 Hc1). cbn [c1 with_cellMenu col_cellMenu cm_dropDown].
    rewrite orb_true_r.
    unfold bind at 1. rewrite (removeColumnHeaderCellMenu_run w1 n c1 Hc1).
    cbn [c1 with_cellMenu col_cellMenu]. rewrite Hback.
    unfold bind at 1. unfold getTable at 1.
    change (default true None) with true. cbv iota.
    unfold bind at 1. unfold fire at 1. rewrite Hhandler.
    exact Hopen.
  - rewrite Honly. reflexivity.
  - exact Hcols.
Qed.

Lemma openContextMenu_two_taps_witness :
  exists w1 w2,
    openContextMenu (env false true) oTable (Some header_cell) None None world_two_columns
    = Ok tt w1
    /\ w_fired w1 = w_fired world_two_columns
    /\ getColumns (w_table w1) !! 0%nat
       = Some (with_cellMenu true
                 (Some {| cm_dropDown := true;
                          cm_resizer := col_resizable (column (W_px 100)) |})
                 (column (W_px 100)))
    /\ openContextMenu (env false true) oTable (Some header_cell) None None w1 = Ok tt w2
    /\ w_fired w2
       = w_fired world_two_columns
         ++ [ColumnSelect (visibleColumnAt (w_table world_two_columns) (Int (Z.of_nat 0)))]
    /\ forall k ck, getColumns (w_table world_two_columns) !! k = Some ck ->
         getColumns (w_table w2) !! k = Some (with_menuOpen (bool_decide (k = 0%nat)) ck).
Proof.
  apply (openContextMenu_two_taps (env false true) world_two_columns header_cell
           header_cell 0 (column (W_px 100)) None);
    reflexivity.
Defined.
